(** * dtracker: the equipment store, its import pipeline and the dashboard statistics

    A shallow embedding of [services/db.ts] (the field normalisers
    [safeDate] and [normalizeEnum], [generateId], and the store operations
    [db.getAll], [db.update], [db.add], [db.delete], [db.importBulk]), of
    the [stats] computation of [components/Dashboard.tsx], of the filters,
    the export and the import of [components/EquipmentList.tsx] and of the
    form of [components/EquipmentModal.tsx], together with the part of the
    JavaScript platform they call: truthiness, [||], [String(..)], the string
    methods, and [Date].

    Conventions of the model.
    - A JavaScript value read from JSON is a [value]; an expression that may be
      [undefined] has type [option value], [None] standing for [undefined].
    - A number is a safe integer ([VNum], a [Z], printed in full) or any other
      number ([VNumber]), given by the text JavaScript prints for it and by
      its integral part; an integer outside the safe range stands for no
      number, and a property that depends on the text of an integer is
      stated for safe ones ([safe_numbers]).
    - Strings are [string]s of 8-bit characters, and case mapping and trimming
      are those of ASCII text; a property that depends on the case of a
      letter or on white space is stated for ASCII text ([plain_text]).
    - An operation that can throw returns a [result]. The conversion of a
      value to a string or to a date throws a TypeError when the value has
      no primitive form ([has_primitive]); the import pipeline, which reads
      values from a file, has this path, and the operations on stored
      records take the text the conversion returns.
    - What the platform leaves to the host (the fallback date parser, the
      local time zone, the random generator, the clock) is a field of
      [platform], and every theorem holds for every platform. *)

From Stdlib Require Import ZArith String Ascii List Lia Bool.
From stdpp Require Import gmap strings list.

Local Open Scope Z_scope.
Local Open Scope string_scope.

(* ===================================================================== *)
(** ** JavaScript values *)
(* ===================================================================== *)

(** A number is an integer [VNum n], meant for the safe integers, which a
    number holds exactly and JavaScript prints in full; or any other number
    [VNumber printed integral] (a fraction, a larger number, or the infinity
    of a literal such as 1e999), given by the text JavaScript prints for it
    and by its integral part when it is finite. *)
#[warnings="-register-all"]
Inductive value : Type :=
| VNull
| VBool (b : bool)
| VNum (n : Z)
| VNumber (printed : string) (integral : option Z)
| VStr (s : string)
| VArr (elems : list value)
| VObj (fields : gmap string value).

(** A record as it comes out of [JSON.parse]: keys to values. *)
Abbreviation obj := (gmap string value).

(** [item.key]: [None] is [undefined]. *)
Definition prop (item : obj) (key : string) : option value := item !! key.

(** Thrown errors. *)
Inductive error : Type :=
| ItemNotFound    (* new Error('Item not found') *)
| SyntaxError     (* JSON.parse on text that is not JSON *)
| RangeError      (* toISOString on an invalid date *)
| TypeError.      (* the conversion of an object that has no primitive form *)

Inductive result (A : Type) : Type :=
| Ok (a : A)
| Throw (e : error).
Arguments Ok {A} a.
Arguments Throw {A} e.

(** [try { body } catch (e) { handler }] *)
Definition try_catch {A} (body : result A) (handler : error -> result A) : result A :=
  match body with
  | Ok a => Ok a
  | Throw e => handler e
  end.

(* --------------------------------------------------------------------- *)
(** *** Strings *)

Definition is_lower_letter (c : ascii) : bool :=
  let n := N_of_ascii c in ((97 <=? n) && (n <=? 122))%N.

Definition is_upper_letter (c : ascii) : bool :=
  let n := N_of_ascii c in ((65 <=? n) && (n <=? 90))%N.

Definition upper_char (c : ascii) : ascii :=
  if is_lower_letter c then ascii_of_N (N_of_ascii c - 32) else c.

Definition lower_char (c : ascii) : ascii :=
  if is_upper_letter c then ascii_of_N (N_of_ascii c + 32) else c.

Fixpoint map_string (f : ascii -> ascii) (s : string) : string :=
  match s with
  | EmptyString => EmptyString
  | String c s' => String (f c) (map_string f s')
  end.

(** [s.toUpperCase()], [s.toLowerCase()], on text that is ASCII (see
    [ascii_text] below): outside ASCII the platform maps characters that
    these leave alone, and may change the length of the text. *)
Definition toUpperCase (s : string) : string := map_string upper_char s.
Definition toLowerCase (s : string) : string := map_string lower_char s.

(** White space and line terminators within ASCII: TAB, LF, VT, FF, CR,
    SPACE. *)
Definition is_white (c : ascii) : bool :=
  let n := N_of_ascii c in (((9 <=? n) && (n <=? 13)) || (n =? 32))%N.

Fixpoint trim_start (s : string) : string :=
  match s with
  | EmptyString => EmptyString
  | String c s' => if is_white c then trim_start s' else s
  end.

(** Drops the trailing white space: a character is kept when it is not white
    or when something is kept after it. *)
Fixpoint trim_end (s : string) : string :=
  match s with
  | EmptyString => EmptyString
  | String c s' =>
      match trim_end s' with
      | EmptyString => if is_white c then EmptyString else String c EmptyString
      | t => String c t
      end
  end.

(** [s.trim()] *)
Definition trim (s : string) : string := trim_end (trim_start s).

(** [s.charAt(0)]: the first character as a string, or the empty string. *)
Definition charAt0 (s : string) : string :=
  match s with
  | EmptyString => EmptyString
  | String c _ => String c EmptyString
  end.

(** [s.slice(n)] for [n >= 0]. *)
Fixpoint slice (n : nat) (s : string) : string :=
  match n, s with
  | O, _ => s
  | S n', String _ s' => slice n' s'
  | S _, EmptyString => EmptyString
  end.

(** [s.substr(start, len)] for non-negative arguments. *)
Fixpoint take (n : nat) (s : string) : string :=
  match n, s with
  | S n', String c s' => String c (take n' s')
  | _, _ => EmptyString
  end.

Definition substr (start len : nat) (s : string) : string := take len (slice start s).

(* --------------------------------------------------------------------- *)
(** *** Conversions *)

Definition digit_char (d : Z) : ascii := ascii_of_N (48 + Z.to_N d).

(** The decimal digits of [n], most significant first, when [n < 10 ^ fuel]. *)
Fixpoint digits_of (fuel : nat) (n : Z) (acc : string) : string :=
  match fuel with
  | O => acc
  | S fuel' =>
      let acc' := String (digit_char (n mod 10)) acc in
      if (n / 10 =? 0)%Z then acc' else digits_of fuel' (n / 10) acc'
  end.

(** Number to string, for an integer that a number holds exactly and prints
    in full (see [safe_integer] below). *)
Definition Number_toString (n : Z) : string :=
  if (n <? 0)%Z
  then String "-" (digits_of (S (Z.to_nat (Z.log2 (- n)))) (- n) EmptyString)
  else digits_of (S (Z.to_nat (Z.log2 n))) n EmptyString.

(** [Array.prototype.join(",")]: [null] elements print as the empty string. *)
Fixpoint join_with (elem : value -> string) (l : list value) : string :=
  match l with
  | [] => EmptyString
  | [v] => elem v
  | v :: l' => elem v ++ "," ++ join_with elem l'
  end.

(** The text [String(v)] returns for a defined value, when it returns (see
    [has_primitive] below). *)
Fixpoint ToString (v : value) : string :=
  match v with
  | VNull => "null"
  | VBool true => "true"
  | VBool false => "false"
  | VNum n => Number_toString n
  | VNumber printed _ => printed
  | VStr s => s
  | VArr l =>
      join_with (fun e => match e with VNull => EmptyString | _ => ToString e end) l
  | VObj _ => "[object Object]"
  end.

(** The text [String(e)] returns, when it returns. *)
Definition String_ (e : option value) : string :=
  match e with
  | None => "undefined"
  | Some v => ToString v
  end.

(** Whether the conversion of [v] to a primitive returns. Nothing read from
    JSON is callable, so an object with a [toString] of its own hides
    [Object.prototype.toString], and [valueOf] gives back the object: the
    conversion throws a TypeError. An array is joined, which converts each
    of its elements but [null]. *)
Fixpoint has_primitive (v : value) : bool :=
  match v with
  | VArr l => forallb has_primitive l
  | VObj fields => match fields !! "toString" with Some _ => false | None => true end
  | _ => true
  end.

(** The same of an expression that may be [undefined]. *)
Definition converts (e : option value) : bool :=
  match e with
  | Some v => has_primitive v
  | None => true
  end.

(** [String(e)] *)
Definition String_or_throw (e : option value) : result string :=
  if converts e then Ok (String_ e) else Throw TypeError.

(** The integers that a number holds exactly. *)
Definition safe_integer (n : Z) : bool := (Z.abs n <=? 9007199254740992)%Z.

(** Every number that the text of [v] prints is a safe integer. *)
Fixpoint safe_numbers (v : value) : bool :=
  match v with
  | VNum n => safe_integer n
  | VArr l => forallb safe_numbers l
  | _ => true
  end.

(** Every character is in ASCII. *)
Fixpoint ascii_text (s : string) : bool :=
  match s with
  | EmptyString => true
  | String c s' => (N_of_ascii c <? 128)%N && ascii_text s'
  end.

(** The text of [e] in the model is the text JavaScript gives it, and it is
    in ASCII: [e] converts, prints safe integers only and holds no character
    outside ASCII. *)
Definition plain_text (e : option value) : bool :=
  converts e &&
  match e with Some v => safe_numbers v | None => true end &&
  ascii_text (String_ e).

(** Truthiness: [undefined], [null], [false], [0] and [""] are falsy; a
    number that is not an integer is not 0. *)
Definition truthy (e : option value) : bool :=
  match e with
  | None | Some VNull | Some (VBool false) => false
  | Some (VNum n) => negb (n =? 0)%Z
  | Some (VStr s) => negb (String.eqb s EmptyString)
  | Some _ => true
  end.

(** [a || b] *)
Definition js_or (a b : option value) : option value :=
  if truthy a then a else b.

Infix "|||" := js_or (at level 50, left associativity).

Definition str (s : string) : option value := Some (VStr s).

(* ===================================================================== *)
(** ** The host platform *)
(* ===================================================================== *)

(** The largest time value: 100,000,000 days on either side of the epoch. *)
Definition maxTime : Z := 8640000000000000.

(** What ECMAScript leaves to the implementation or to the environment.
    - [host_parse]: the result of [Date.parse] on a string that is not in
      the interchange format recognised by [iso_format] below ([None] is
      [NaN]).
    - [LocalTZA t isUTC]: the offset of the local time zone in milliseconds, at
      the UTC instant [t] ([isUTC = true]) or at the local time [t].
    - [Math_random_text k]: the text of [Math.random().toString(36)] at the
      [k]-th call.
    - [clock k]: the time value of the [k]-th [new Date()], always a valid
      time value. *)
Record platform : Type := {
  host_parse : string -> option Z;
  LocalTZA : Z -> bool -> Z;
  Math_random_text : nat -> string;
  clock : nat -> Z;
  clock_in_range : forall k, Z.abs (clock k) <= maxTime
}.

(* ===================================================================== *)
(** ** Date *)
(* ===================================================================== *)

Definition msPerDay : Z := 86400000.
Definition msPerHour : Z := 3600000.
Definition msPerMinute : Z := 60000.
Definition msPerSecond : Z := 1000.

(** A time value is [Some t] with [|t| <= maxTime], or [None] for [NaN]. *)
Definition TimeClip (t : Z) : option Z :=
  if (Z.abs t <=? maxTime)%Z then Some t else None.

Definition Day (t : Z) : Z := t / msPerDay.
Definition TimeWithinDay (t : Z) : Z := t mod msPerDay.

Definition isLeapYear (y : Z) : bool :=
  ((y mod 4 =? 0) && (negb (y mod 100 =? 0) || (y mod 400 =? 0)))%Z.

(** Days of month [m] (1 to 12) of year [y]. *)
Definition DaysInMonth (y m : Z) : Z :=
  if (m =? 2)%Z then (if isLeapYear y then 29 else 28)
  else if ((m =? 4) || (m =? 6) || (m =? 9) || (m =? 11))%Z then 30
  else 31.

(** The date of the day numbered [doe], from 0 to 146096, of a 400-year era
    that starts on the first of March of its year 0: the year within the era,
    the month (1 to 12) and the day of the month. *)
Definition date_in_era (doe : Z) : Z * Z * Z :=
  let yoe := (doe - doe / 1460 + doe / 36524 - doe / 146096) / 365 in
  let doy := doe - (365 * yoe + yoe / 4 - yoe / 100) in
  let mp := (5 * doy + 2) / 153 in
  let d := doy - (153 * mp + 2) / 5 + 1 in
  let m := if (mp <? 10)%Z then mp + 3 else mp - 9 in
  (if (m <=? 2)%Z then yoe + 1 else yoe, m, d).

(** The proleptic Gregorian date (year, month 1 to 12, day of month) of the
    day numbered [z] from 1970-01-01. *)
Definition civil_from_days (z : Z) : Z * Z * Z :=
  let z := z + 719468 in
  let era := z / 146097 in
  let doe := z - era * 146097 in
  let '(y, m, d) := date_in_era doe in
  (y + era * 400, m, d).

(** The day number of a date; [d] may lie outside the month. *)
Definition days_from_civil (y m d : Z) : Z :=
  let y := if (m <=? 2)%Z then y - 1 else y in
  let era := y / 400 in
  let yoe := y - era * 400 in
  let mp := if (2 <? m)%Z then m - 3 else m + 9 in
  let doy := (153 * mp + 2) / 5 + d - 1 in
  let doe := yoe * 365 + yoe / 4 - yoe / 100 + doy in
  era * 146097 + doe - 719468.

Definition YearFromTime (t : Z) : Z := fst (fst (civil_from_days (Day t))).
(** Months count from 0 here, as in ECMAScript. *)
Definition MonthFromTime (t : Z) : Z := snd (fst (civil_from_days (Day t))) - 1.
Definition DateFromTime (t : Z) : Z := snd (civil_from_days (Day t)).
Definition HourFromTime (t : Z) : Z := (t / msPerHour) mod 24.
Definition MinFromTime (t : Z) : Z := (t / msPerMinute) mod 60.
Definition SecFromTime (t : Z) : Z := (t / msPerSecond) mod 60.
Definition msFromTime (t : Z) : Z := t mod msPerSecond.

Definition MakeTime (hour min sec ms : Z) : Z :=
  hour * msPerHour + min * msPerMinute + sec * msPerSecond + ms.

(** [month] counts from 0 and is normalised into a year; [date] is added as
    a number of days. *)
Definition MakeDay (year month date : Z) : Z :=
  let ym := year + month / 12 in
  let mn := month mod 12 in
  days_from_civil ym (mn + 1) 1 + date - 1.

Definition MakeDate (day time : Z) : Z := day * msPerDay + time.

(* --------------------------------------------------------------------- *)
(** *** Date.prototype.toISOString *)

(** [n] on [w] digits, zero padded (the digits of [n mod 10 ^ w]). *)
Fixpoint pad (w : nat) (n : Z) : string :=
  match w with
  | O => EmptyString
  | S w' => String (digit_char ((n / 10 ^ Z.of_nat w') mod 10)) (pad w' n)
  end.

(** Four digits for the years 0 to 9999, otherwise a sign and six digits. *)
Definition year_text (y : Z) : string :=
  if ((0 <=? y) && (y <=? 9999))%Z then pad 4 y
  else if (y <? 0)%Z then String "-" (pad 6 (- y))
  else String "+" (pad 6 y).

Definition iso_text (t : Z) : string :=
  year_text (YearFromTime t) ++ "-" ++ pad 2 (MonthFromTime t + 1) ++ "-" ++
  pad 2 (DateFromTime t) ++ "T" ++ pad 2 (HourFromTime t) ++ ":" ++
  pad 2 (MinFromTime t) ++ ":" ++ pad 2 (SecFromTime t) ++ "." ++
  pad 3 (msFromTime t) ++ "Z".

(** [d.toISOString()], which throws a RangeError on an invalid date. *)
Definition toISOString (d : option Z) : result string :=
  match d with
  | Some t => Ok (iso_text t)
  | None => Throw RangeError
  end.

(* --------------------------------------------------------------------- *)
(** *** Date.parse *)

Definition is_digit (c : ascii) : bool :=
  let n := N_of_ascii c in ((48 <=? n) && (n <=? 57))%N.

Definition digit_val (c : ascii) : Z := Z.of_N (N_of_ascii c) - 48.

(** Reads exactly [w] digits. *)
Fixpoint read_digits (w : nat) (acc : Z) (s : string) : option (Z * string) :=
  match w with
  | O => Some (acc, s)
  | S w' =>
      match s with
      | String c s' =>
          if is_digit c then read_digits w' (10 * acc + digit_val c) s' else None
      | EmptyString => None
      end
  end.

Definition expect (c : ascii) (s : string) : option string :=
  match s with
  | String c' s' => if Ascii.eqb c c' then Some s' else None
  | EmptyString => None
  end.

(** [YYYY], or an expanded year [+YYYYYY] or [-YYYYYY]; [-000000] is not a
    year. *)
Definition read_year (s : string) : option (Z * string) :=
  match s with
  | String c s' =>
      if Ascii.eqb c "+" then read_digits 6 0 s'
      else if Ascii.eqb c "-" then
        '(y, rest) ← read_digits 6 0 s';
        if (y =? 0)%Z then None else Some (- y, rest)
      else read_digits 4 0 s
  | EmptyString => None
  end.

(** [THH:mm:ss.sssZ] up to the end of the string: the time within the day. *)
Definition read_utc_time (s : string) : option Z :=
  s ← expect "T" s;
  '(h, s) ← read_digits 2 0 s;
  s ← expect ":" s;
  '(mi, s) ← read_digits 2 0 s;
  s ← expect ":" s;
  '(sec, s) ← read_digits 2 0 s;
  s ← expect "." s;
  '(ms, s) ← read_digits 3 0 s;
  s ← expect "Z" s;
  match s with
  | EmptyString =>
      if ((h <=? 23) && (mi <=? 59) && (sec <=? 59))%Z
      then Some (MakeTime h mi sec ms) else None
  | _ => None
  end.

(** The two forms of the date-time interchange format whose meaning does not
    depend on the host: a date [YYYY-MM-DD] (midnight UTC) and a full UTC
    date-time [YYYY-MM-DDTHH:mm:ss.sssZ], with every field in range. Any
    other string is left to [host_parse]. *)
Definition iso_format (s : string) : option Z :=
  '(y, s) ← read_year s;
  s ← expect "-" s;
  '(m, s) ← read_digits 2 0 s;
  s ← expect "-" s;
  '(d, s) ← read_digits 2 0 s;
  if ((1 <=? m) && (m <=? 12) && (1 <=? d) && (d <=? DaysInMonth y m))%Z then
    match s with
    | EmptyString => Some (MakeDate (MakeDay y (m - 1) d) 0)
    | _ => time ← read_utc_time s; Some (MakeDate (MakeDay y (m - 1) d) time)
    end
  else None.

Section Date.
Variable P : platform.

(** [Date.parse(s)]: the empty string is not a date. *)
Definition Date_parse (s : string) : option Z :=
  match s with
  | EmptyString => None
  | _ =>
      match iso_format s with
      | Some t => TimeClip t
      | None => host_parse P s ≫= TimeClip
      end
  end.

(** The time value of [new Date(v)], when the conversion of [v] returns: a
    string is parsed, an array or an object is first converted to a string,
    anything else to a number. *)
Definition new_Date (v : option value) : option Z :=
  match v with
  | None => None
  | Some VNull => TimeClip 0
  | Some (VBool b) => TimeClip (if b then 1 else 0)
  | Some (VNum n) => TimeClip n
  | Some (VNumber _ integral) => integral ≫= TimeClip
  | Some (VStr s) => Date_parse s
  | Some (VArr l) => Date_parse (ToString (VArr l))
  | Some (VObj m) => Date_parse (ToString (VObj m))
  end.

(** [new Date(v)] *)
Definition new_Date_or_throw (v : option value) : result (option Z) :=
  if converts v then Ok (new_Date v) else Throw TypeError.

(** [new Date()] at the [k]-th reading of the clock. *)
Definition Date_now (k : nat) : option Z := Some (clock P k).

Definition LocalTime (t : Z) : Z := t + LocalTZA P t true.
Definition UTC (t : Z) : Z := t - LocalTZA P t false.

(** [d.getDate()]: the day of the month in local time. *)
Definition getDate (d : option Z) : option Z :=
  t ← d; Some (DateFromTime (LocalTime t)).

(** [d.setDate(dt)]: the new time value of [d]. *)
Definition setDate (d : option Z) (dt : option Z) : option Z :=
  t ← d; dt ← dt;
  let t := LocalTime t in
  let newDate := MakeDate (MakeDay (YearFromTime t) (MonthFromTime t) dt) (TimeWithinDay t) in
  TimeClip (UTC newDate).

(** [a <= b] on two dates: false when either is invalid. *)
Definition Date_le (a b : option Z) : bool :=
  match a, b with
  | Some x, Some y => (x <=? y)%Z
  | _, _ => false
  end.

(** [isNaN(d.getTime())] *)
Definition isNaN_getTime (d : option Z) : bool :=
  match d with Some _ => false | None => true end.
End Date.

(* ===================================================================== *)
(** ** services/db.ts *)
(* ===================================================================== *)

(** The text kept under [STORAGE_KEY], seen through what the code does with
    it: its truthiness and what [JSON.parse] makes of it. The code types a
    parsed document as [Equipment[]], a list of records. *)
Inductive raw : Type :=
| RawEmpty                      (* the empty string *)
| RawGarbled                    (* a non-empty text that is not JSON *)
| RawJson (items : list obj).   (* JSON.stringify(items) *)

Definition JSON_parse (r : raw) : result (list obj) :=
  match r with
  | RawJson items => Ok items
  | RawEmpty | RawGarbled => Throw SyntaxError
  end.

Definition JSON_stringify (items : list obj) : raw := RawJson items.

(** The state the operations act on: [localStorage.getItem(STORAGE_KEY)]
    ([None] is [null]) and how many times the random generator and the clock
    have been used. *)
Record world : Type := {
  localStorage : option raw;
  random_calls : nat;
  clock_reads : nat
}.

(** A computation that may throw and that threads the [world]. *)
Definition M (A : Type) : Type := world -> result A * world.

Definition ret {A} (a : A) : M A := fun w => (Ok a, w).
Definition throw {A} (e : error) : M A := fun w => (Throw e, w).
Definition bind {A B} (m : M A) (k : A -> M B) : M B :=
  fun w => match m w with
           | (Ok a, w') => k a w'
           | (Throw e, w') => (Throw e, w')
           end.
Definition lift {A} (r : result A) : M A := fun w => (r, w).

Notation "'let*' x ':=' m 'in' k" := (bind m (fun x => k))
  (at level 10, x pattern, m at level 100, k at level 200).

Definition getItem : M (option raw) := fun w => (Ok (localStorage w), w).
Definition setItem (r : raw) : M unit := fun w =>
  (Ok tt, {| localStorage := Some r; random_calls := random_calls w;
             clock_reads := clock_reads w |}).

(** [f(x0); f(x1); ...] in order, collecting the results: [xs.map(f)]. *)
Fixpoint mapM {A B} (f : A -> M B) (xs : list A) : M (list B) :=
  match xs with
  | [] => ret []
  | x :: xs' => let* y := f x in let* ys := mapM f xs' in ret (y :: ys)
  end.

(** [items.findIndex(p)]: [None] is [-1]. *)
Fixpoint findIndex {A} (p : A -> bool) (items : list A) : option nat :=
  match items with
  | [] => None
  | x :: items' => if p x then Some O else S <$> findIndex p items'
  end.

(** [{ ...a, ...b }]: the keys of [b] win. *)
Definition spread (a b : obj) : obj := b ∪ a.

(** [{ ...base, key: value, ... }]: the properties are assigned in the order
    they are written. *)
Definition object_literal (base : obj) (properties : list (string * value)) : obj :=
  fold_left (fun o kv => <[kv.1 := kv.2]> o) properties base.
Arguments object_literal : simpl never.

(** [a || b] where evaluating [b] has effects: [b] runs only when [a] is
    falsy. *)
Definition or_else (a : option value) (b : M value) : M value :=
  match a with
  | Some v => if truthy a then ret v else b
  | None => b
  end.

Definition raw_truthy (r : option raw) : bool :=
  match r with
  | None | Some RawEmpty => false
  | Some _ => true
  end.

Section Db.
Variable P : platform.

(** [Math.random().toString(36).substr(2, 9)] *)
Definition generateId : M string := fun w =>
  (Ok (substr 2 9 (Math_random_text P (random_calls w))),
   {| localStorage := localStorage w; random_calls := S (random_calls w);
      clock_reads := clock_reads w |}).

(** [new Date().toISOString()] *)
Definition now_ISOString : M string := fun w =>
  (toISOString (Date_now P (clock_reads w)),
   {| localStorage := localStorage w; random_calls := random_calls w;
      clock_reads := S (clock_reads w) |}).

(** [new Date(val)] stands before the [try], so what it throws goes to the
    caller. *)
Definition safeDate (val : option value) : result string :=
  if negb (truthy val) then Ok EmptyString
  else
    match new_Date_or_throw P val with
    | Throw e => Throw e
    | Ok d =>
        if negb (isNaN_getTime d)
        then try_catch (toISOString d) (fun _ => Ok EmptyString)
        else Ok EmptyString
    end.

Definition normalizeEnum (val : option value) (fallback : string) : result string :=
  match String_or_throw (val ||| str "") with
  | Throw e => Throw e
  | Ok text =>
      let str := trim text in
      if String.eqb str EmptyString then Ok fallback
      else Ok (toUpperCase (charAt0 str) ++ toLowerCase (slice 1 str))
  end.

(** [stored ? JSON.parse(stored) : []] *)
Definition parse_or_empty (stored : option raw) : result (list obj) :=
  match stored with
  | Some r => if raw_truthy stored then JSON_parse r else Ok []
  | None => Ok []
  end.

(** The record built for one element of an import. The conversions run in
    the order the source writes them: the serial number, the dates and the
    employee before the object literal, the others as the literal is
    evaluated, after the identifier and the creation time. *)
Definition mapItem (item : obj) : M obj :=
  let rawSerial :=
    prop item "serialNumber" ||| prop item "serial_number" |||
    prop item "SerialNumber" ||| str "N/A" in
  let* serialNumber := lift (String_or_throw rawSerial) in
  let* dueDate := lift (safeDate (prop item "dueDate" ||| prop item "due_date")) in
  let* issueDate := lift (safeDate (prop item "issueDate" ||| prop item "issue_date")) in
  let* empId :=
    lift (String_or_throw (prop item "empId" ||| prop item "emp_id" |||
                           prop item "employee_id" ||| str "")) in
  let nameVal := prop item "name" ||| prop item "equipment_name" ||| str "Unknown Equipment" in
  let assigneeVal := prop item "assigneeName" ||| prop item "assignee_name" ||| str "" in
  let '(nameVal, assigneeVal) :=
    if truthy (prop item "equipment_name") then
      (prop item "equipment_name",
       if truthy (prop item "name") && negb (truthy assigneeVal)
       then prop item "name" else assigneeVal)
    else (nameVal, assigneeVal) in
  let* id :=
    if truthy (prop item "id") then lift (String_or_throw (prop item "id")) else generateId in
  let* createdAt :=
    or_else (prop item "createdAt") (let* now := now_ISOString in ret (VStr now)) in
  let* name := lift (String_or_throw nameVal) in
  let* assigneeName := lift (String_or_throw assigneeVal) in
  let* status := lift (normalizeEnum (prop item "status") "Available") in
  let* type := lift (normalizeEnum (prop item "type") "Other") in
  let* location := lift (String_or_throw (prop item "location" ||| str "")) in
  let* remarks := lift (String_or_throw (prop item "remarks" ||| str "")) in
  let* service :=
    lift (String_or_throw (prop item "service" ||| prop item "services" ||| str "")) in
  let* department := lift (String_or_throw (prop item "department" ||| str "")) in
  ret (object_literal item
         [("id", VStr id);
          ("createdAt", createdAt);
          ("serialNumber", VStr serialNumber);
          ("dueDate", VStr dueDate);
          ("issueDate", VStr issueDate);
          ("empId", VStr empId);
          ("name", VStr name);
          ("assigneeName", VStr assigneeName);
          ("status", VStr status);
          ("type", VStr type);
          ("location", VStr location);
          ("remarks", VStr remarks);
          ("service", VStr service);
          ("department", VStr department)]).

(** [String(item.id) === String(id)] *)
Definition same_id (id : value) (item : obj) : bool :=
  String.eqb (String_ (prop item "id")) (ToString id).
End Db.

(** The store operations; [await delay(ms)] changes nothing. *)
Module db.
Section Ops.
Variable P : platform.

Definition getAll : M (list obj) :=
  let* stored := getItem in
  if negb (raw_truthy stored) then ret []
  else
    match stored with
    | Some r => lift (try_catch (JSON_parse r) (fun _ => Ok []))
    | None => ret []
    end.

Definition update (id : value) (updates : obj) : M obj :=
  let* stored := getItem in
  let* items := lift (parse_or_empty stored) in
  match findIndex (same_id id) items with
  | None => throw ItemNotFound
  | Some index =>
      let updatedItem := spread (default ∅ (items !! index)) updates in
      let items := <[index := updatedItem]> items in
      let* _ := setItem (JSON_stringify items) in
      ret updatedItem
  end.

Definition add (item : obj) : M obj :=
  let* stored := getItem in
  let* items := lift (parse_or_empty stored) in
  let* id := generateId P in
  let* createdAt := now_ISOString P in
  let newItem := object_literal item [("id", VStr id); ("createdAt", VStr createdAt)] in
  let items := (items ++ [newItem])%list in
  let* _ := setItem (JSON_stringify items) in
  ret newItem.

Definition delete (id : value) : M unit :=
  let* stored := getItem in
  let* items := lift (parse_or_empty stored) in
  let filtered := List.filter (fun item => negb (same_id id item)) items in
  setItem (JSON_stringify filtered).

Definition importBulk (newItems : list obj) : M unit :=
  let* stored := getItem in
  let* currentItems := lift (parse_or_empty stored) in
  let* processed := mapM (mapItem P) newItems in
  let merged := (currentItems ++ processed)%list in
  setItem (JSON_stringify merged).
End Ops.
End db.

(* ===================================================================== *)
(** ** components/Dashboard.tsx: the statistics *)
(* ===================================================================== *)

Record DashboardStats : Type := {
  expired : nat;
  breakdown : nat;
  maintenance : nat;
  byType : gmap string nat;
  total : nat
}.

Section Dashboard.
Variable P : platform.

(** The body of [data.forEach], on the accumulated counters. *)
Definition stats_step (thirtyDaysFromNow : option Z)
    (acc : nat * nat * nat * gmap string nat) (item : obj)
    : nat * nat * nat * gmap string nat :=
  let '(expired, breakdown, maintenance, byType) := acc in
  let type :=
    if truthy (prop item "type") then trim (String_ (prop item "type")) else "Other" in
  let status :=
    if truthy (prop item "status")
    then trim (toLowerCase (String_ (prop item "status"))) else "" in
  let displayType := toUpperCase (charAt0 type) ++ toLowerCase (slice 1 type) in
  let byType := <[displayType := S (default O (byType !! displayType))]> byType in
  let breakdown :=
    if String.eqb status (toLowerCase "Breakdown") then S breakdown else breakdown in
  let maintenance :=
    if String.eqb status (toLowerCase "Maintenance") then S maintenance else maintenance in
  let expired :=
    if truthy (prop item "dueDate") then
      let due := new_Date P (prop item "dueDate") in
      if negb (isNaN_getTime due) && Date_le due thirtyDaysFromNow
      then S expired else expired
    else expired in
  (expired, breakdown, maintenance, byType).

(** [stats], computed when the clock has been read [k] times. *)
Definition stats (k : nat) (data : list obj) : DashboardStats :=
  let now := Date_now P k in
  let thirtyDaysFromNow := Date_now P (S k) in
  let thirtyDaysFromNow :=
    setDate P thirtyDaysFromNow (d ← getDate P now; Some (d + 30)) in
  let '(expired, breakdown, maintenance, byType) :=
    fold_left (stats_step thirtyDaysFromNow) data (O, O, O, ∅) in
  {| expired := expired; breakdown := breakdown; maintenance := maintenance;
     byType := byType; total := List.length data |}.
End Dashboard.

(* ===================================================================== *)
(** ** components/EquipmentList.tsx: the filters, the export and the import *)
(* ===================================================================== *)

(** [s.includes(sub)] *)
Fixpoint includes (s sub : string) : bool :=
  String.prefix sub s ||
  match s with
  | EmptyString => false
  | String _ s' => includes s' sub
  end.

(** The test of the search box on one record. *)
Definition matches_search (lower : string) (i : obj) : bool :=
  let nameStr := toLowerCase (String_ (prop i "name" ||| str "")) in
  let serialStr := toLowerCase (String_ (prop i "serialNumber" ||| str "")) in
  let assigneeStr := toLowerCase (String_ (prop i "assigneeName" ||| str "")) in
  let empIdStr := toLowerCase (String_ (prop i "empId" ||| str "")) in
  includes nameStr lower || includes serialStr lower ||
  includes assigneeStr lower || includes empIdStr lower.

(** [filteredItems]: the records shown, for the filter handed over by the
    dashboard ([None] is [undefined]), the text of the search box and the
    department chosen. *)
Definition filteredItems (items : list obj) (initialFilter : option obj)
    (searchTerm filterDept : string) : list obj :=
  let result := items in
  let result :=
    match initialFilter with
    | Some f =>
        if truthy (prop f "status") then
          let targetStatus := toLowerCase (String_ (prop f "status")) in
          List.filter
            (fun i => String.eqb (toLowerCase (String_ (prop i "status" ||| str "")))
                        targetStatus) result
        else result
    | None => result
    end in
  let result :=
    if truthy (str searchTerm) then
      let lower := toLowerCase searchTerm in
      List.filter (matches_search lower) result
    else result in
  let result :=
    if negb (String.eqb filterDept "All") then
      List.filter
        (fun i => String.eqb (toLowerCase (String_ (prop i "department" ||| str "")))
                    (toLowerCase filterDept)) result
    else result in
  result.

(** The double quote and the line feed. *)
Definition quote : ascii := "034"%char.
Definition newline : ascii := "010"%char.

(** [s.replace(/q/g, qq)] where [q] is the double quote: every double quote
    is written twice. *)
Fixpoint double_quotes (s : string) : string :=
  match s with
  | EmptyString => EmptyString
  | String c s' =>
      if Ascii.eqb c quote then String quote (String quote (double_quotes s'))
      else String c (double_quotes s')
  end.

(** One field of the export: the string form of [f || ''] with its double
    quotes doubled, between double quotes. *)
Definition csv_field (f : option value) : string :=
  String quote (double_quotes (String_ (f ||| str "")) ++ String quote EmptyString).

Definition csv_header : list string :=
  ["Type"; "Service"; "Dept"; "Status"; "Name"; "Serial"; "Due Date"; "Issue Date";
   "EmpID"; "Assignee"; "Location"; "Remarks"].

(** The fields of a record in the order of the header. *)
Definition csv_columns (i : obj) : list (option value) :=
  [prop i "type"; prop i "service"; prop i "department"; prop i "status"; prop i "name";
   prop i "serialNumber"; prop i "dueDate"; prop i "issueDate"; prop i "empId";
   prop i "assigneeName"; prop i "location"; prop i "remarks"].

(** [csvContent] of [handleExport]. *)
Definition csvContent (filteredItems : list obj) : string :=
  String.concat (String newline EmptyString)
    (String.concat "," csv_header
     :: List.map (fun i => String.concat "," (List.map csv_field (csv_columns i)))
          filteredItems).




Section FileImport.
Variable P : platform.

End FileImport.

(* ===================================================================== *)
(** ** components/EquipmentModal.tsx: the form *)
(* ===================================================================== *)

(** [s.split('T')[0]]: what comes before the first T. *)
Fixpoint before_T (s : string) : string :=
  match s with
  | EmptyString => EmptyString
  | String c s' => if Ascii.eqb c "T" then EmptyString else String c (before_T s')
  end.

(** [{ ...o, key: v }] where [v] may be [undefined]. The declared type
    [Equipment] gives every record the fields the form reads; for a record
    that lacks one, the form holds [undefined] under the key, the store drops
    such a key when it writes the merged record, and the model leaves the key
    out of the form: the two agree when the form is saved onto the record it
    was opened on. *)
Definition with_key (key : string) (v : option value) (o : obj) : obj :=
  match v with
  | Some x => <[key := x]> o
  | None => o
  end.

Inductive modal_mode : Type := Issue | Edit.

Section Modal.
Variable P : platform.

Definition safeDateToInput (dateStr : option value) : result string :=
  if negb (truthy dateStr) then Ok EmptyString
  else
    let date := new_Date P dateStr in
    if isNaN_getTime date then Ok EmptyString
    else try_catch
           (match toISOString date with
            | Ok text => Ok (before_T text)
            | Throw e => Throw e
            end)
           (fun _ => Ok EmptyString).

(** The form data set when the modal opens on [equipment]. *)
Definition initial_formData (equipment : obj) : result obj :=
  match safeDateToInput (prop equipment "issueDate"),
        safeDateToInput (prop equipment "dueDate") with
  | Ok issueDate, Ok dueDate =>
      Ok (with_key "name" (prop equipment "name")
         (with_key "remarks" (prop equipment "remarks")
         (with_key "location" (prop equipment "location")
         (with_key "assigneeName" (prop equipment "assigneeName")
         (with_key "empId" (prop equipment "empId")
         (with_key "dueDate" (Some (VStr dueDate))
         (with_key "issueDate" (Some (VStr issueDate))
         (with_key "status" (prop equipment "status") ∅))))))))
  | Throw e, _ | _, Throw e => Throw e
  end.

(** [handleChange]: the input called [name] now holds [value]. *)
Definition handleChange (name value : string) (formData : obj) : obj :=
  <[name := VStr value]> formData.

(** The date under [key] put in ISO form when it is a valid date. *)
Definition iso_if_valid (key : string) (updates : obj) : result obj :=
  if truthy (prop updates key) then
    let d := new_Date P (prop updates key) in
    if negb (isNaN_getTime d) then
      match toISOString d with
      | Ok text => Ok (<[key := VStr text]> updates)
      | Throw e => Throw e
      end
    else Ok updates
  else Ok updates.

(** [handleSubmit], with [onSave] being [handleUpdate] of the list. *)
Definition handleSubmit (mode : modal_mode) (formData equipment : obj) : M unit :=
  let updates := formData in
  let updates :=
    match mode with
    | Issue => <["status" := VStr "Assigned"]> updates
    | Edit => updates
    end in
  let* updates := lift (iso_if_valid "issueDate" updates) in
  let* updates := lift (iso_if_valid "dueDate" updates) in
  let* _ := db.update (VStr (String_ (prop equipment "id"))) updates in
  ret tt.
End Modal.

(* ===================================================================== *)
(** ** Vocabulary of the properties *)
(* ===================================================================== *)

(** The collection a store holds, as [getAll] returns it. *)
Definition records (w : world) : list obj :=
  match localStorage w with
  | Some (RawJson items) => items
  | _ => []
  end.

(** The value an object literal writes under [key], if it writes one. *)
Definition written (key : string) (properties : list (string * value)) : option value :=
  fold_left (fun found kv => if String.eqb kv.1 key then Some kv.2 else found)
    properties None.

(** The name given to the mapped record. *)
Definition mapped_name (item : obj) : option value :=
  if truthy (prop item "equipment_name") then prop item "equipment_name"
  else prop item "name" ||| prop item "equipment_name" ||| str "Unknown Equipment".

(** The assignee given to the mapped record. *)
Definition mapped_assignee (item : obj) : option value :=
  let assigneeVal := prop item "assigneeName" ||| prop item "assignee_name" ||| str "" in
  if truthy (prop item "equipment_name") && truthy (prop item "name")
     && negb (truthy assigneeVal)
  then prop item "name" else assigneeVal.

(** A mapped record answers to the identifier its source carried. *)
Definition keeps_id (item o : obj) : Prop :=
  truthy (prop item "id") = true -> o !! "id" = Some (VStr (String_ (prop item "id"))).

(** Every character is white space. *)
Fixpoint blank (s : string) : bool :=
  match s with
  | EmptyString => true
  | String c s' => is_white c && blank s'
  end.

(** No character is an upper-case letter. *)
Fixpoint no_upper (s : string) : bool :=
  match s with
  | EmptyString => true
  | String c s' => negb (is_upper_letter c) && no_upper s'
  end.

(** A non-empty string whose first character is not a lower-case letter and
    whose other characters are not upper-case letters. *)
Definition title_cased (s : string) : bool :=
  match s with
  | EmptyString => false
  | String c s' => negb (is_lower_letter c) && no_upper s'
  end.

(** [p] holds of the [n] integers from [z] on. *)
Fixpoint holds_from (p : Z -> bool) (n : nat) (z : Z) : bool :=
  match n with
  | O => true
  | S n' => p z && holds_from p n' (z + 1)
  end.

(** The facts about one era, checked on each of its days. *)
Definition era_day_ok (doe : Z) : bool :=
  let '(y, m, d) := date_in_era doe in
  ((0 <=? y) && (y <=? 400) && (1 <=? m) && (m <=? 12) && (1 <=? d) &&
   (d <=? DaysInMonth y m) && (days_from_civil y m d =? doe - 719468))%Z.

(** The record's [dueDate] is truthy and parses to a valid instant at or
    before [limit]. *)
Definition due_by (P : platform) (limit : Z) (item : obj) : bool :=
  truthy (prop item "dueDate") &&
  match new_Date P (prop item "dueDate") with
  | Some t => (t <=? limit)%Z
  | None => false
  end.

(** The zone keeps one offset from UTC all along. *)
Definition fixed_offset (P : platform) (offset : Z) : Prop :=
  forall t isUTC, LocalTZA P t isUTC = offset.

Definition days (n : Z) : Z := n * msPerDay.

(** The instant at which the local clock shows the time of day it shows at
    [now], thirty calendar days later. *)
Definition thirty_days_later (P : platform) (now : Z) : Z :=
  UTC P (LocalTime P now + days 30).

(** The label [normalizeEnum] returns, when the conversion of [val]
    returns. *)
Definition normalized (val : option value) (fallback : string) : string :=
  let str := trim (String_ (val ||| str "")) in
  if String.eqb str EmptyString then fallback
  else toUpperCase (charAt0 str) ++ toLowerCase (slice 1 str).

(** Every number that the text of [e] prints is a safe integer. *)
Definition safe_text (e : option value) : bool :=
  match e with
  | Some v => safe_numbers v
  | None => true
  end.

(** The values the mapper converts to text or to a date, in the order in
    which it converts them. *)
Definition coerced (item : obj) : list (option value) :=
  [prop item "serialNumber" ||| prop item "serial_number" ||| prop item "SerialNumber" |||
     str "N/A";
   prop item "dueDate" ||| prop item "due_date";
   prop item "issueDate" ||| prop item "issue_date";
   prop item "empId" ||| prop item "emp_id" ||| prop item "employee_id" ||| str "";
   prop item "id";
   mapped_name item;
   mapped_assignee item;
   prop item "status" ||| str "";
   prop item "type" ||| str "";
   prop item "location" ||| str "";
   prop item "remarks" ||| str "";
   prop item "service" ||| prop item "services" ||| str "";
   prop item "department" ||| str ""].

(** Each value the mapper converts has a primitive form. *)
Definition mappable (item : obj) : bool := forallb converts (coerced item).

(** The keys the mapper reads a value to convert from. *)
Definition mapper_keys : list string :=
  ["serialNumber"; "serial_number"; "SerialNumber"; "dueDate"; "due_date"; "issueDate";
   "issue_date"; "empId"; "emp_id"; "employee_id"; "name"; "equipment_name";
   "assigneeName"; "assignee_name"; "id"; "status"; "type"; "location"; "remarks";
   "service"; "services"; "department"].

(** Each value the mapper could convert has a primitive form. *)
Definition fields_convert (item : obj) : bool :=
  forallb (fun key => converts (prop item key)) mapper_keys.

(** The keys of the [Equipment] interface that hold text. *)
Definition Equipment_text_keys : list string :=
  ["id"; "type"; "service"; "department"; "status"; "name"; "serialNumber"; "dueDate";
   "issueDate"; "empId"; "assigneeName"; "location"; "remarks"].

(** The record [mapItem] builds, given what the dates, the identifier and
    the creation time come out as. *)
Definition mapped (item : obj) (dueDate issueDate id : string) (createdAt : value) : obj :=
  object_literal item
    [("id", VStr id);
     ("createdAt", createdAt);
     ("serialNumber", VStr (String_ (prop item "serialNumber" ||| prop item "serial_number" |||
                                     prop item "SerialNumber" ||| str "N/A")));
     ("dueDate", VStr dueDate);
     ("issueDate", VStr issueDate);
     ("empId", VStr (String_ (prop item "empId" ||| prop item "emp_id" |||
                              prop item "employee_id" ||| str "")));
     ("name", VStr (String_ (mapped_name item)));
     ("assigneeName", VStr (String_ (mapped_assignee item)));
     ("status", VStr (normalized (prop item "status") "Available"));
     ("type", VStr (normalized (prop item "type") "Other"));
     ("location", VStr (String_ (prop item "location" ||| str "")));
     ("remarks", VStr (String_ (prop item "remarks" ||| str "")));
     ("service", VStr (String_ (prop item "service" ||| prop item "services" ||| str "")));
     ("department", VStr (String_ (prop item "department" ||| str "")))].

(** The string does not end in white space. *)
Fixpoint ends_black (s : string) : bool :=
  match s with
  | EmptyString => true
  | String c EmptyString => negb (is_white c)
  | String _ s' => ends_black s'
  end.

(** The string does not start with white space. *)
Definition starts_black (s : string) : bool :=
  match s with
  | EmptyString => true
  | String c _ => negb (is_white c)
  end.

(** A string with no white space at either end. *)
Definition trimmed (s : string) : bool := starts_black s && ends_black s.

(** Two strings with white space at the same places. *)
Fixpoint same_white (s t : string) : bool :=
  match s, t with
  | EmptyString, EmptyString => true
  | String c s', String d t' => Bool.eqb (is_white c) (is_white d) && same_white s' t'
  | _, _ => false
  end.

(** The title-cased form of a string: its first character in upper case and
    the others in lower case. *)
Definition title_case (s : string) : string :=
  toUpperCase (charAt0 s) ++ toLowerCase (slice 1 s).

(** None of the keys holds a truthy value in the record. *)
Definition all_falsy (item : obj) (keys : list string) : bool :=
  forallb (fun key => negb (truthy (prop item key))) keys.

(** The status of a record as the dashboard compares it: in lower case and
    without the white space around it; empty when the status is falsy. *)
Definition status_label (item : obj) : string :=
  trim (toLowerCase (String_ (prop item "status" ||| str ""))).

(** The name of the bucket the dashboard counts a record in: its trimmed
    type in title case, "Other" when the type is falsy. *)
Definition bucket_of (item : obj) : string :=
  title_case (if truthy (prop item "type") then trim (String_ (prop item "type")) else "Other").

(** How many records satisfy [p]. *)
Definition count (p : obj -> bool) (data : list obj) : nat :=
  List.length (List.filter p data).

(** Where a reader of comma-separated text stands: at the start of a field,
    inside a bare field, inside a quoted field, or just after a double quote
    met inside a quoted field. *)
Inductive csv_state : Type := FieldStart | Bare | Quoted | QuoteSeen.

(** Reads comma-separated text in the usual way (RFC 4180): fields are
    separated by commas and rows by line feeds; a field between double quotes
    may hold commas, line feeds and doubled double quotes. [field] and [row]
    are the field and the row being read, [rows] the rows read so far.
    [None] when the text is not well formed. *)
Fixpoint csv_read (st : csv_state) (field : string) (row : list string)
    (rows : list (list string)) (s : string) : option (list (list string)) :=
  match s with
  | EmptyString =>
      match st with
      | Quoted => None
      | _ => Some (rows ++ [(row ++ [field])%list])%list
      end
  | String c s' =>
      match st with
      | FieldStart =>
          if Ascii.eqb c quote then csv_read Quoted EmptyString row rows s'
          else if Ascii.eqb c "," then csv_read FieldStart EmptyString (row ++ [field])%list rows s'
          else if Ascii.eqb c newline
               then csv_read FieldStart EmptyString [] (rows ++ [(row ++ [field])%list])%list s'
          else csv_read Bare (String c EmptyString) row rows s'
      | Bare =>
          if Ascii.eqb c quote then None
          else if Ascii.eqb c "," then csv_read FieldStart EmptyString (row ++ [field])%list rows s'
          else if Ascii.eqb c newline
               then csv_read FieldStart EmptyString [] (rows ++ [(row ++ [field])%list])%list s'
          else csv_read Bare (field ++ String c EmptyString) row rows s'
      | Quoted =>
          if Ascii.eqb c quote then csv_read QuoteSeen field row rows s'
          else csv_read Quoted (field ++ String c EmptyString) row rows s'
      | QuoteSeen =>
          if Ascii.eqb c quote then csv_read Quoted (field ++ String quote EmptyString) row rows s'
          else if Ascii.eqb c "," then csv_read FieldStart EmptyString (row ++ [field])%list rows s'
          else if Ascii.eqb c newline
               then csv_read FieldStart EmptyString [] (rows ++ [(row ++ [field])%list])%list s'
          else None
      end
  end.

(** The text of a column of a record, as the export writes it. *)
Definition column_text (f : option value) : string := String_ (f ||| str "").

(** The text of one record in the export, and the fields it holds. *)
Definition csv_line (i : obj) : string := String.concat "," (List.map csv_field (csv_columns i)).
Definition csv_texts (i : obj) : list string := List.map column_text (csv_columns i).

(** The three steps of [filteredItems]. *)
Definition by_status (f : option obj) (items : list obj) : list obj :=
  match f with
  | Some g =>
      if truthy (prop g "status") then
        List.filter
          (fun i => String.eqb (toLowerCase (String_ (prop i "status" ||| str "")))
                      (toLowerCase (String_ (prop g "status")))) items
      else items
  | None => items
  end.

Definition by_search (s : string) (items : list obj) : list obj :=
  if truthy (str s) then List.filter (matches_search (toLowerCase s)) items else items.

Definition by_department (d : string) (items : list obj) : list obj :=
  if negb (String.eqb d "All") then
    List.filter
      (fun i => String.eqb (toLowerCase (String_ (prop i "department" ||| str "")))
                  (toLowerCase d)) items
  else items.

(** The status of a record, in lower case, as the list compares it. *)
Definition status_lower (i : obj) : string :=
  toLowerCase (String_ (prop i "status" ||| str "")).

(** The date part of the ISO text of a time value. *)
Definition date_text (t : Z) : string :=
  year_text (YearFromTime t) ++ "-" ++ pad 2 (MonthFromTime t + 1) ++ "-" ++
  pad 2 (DateFromTime t).

(** Midnight UTC of the day of a time value. *)
Definition start_of_day (t : Z) : Z := Day t * msPerDay.

Fixpoint no_T (s : string) : bool :=
  match s with
  | EmptyString => true
  | String c s' => negb (Ascii.eqb c "T") && no_T s'
  end.

(** The form data for dates shown as [issueDate] and [dueDate]. *)
Definition form_of (e : obj) (issueDate dueDate : string) : obj :=
  with_key "name" (prop e "name")
    (with_key "remarks" (prop e "remarks")
    (with_key "location" (prop e "location")
    (with_key "assigneeName" (prop e "assigneeName")
    (with_key "empId" (prop e "empId")
    (with_key "dueDate" (Some (VStr dueDate))
    (with_key "issueDate" (Some (VStr issueDate))
    (with_key "status" (prop e "status") ∅))))))).

(** What is stored for a date of the form that was not edited: the start of
    its UTC day in ISO form, or nothing when the stored value was no date. *)
Definition saved_date (P : platform) (stored : option value) : string :=
  if truthy stored then
    match new_Date P stored with
    | Some t => iso_text (start_of_day t)
    | None => EmptyString
    end
  else EmptyString.

(* ===================================================================== *)
(** ** Sample data *)
(* ===================================================================== *)

(** A host in UTC whose fallback parser recognises nothing, whose clock
    stands at 2024-01-01T00:00:00Z and whose random generator always prints
    the same text. *)
Definition utc_host : platform :=
  {| host_parse := fun _ => None;
     LocalTZA := fun _ _ => 0;
     Math_random_text := fun _ => "0.4fzyo82mvyr";
     clock := fun _ => 1704067200000;
     clock_in_range := fun _ => ltac:(cbv; discriminate) |}.

(** A host whose zone moves from UTC to one hour ahead of it at
    2024-03-31T01:00:00Z, with the clock standing at 2024-03-09T16:00:00Z. *)
Definition summer_time_host : platform :=
  {| host_parse := fun _ => None;
     LocalTZA := fun t _ => if (t <? 1711846800000)%Z then 0 else 3600000;
     Math_random_text := fun _ => "0.4fzyo82mvyr";
     clock := fun _ => 1710000000000;
     clock_in_range := fun _ => ltac:(cbv; discriminate) |}.

(** Nothing stored yet. *)
Definition fresh : world :=
  {| localStorage := None; random_calls := 0; clock_reads := 0 |}.

Definition stored_as (items : list obj) : world :=
  {| localStorage := Some (RawJson items); random_calls := 0; clock_reads := 0 |}.

(** [{id: 42, due_date: "2024-01-01", equipment_name: "Drill", name: "Alice"}] *)
Definition drill : obj :=
  <["id" := VNum 42]> (<["due_date" := VStr "2024-01-01"]>
  (<["equipment_name" := VStr "Drill"]> (<["name" := VStr "Alice"]> ∅))).

(** [{id: 1}] *)
Definition id_one : obj := <["id" := VNum 1]> ∅.

(** [{id: "a1", name: "Pump", createdAt: "2020-05-05T00:00:00.000Z"}] *)
Definition pump : obj :=
  <["id" := VStr "a1"]> (<["name" := VStr "Pump"]>
  (<["createdAt" := VStr "2020-05-05T00:00:00.000Z"]> ∅)).

(** [{dueDate: text}] *)
Definition due (text : string) : obj := <["dueDate" := VStr text]> ∅.

(** Records due 30 days after, 31 days after and 24 years before
    2024-01-01T00:00:00Z, one with an empty due date and one with none. *)
Definition due_dates : list obj :=
  [due "2024-01-31T00:00:00.000Z"; due "2024-02-01"; due "1999-12-31T23:59:59.999Z";
   due ""; pump].

(** [{id: 1e21}]: the number prints as "1e+21" and is too large for a time
    value. *)
Definition huge_id : obj := <["id" := VNumber "1e+21" None]> ∅.

(** [{"toString": 0}]: an object whose own [toString] is not callable. *)
Definition no_primitive : value := VObj (<["toString" := VNum 0]> ∅).

(** A record the dashboard counts and the list does not show. *)
Definition padded_breakdown : obj := <["status" := VStr " Breakdown "]> ∅.

(** [{id: "a1", name: "Pump", createdAt: ..., dueDate: "2024-01-31T15:30:00.000Z"}] *)
Definition pump_due : obj := <["dueDate" := VStr "2024-01-31T15:30:00.000Z"]> pump.

(* ===================================================================== *)
(** ** Properties *)
(* ===================================================================== *)

(* --------------------------------------------------------------------- *)
(** *** The calendar, and printing and parsing dates *)

Lemma holds_from_spec (p : Z -> bool) (n : nat) (z : Z) :
  holds_from p n z = true -> forall k, z <= k < z + Z.of_nat n -> p k = true.
Proof.
  revert z. induction n as [| n IH]; intros z H k Hk; [lia |].
  simpl in H. apply andb_true_iff in H as [Hz Hrest].
  destruct (Z.eq_dec k z) as [-> | Hne]; [assumption |].
  apply (IH (z + 1) Hrest). lia.
Qed.

Lemma era_days_checked : holds_from era_day_ok (Z.to_nat 146097) 0 = true.
Proof. vm_cast_no_check (eq_refl true). Qed.

Lemma era_day_facts (doe : Z) : 0 <= doe < 146097 -> era_day_ok doe = true.
Proof.
  intros H. apply (holds_from_spec _ _ _ era_days_checked). lia.
Qed.


(** Goals with divisions by constants. *)
Ltac zdiv := Z.div_mod_to_equations; lia.

Lemma isLeapYear_era (y e : Z) : isLeapYear (y + e * 400) = isLeapYear y.
Proof.
  unfold isLeapYear.
  replace ((y + e * 400) mod 4) with (y mod 4) by zdiv.
  replace ((y + e * 400) mod 100) with (y mod 100) by zdiv.
  replace ((y + e * 400) mod 400) with (y mod 400) by zdiv.
  reflexivity.
Qed.

Lemma DaysInMonth_era (y e m : Z) : DaysInMonth (y + e * 400) m = DaysInMonth y m.
Proof. unfold DaysInMonth. now rewrite isLeapYear_era. Qed.

Lemma days_from_civil_era (y e m d : Z) :
  days_from_civil (y + e * 400) m d = days_from_civil y m d + e * 146097.
Proof.
  unfold days_from_civil.
  destruct (m <=? 2)%Z.
  - replace ((y + e * 400 - 1) / 400) with ((y - 1) / 400 + e) by zdiv.
    replace (y + e * 400 - 1 - ((y - 1) / 400 + e) * 400)
      with (y - 1 - (y - 1) / 400 * 400) by lia.
    lia.
  - replace ((y + e * 400) / 400) with (y / 400 + e) by zdiv.
    replace (y + e * 400 - (y / 400 + e) * 400) with (y - y / 400 * 400) by lia.
    lia.
Qed.

Lemma days_from_civil_day (y m d : Z) :
  days_from_civil y m d = days_from_civil y m 1 + d - 1.
Proof. unfold days_from_civil. lia. Qed.

(** The date of a day is a date of the calendar, and it is the date of that
    day only. *)
Lemma civil_from_days_valid (z : Z) :
  let '(y, m, d) := civil_from_days z in
  1 <= m <= 12 /\ 1 <= d <= DaysInMonth y m /\ days_from_civil y m d = z /\
  (z + 719468) / 146097 * 400 <= y <= (z + 719468) / 146097 * 400 + 400.
Proof.
  unfold civil_from_days.
  set (era := (z + 719468) / 146097). set (doe := z + 719468 - era * 146097).
  assert (0 <= doe < 146097) as Hdoe by (subst doe era; zdiv).
  pose proof (era_day_facts doe Hdoe) as Hok. unfold era_day_ok in Hok.
  destruct (date_in_era doe) as [[y m] d].
  rewrite !andb_true_iff in Hok.
  destruct Hok as ((((((Hy0 & Hy1) & Hm0) & Hm1) & Hd0) & Hd1) & Hback).
  rewrite DaysInMonth_era, days_from_civil_era.
  apply Z.eqb_eq in Hback. lia.
Qed.

Lemma digit_char_facts (d : Z) :
  0 <= d < 10 ->
  is_digit (digit_char d) = true /\ digit_val (digit_char d) = d /\
  Ascii.eqb (digit_char d) "+" = false /\ Ascii.eqb (digit_char d) "-" = false.
Proof.
  intros H.
  assert (d = 0 \/ d = 1 \/ d = 2 \/ d = 3 \/ d = 4 \/ d = 5 \/ d = 6 \/ d = 7 \/
          d = 8 \/ d = 9) as Hd by lia.
  repeat destruct Hd as [-> | Hd]; try subst d; repeat split.
Qed.

Lemma append_cons (c : ascii) (s rest : string) :
  String c s ++ rest = String c (s ++ rest).
Proof. reflexivity. Qed.

Lemma append_nil (rest : string) : EmptyString ++ rest = rest.
Proof. reflexivity. Qed.

Lemma read_digits_pad (w : nat) (n acc : Z) (rest : string) :
  0 <= n ->
  read_digits w acc (pad w n ++ rest)
  = Some (acc * 10 ^ Z.of_nat w + n mod 10 ^ Z.of_nat w, rest).
Proof.
  intros Hn. revert acc. induction w as [| w IH]; intros acc.
  - simpl. rewrite append_nil, Z.mod_1_r. do 2 f_equal. lia.
  - cbn [pad read_digits]. rewrite append_cons.
    assert (0 < 10 ^ Z.of_nat w) as Hpow by (apply Z.pow_pos_nonneg; lia).
    destruct (digit_char_facts ((n / 10 ^ Z.of_nat w) mod 10)) as (-> & -> & _).
    { apply Z.mod_pos_bound. lia. }
    rewrite IH. do 2 f_equal.
    rewrite Nat2Z.inj_succ, Z.pow_succ_r by lia.
    replace (10 * 10 ^ Z.of_nat w) with (10 ^ Z.of_nat w * 10) by ring.
    rewrite Z.rem_mul_r by lia. ring.
Qed.

Lemma read_field (w : nat) (n : Z) (rest : string) :
  0 <= n < 10 ^ Z.of_nat w ->
  read_digits w 0 (pad w n ++ rest) = Some (n, rest).
Proof.
  intros H. rewrite read_digits_pad by lia. rewrite Z.mod_small by lia.
  do 2 f_equal.
Qed.

Lemma read_year_text (y : Z) (rest : string) :
  -999999 <= y <= 999999 -> read_year (year_text y ++ rest) = Some (y, rest).
Proof.
  intros Hy. unfold year_text.
  destruct ((0 <=? y) && (y <=? 9999))%Z eqn:Hshort.
  - apply andb_true_iff in Hshort as [H0 H1].
    apply Z.leb_le in H0. apply Z.leb_le in H1.
    pose proof (read_field 4 y rest ltac:(simpl; lia)) as Hread.
    cbn [pad] in Hread |- *. rewrite append_cons in Hread |- *. unfold read_year.
    destruct (digit_char_facts ((y / 10 ^ Z.of_nat 3) mod 10)) as (_ & _ & -> & ->).
    { apply Z.mod_pos_bound. lia. }
    exact Hread.
  - destruct (y <? 0)%Z eqn:Hneg.
    + apply Z.ltb_lt in Hneg. rewrite append_cons. cbn [read_year Ascii.eqb Bool.eqb].
      rewrite (read_field 6 (- y) rest) by (simpl; lia). cbn [mbind option_bind].
      destruct (Z.eqb_spec (- y) 0) as [H | H]; [lia |].
      now rewrite Z.opp_involutive.
    + rewrite append_cons. cbn [read_year Ascii.eqb Bool.eqb].
      apply Z.ltb_ge in Hneg. apply read_field. simpl. lia.
Qed.

Lemma expect_same (c : ascii) (rest : string) : expect c (String c rest) = Some rest.
Proof. unfold expect. now rewrite Ascii.eqb_refl. Qed.

(** One step of parsing a printed text: a separator, or a padded field. *)
Ltac parse_step :=
  first [ rewrite append_cons, append_nil, expect_same
        | rewrite read_field by (simpl; lia) ];
  cbn [mbind option_bind].

Lemma time_fields (t : Z) :
  0 <= HourFromTime t <= 23 /\ 0 <= MinFromTime t <= 59 /\
  0 <= SecFromTime t <= 59 /\ 0 <= msFromTime t <= 999 /\
  MakeTime (HourFromTime t) (MinFromTime t) (SecFromTime t) (msFromTime t)
  = TimeWithinDay t.
Proof.
  unfold HourFromTime, MinFromTime, SecFromTime, msFromTime, MakeTime, TimeWithinDay,
    msPerDay, msPerHour, msPerMinute, msPerSecond.
  repeat split; Z.div_mod_to_equations; lia.
Qed.

Lemma read_utc_time_text (h mi sec ms : Z) :
  0 <= h <= 23 -> 0 <= mi <= 59 -> 0 <= sec <= 59 -> 0 <= ms <= 999 ->
  read_utc_time ("T" ++ pad 2 h ++ ":" ++ pad 2 mi ++ ":" ++ pad 2 sec ++ "." ++
                 pad 3 ms ++ "Z")
  = Some (MakeTime h mi sec ms).
Proof.
  intros Hh Hmi Hsec Hms. unfold read_utc_time.
  do 8 parse_step. rewrite expect_same. cbn [mbind option_bind].
  destruct (Z.leb_spec h 23); [| lia]. destruct (Z.leb_spec mi 59); [| lia].
  destruct (Z.leb_spec sec 59); [| lia]. reflexivity.
Qed.

Lemma MakeDay_of_date (y m d : Z) :
  1 <= m <= 12 -> MakeDay y (m - 1) d = days_from_civil y m d.
Proof.
  intros Hm. unfold MakeDay.
  replace ((m - 1) / 12) with 0 by (Z.div_mod_to_equations; lia).
  replace ((m - 1) mod 12) with (m - 1) by (Z.div_mod_to_equations; lia).
  rewrite (days_from_civil_day y m d).
  replace (y + 0) with y by lia. replace (m - 1 + 1) with m by lia. reflexivity.
Qed.

Lemma time_of_day_split (t : Z) : MakeDate (Day t) (TimeWithinDay t) = t.
Proof. unfold MakeDate, Day, TimeWithinDay, msPerDay. Z.div_mod_to_equations. lia. Qed.

(** Parsing the ISO text of a time value gives the time value back. *)
Lemma iso_format_iso_text (t : Z) :
  Z.abs t <= maxTime -> iso_format (iso_text t) = Some t.
Proof.
  intros Ht. unfold iso_text, YearFromTime, MonthFromTime, DateFromTime.
  pose proof (civil_from_days_valid (Day t)) as Hvalid.
  assert (-100000000 <= Day t <= 100000000) as Hday
    by (unfold Day, msPerDay, maxTime in *; Z.div_mod_to_equations; lia).
  destruct (civil_from_days (Day t)) as [[y m] d]. cbn [fst snd].
  destruct Hvalid as (Hm & Hd & Hback & Hy).
  assert (-999999 <= y <= 999999) as Hyear by (Z.div_mod_to_equations; lia).
  assert (DaysInMonth y m <= 31) as Hdim
    by (unfold DaysInMonth; repeat match goal with |- context [if ?b then _ else _] => destruct b end; lia).
  destruct (time_fields t) as (Hh & Hmi & Hsec & Hms & Htime).
  unfold iso_format. rewrite read_year_text by assumption. cbn [mbind option_bind].
  replace (m - 1 + 1) with m by lia.
  do 4 parse_step.
  destruct (Z.leb_spec 1 m); [| lia]. destruct (Z.leb_spec m 12); [| lia].
  destruct (Z.leb_spec 1 d); [| lia]. destruct (Z.leb_spec d (DaysInMonth y m)); [| lia].
  cbn [andb]. rewrite append_cons. rewrite <- (append_cons "T").
  rewrite read_utc_time_text by assumption. cbn [mbind option_bind].
  rewrite MakeDay_of_date, Hback, Htime by assumption.
  now rewrite time_of_day_split.
Qed.

Lemma TimeClip_Some (t t' : Z) : TimeClip t = Some t' -> t' = t /\ Z.abs t <= maxTime.
Proof.
  unfold TimeClip. destruct (Z.leb_spec (Z.abs t) maxTime) as [Hle | Hgt]; [| discriminate].
  intros Heq. injection Heq as <-. split; [reflexivity | assumption].
Qed.

Lemma TimeClip_in_range (t : Z) : Z.abs t <= maxTime -> TimeClip t = Some t.
Proof.
  unfold TimeClip. intros Ht.
  destruct (Z.leb_spec (Z.abs t) maxTime); [reflexivity | lia].
Qed.

Lemma Date_parse_in_range (P : platform) (s : string) (t : Z) :
  Date_parse P s = Some t -> Z.abs t <= maxTime.
Proof.
  unfold Date_parse. destruct s as [| c s]; [discriminate |].
  destruct (iso_format (String c s)) as [t0 |].
  - intros H. apply TimeClip_Some in H as [-> Hr]. exact Hr.
  - destruct (host_parse P (String c s)) as [t0 |]; [| discriminate]. simpl.
    intros H. apply TimeClip_Some in H as [-> Hr]. exact Hr.
Qed.

(** Every valid date is within the range of time values. *)
Lemma new_Date_in_range (P : platform) (v : option value) (t : Z) :
  new_Date P v = Some t -> Z.abs t <= maxTime.
Proof.
  unfold new_Date. destruct v as [[| b | n | text [n |] | s | l | m] |]; try discriminate;
    try apply Date_parse_in_range; cbn [mbind option_bind];
    intros H; apply TimeClip_Some in H as [-> Hr]; exact Hr.
Qed.

Lemma iso_text_nonempty (t : Z) : exists c s, iso_text t = String c s.
Proof.
  unfold iso_text, year_text.
  destruct ((0 <=? YearFromTime t) && (YearFromTime t <=? 9999))%Z;
    [| destruct (YearFromTime t <? 0)%Z]; cbn [pad]; rewrite append_cons; eauto.
Qed.

(** [Date.parse(d.toISOString())] is the time value of [d]. *)
Lemma Date_parse_iso_text (P : platform) (t : Z) :
  Z.abs t <= maxTime -> Date_parse P (iso_text t) = Some t.
Proof.
  intros Ht. unfold Date_parse.
  destruct (iso_text_nonempty t) as (c & s & Htext).
  pose proof (iso_format_iso_text t Ht) as Hparse.
  rewrite Htext in Hparse |- *. rewrite Hparse.
  now apply TimeClip_in_range.
Qed.

Lemma converts_falsy (e : option value) : truthy e = false -> converts e = true.
Proof. destruct e as [[| [] | n | text i | s | l | m] |]; try reflexivity; discriminate. Qed.

Lemma converts_or (a b : option value) :
  converts (a ||| b) = if truthy a then converts a else converts b.
Proof. unfold js_or. now destruct (truthy a). Qed.

Lemma String_or_throw_returns (e : option value) :
  converts e = true -> String_or_throw e = Ok (String_ e).
Proof. unfold String_or_throw. now intros ->. Qed.

Lemma String_or_throw_throws (e : option value) :
  converts e = false -> String_or_throw e = Throw TypeError.
Proof. unfold String_or_throw. now intros ->. Qed.

(** [safeDate] throws on a value with no primitive form, and on no other. *)
Lemma safeDate_throws (P : platform) (val : option value) :
  converts val = false -> safeDate P val = Throw TypeError.
Proof.
  intros Hval. unfold safeDate, new_Date_or_throw. rewrite Hval.
  destruct (truthy val) eqn:Htruthy; [reflexivity |].
  rewrite (converts_falsy val Htruthy) in Hval. discriminate.
Qed.

Lemma safeDate_returns (P : platform) (val : option value) :
  converts val = true ->
  exists s : string,
    safeDate P val = Ok s /\
    (s = EmptyString \/
     exists t : Z, new_Date P val = Some t /\ s = iso_text t /\
                   new_Date P (Some (VStr s)) = Some t).
Proof.
  intros Hval. unfold safeDate, new_Date_or_throw. rewrite Hval.
  destruct (truthy val); simpl; [| eauto].
  destruct (new_Date P val) as [t |] eqn:Hdate; simpl; [| eauto].
  exists (iso_text t). split; [reflexivity |]. right. exists t.
  repeat split. apply Date_parse_iso_text. now apply (new_Date_in_range P val).
Qed.

(** C3: [safeDate] does not return for every input. When the value has a
    primitive form it returns the empty string or the ISO text of the
    instant of [new Date(val)], which parses back to that same instant. On a
    value without one, such as the object [{"toString": 0}] in an imported
    record, [new Date(val)], which stands before the [try], throws a
    TypeError, and [safeDate] lets it through to its caller. *)
Theorem safeDate_throws_or_round_trips (P : platform) (val : option value) :
  safeDate P (Some no_primitive) = Throw TypeError /\
  match safeDate P val with
  | Ok s =>
      converts val = true /\
      (s = EmptyString \/
       exists t : Z, new_Date P val = Some t /\ s = iso_text t /\
                     new_Date P (Some (VStr s)) = Some t)
  | Throw e => e = TypeError /\ converts val = false
  end.
Proof.
  split; [reflexivity |].
  destruct (converts val) eqn:Hval.
  - destruct (safeDate_returns P val Hval) as (s & -> & Hs). now split.
  - rewrite (safeDate_throws P val Hval). now split.
Qed.

Example safeDate_samples :
  safeDate utc_host (str "2024-01-01") = Ok "2024-01-01T00:00:00.000Z" /\
  safeDate utc_host (Some (VNum 1704067200000)) = Ok "2024-01-01T00:00:00.000Z" /\
  safeDate utc_host (str "next week") = Ok "" /\
  safeDate utc_host (Some (VNum 0)) = Ok "" /\
  safeDate utc_host None = Ok "" /\
  safeDate utc_host (Some (VNum (maxTime + 1))) = Ok "".
Proof. repeat split. Qed.

(* --------------------------------------------------------------------- *)
(** *** normalizeEnum *)

Lemma upper_char_not_lower (c : ascii) : is_lower_letter (upper_char c) = false.
Proof. destruct c as [[] [] [] [] [] [] [] []]; reflexivity. Qed.

Lemma lower_char_not_upper (c : ascii) : is_upper_letter (lower_char c) = false.
Proof. destruct c as [[] [] [] [] [] [] [] []]; reflexivity. Qed.

Lemma toLowerCase_no_upper (s : string) : no_upper (toLowerCase s) = true.
Proof.
  unfold toLowerCase. induction s as [| c s IH]; [reflexivity |]. simpl.
  now rewrite lower_char_not_upper, IH.
Qed.

Lemma trim_end_empty (s : string) : trim_end s = EmptyString <-> blank s = true.
Proof.
  induction s as [| c s IH]; simpl; [tauto |].
  destruct (trim_end s) eqn:Ht.
  - destruct (is_white c); simpl; [| split; discriminate].
    split; intros _; [now apply IH | reflexivity].
  - split; [discriminate |]. intros H. apply andb_true_iff in H as [_ H].
    apply IH in H. discriminate.
Qed.

Lemma trim_start_blank (s : string) : blank (trim_start s) = blank s.
Proof.
  induction s as [| c s IH]; [reflexivity |]. simpl.
  destruct (is_white c) eqn:Hc; simpl; [assumption | now rewrite Hc].
Qed.

Lemma trim_empty (s : string) : trim s = EmptyString <-> blank s = true.
Proof. unfold trim. now rewrite trim_end_empty, trim_start_blank. Qed.

Lemma falsy_or_empty (v : option value) :
  truthy v = false -> String_ (v ||| str "") = EmptyString.
Proof. intros H. unfold js_or. now rewrite H. Qed.

Lemma converts_or_empty (v : option value) : converts (v ||| str "") = converts v.
Proof.
  rewrite converts_or. destruct (truthy v) eqn:Hv; [reflexivity |].
  now rewrite (converts_falsy v Hv).
Qed.

Lemma normalizeEnum_returns (v : option value) (f : string) :
  converts v = true -> normalizeEnum v f = Ok (normalized v f).
Proof.
  intros Hv. unfold normalizeEnum, normalized.
  rewrite String_or_throw_returns by now rewrite converts_or_empty.
  now destruct (String.eqb _ EmptyString).
Qed.

Lemma normalizeEnum_returns_or (v : option value) (f : string) :
  converts (v ||| str "") = true -> normalizeEnum v f = Ok (normalized v f).
Proof. rewrite converts_or_empty. apply normalizeEnum_returns. Qed.

Lemma normalizeEnum_throws_or (v : option value) (f : string) :
  converts (v ||| str "") = false -> normalizeEnum v f = Throw TypeError.
Proof.
  intros Hv. unfold normalizeEnum. now rewrite String_or_throw_throws.
Qed.

Lemma normalizeEnum_throws (v : option value) (f : string) :
  converts v = false -> normalizeEnum v f = Throw TypeError.
Proof.
  intros Hv. unfold normalizeEnum.
  now rewrite String_or_throw_throws by now rewrite converts_or_empty.
Qed.

Lemma normalized_fallback (v : option value) (f : string) :
  truthy v = false \/ blank (String_ v) = true -> normalized v f = f.
Proof.
  unfold normalized. intros [Hfalsy | Hblank].
  - now rewrite (falsy_or_empty v Hfalsy).
  - destruct (truthy v) eqn:Htruthy; [| now rewrite (falsy_or_empty v Htruthy)].
    unfold js_or. rewrite Htruthy. apply trim_empty in Hblank. now rewrite Hblank.
Qed.

Lemma normalized_title_case (v : option value) (f : string) :
  truthy v = true -> blank (String_ v) = false ->
  normalized v f
    = toUpperCase (charAt0 (trim (String_ v))) ++ toLowerCase (slice 1 (trim (String_ v))) /\
  title_cased (normalized v f) = true.
Proof.
  intros Htruthy Hblank. unfold normalized, js_or. rewrite Htruthy.
  destruct (trim (String_ v)) as [| c rest] eqn:Htrim.
  - apply trim_empty in Htrim. congruence.
  - split; [reflexivity |].
    change (negb (is_lower_letter (upper_char c)) && no_upper (toLowerCase rest) = true).
    now rewrite upper_char_not_lower, toLowerCase_no_upper.
Qed.

(** C4 (as amended): [normalizeEnum(v, f)] throws a TypeError when [v] has no
    primitive form, and returns otherwise. It returns [f] when [v] is falsy
    (absent, null, false, 0 or the empty string) or when its string form is
    white space only. Otherwise, for a value whose text is in ASCII (an
    integer being a safe one), it returns the trimmed string form of [v] with
    its first character upper-cased and the rest lower-cased: a non-empty
    string whose first character is not a lower-case letter and whose other
    characters are not upper-case letters. *)
Theorem normalizeEnum_fallback_or_title_case (v : option value) (f : string) :
  (converts v = false -> normalizeEnum v f = Throw TypeError) /\
  (converts v = true -> exists s, normalizeEnum v f = Ok s) /\
  (truthy v = false -> normalizeEnum v f = Ok f) /\
  (converts v = true -> blank (String_ v) = true -> normalizeEnum v f = Ok f) /\
  (plain_text v = true -> truthy v = true -> blank (String_ v) = false ->
   normalizeEnum v f
     = Ok (toUpperCase (charAt0 (trim (String_ v))) ++ toLowerCase (slice 1 (trim (String_ v)))) /\
   title_cased (toUpperCase (charAt0 (trim (String_ v))) ++ toLowerCase (slice 1 (trim (String_ v))))
     = true).
Proof.
  split; [apply normalizeEnum_throws |].
  split; [intros Hv; rewrite normalizeEnum_returns by assumption; eauto |].
  split; [| split].
  - intros Hfalsy. rewrite normalizeEnum_returns by now apply converts_falsy.
    f_equal. apply normalized_fallback. now left.
  - intros Hv Hblank. rewrite normalizeEnum_returns by assumption.
    f_equal. apply normalized_fallback. now right.
  - intros Hplain Htruthy Hblank.
    assert (converts v = true) as Hv.
    { unfold plain_text in Hplain. now destruct (converts v). }
    rewrite normalizeEnum_returns by assumption.
    destruct (normalized_title_case v f Htruthy Hblank) as [Hvalue Hcase].
    rewrite <- Hvalue. now split.
Qed.

Lemma normalizeEnum_fallback_or_title_case_witness :
  normalizeEnum (Some no_primitive) "Other" = Throw TypeError /\
  normalizeEnum (Some (VNum 0)) "Other" = Ok "Other" /\
  normalizeEnum (str "  ") "Other" = Ok "Other" /\
  normalizeEnum (str " bREAKDOWN ") "Available" = Ok "Breakdown" /\
  title_cased "Breakdown" = true.
Proof.
  destruct (normalizeEnum_fallback_or_title_case (Some no_primitive) "Other")
    as (Hthrows & _).
  destruct (normalizeEnum_fallback_or_title_case (Some (VNum 0)) "Other")
    as (_ & _ & Hfalsy & _).
  destruct (normalizeEnum_fallback_or_title_case (str "  ") "Other")
    as (_ & _ & _ & Hblank & _).
  destruct (normalizeEnum_fallback_or_title_case (str " bREAKDOWN ") "Available")
    as (_ & _ & _ & _ & Htitle).
  split; [exact (Hthrows eq_refl) |]. split; [exact (Hfalsy eq_refl) |].
  split; [exact (Hblank eq_refl eq_refl) |].
  exact (Htitle eq_refl eq_refl eq_refl).
Defined.

(** C4, the claim as stated fails: the number 0 is neither absent nor
    empty, its string form is "0", and [normalizeEnum(0, "other")] is the
    fallback "other", whose first character is a lower-case letter; a blank
    string gets the fallback as well. *)
Lemma zero_gets_the_fallback :
  String_ (Some (VNum 0)) = "0" /\
  normalizeEnum (Some (VNum 0)) "other" = Ok "other" /\
  title_cased "other" = false /\
  normalizeEnum (str " ") "other" = Ok "other".
Proof. repeat split. Qed.

(* --------------------------------------------------------------------- *)
(** *** The record mapper *)

Lemma written_from (key : string) (properties : list (string * value))
    (found : option value) :
  fold_left (fun found kv => if String.eqb kv.1 key then Some kv.2 else found)
    properties found
  = match written key properties with
    | Some v => Some v
    | None => found
    end.
Proof.
  unfold written. revert found.
  induction properties as [| [k v] properties IH]; intros found; [reflexivity |].
  cbn [fold_left fst snd]. rewrite IH. rewrite (IH (if String.eqb k key then _ else _)).
  destruct (fold_left _ properties None); [reflexivity |].
  destruct (String.eqb k key); reflexivity.
Qed.

(** Reading a key of an object literal: the value written last under that
    key, or else the value of the base object. *)
Lemma lookup_object_literal (base : obj) (properties : list (string * value)) (key : string) :
  object_literal base properties !! key
  = match written key properties with
    | Some v => Some v
    | None => base !! key
    end.
Proof.
  unfold object_literal. revert base.
  induction properties as [| [k v] properties IH]; intros base; [reflexivity |].
  cbn [fold_left fst snd]. rewrite IH. unfold written at 2. cbn [fold_left fst snd].
  rewrite written_from. destruct (written key properties); [reflexivity |].
  destruct (String.eqb_spec k key) as [-> | Hne].
  - apply lookup_insert_eq.
  - now apply lookup_insert_ne.
Qed.

(** Reads a key written by an object literal. *)
Ltac read_key := unfold prop; rewrite lookup_object_literal; reflexivity.

(** For a record whose converted values all have a primitive form,
    [mapItem] returns the record [mapped], and touches the store not at
    all. *)
Lemma mapItem_returns (P : platform) (item : obj) (w : world) :
  mappable item = true ->
  exists (dueDate issueDate : string) (w' : world),
    safeDate P (prop item "dueDate" ||| prop item "due_date") = Ok dueDate /\
    safeDate P (prop item "issueDate" ||| prop item "issue_date") = Ok issueDate /\
    mapItem P item w
    = (Ok (mapped item dueDate issueDate
             (if truthy (prop item "id") then String_ (prop item "id")
              else substr 2 9 (Math_random_text P (random_calls w)))
             (if truthy (prop item "createdAt") then default VNull (prop item "createdAt")
              else VStr (iso_text (clock P (clock_reads w))))),
       w') /\
    localStorage w' = localStorage w /\
    random_calls w' = (if truthy (prop item "id") then random_calls w
                       else S (random_calls w)).
Proof.
  intros Hm. unfold mappable, coerced in Hm. cbn [forallb] in Hm.
  apply andb_true_iff in Hm as [Hserial Hm]. apply andb_true_iff in Hm as [Hdue Hm].
  apply andb_true_iff in Hm as [Hissue Hm]. apply andb_true_iff in Hm as [Hemp Hm].
  apply andb_true_iff in Hm as [Hid Hm]. apply andb_true_iff in Hm as [Hname Hm].
  apply andb_true_iff in Hm as [Hassignee Hm]. apply andb_true_iff in Hm as [Hstatus Hm].
  apply andb_true_iff in Hm as [Htype Hm]. apply andb_true_iff in Hm as [Hlocation Hm].
  apply andb_true_iff in Hm as [Hremarks Hm]. apply andb_true_iff in Hm as [Hservice Hm].
  apply andb_true_iff in Hm as [Hdepartment _].
  destruct (safeDate_returns P _ Hdue) as (due & Hsafe_due & _).
  destruct (safeDate_returns P _ Hissue) as (issue & Hsafe_issue & _).
  exists due, issue.
  unfold mapItem, bind, lift, mapped.
  rewrite (String_or_throw_returns _ Hserial), Hsafe_due, Hsafe_issue,
    (String_or_throw_returns _ Hemp), (normalizeEnum_returns_or _ _ Hstatus),
    (normalizeEnum_returns_or _ _ Htype), (String_or_throw_returns _ Hlocation),
    (String_or_throw_returns _ Hremarks), (String_or_throw_returns _ Hservice),
    (String_or_throw_returns _ Hdepartment).
  unfold mapped_name, mapped_assignee in *.
  unfold or_else, now_ISOString, Date_now, toISOString, generateId, ret, bind, lift.
  destruct (truthy (prop item "equipment_name"));
    cbn [andb] in Hname, Hassignee |- *;
    rewrite (String_or_throw_returns _ Hname), (String_or_throw_returns _ Hassignee);
    (destruct (truthy (prop item "id"));
     [rewrite (String_or_throw_returns _ Hid) |]);
    (destruct (prop item "createdAt") as [c |] eqn:Hc;
     [destruct (truthy (Some c)) eqn:Htc |]);
    cbn [andb fst snd localStorage random_calls clock_reads default];
    eexists; (split; [reflexivity |]); (split; [reflexivity |]);
    (split; [reflexivity |]); (split; reflexivity).
Qed.

(** For any other record, [mapItem] throws a TypeError, and touches the
    store not at all. *)
Lemma mapItem_throws (P : platform) (item : obj) (w : world) :
  mappable item = false ->
  exists w' : world,
    mapItem P item w = (Throw TypeError, w') /\ localStorage w' = localStorage w.
Proof.
  intros Hm. unfold mappable, coerced in Hm. cbn [forallb] in Hm.
  unfold mapped_name, mapped_assignee in Hm.
  unfold mapItem, bind, lift.
  destruct (converts (prop item "serialNumber" ||| prop item "serial_number" |||
                      prop item "SerialNumber" ||| str "N/A")) eqn:Hserial;
    [rewrite (String_or_throw_returns _ Hserial)
    | rewrite (String_or_throw_throws _ Hserial); now eexists].
  destruct (converts (prop item "dueDate" ||| prop item "due_date")) eqn:Hdue;
    [destruct (safeDate_returns P _ Hdue) as (due & -> & _)
    | rewrite (safeDate_throws P _ Hdue); now eexists].
  destruct (converts (prop item "issueDate" ||| prop item "issue_date")) eqn:Hissue;
    [destruct (safeDate_returns P _ Hissue) as (issue & -> & _)
    | rewrite (safeDate_throws P _ Hissue); now eexists].
  destruct (converts (prop item "empId" ||| prop item "emp_id" |||
                      prop item "employee_id" ||| str "")) eqn:Hemp;
    [rewrite (String_or_throw_returns _ Hemp)
    | rewrite (String_or_throw_throws _ Hemp); now eexists].
  cbn [andb] in Hm.
  unfold or_else, now_ISOString, Date_now, toISOString, generateId, ret, bind, lift.
  destruct (converts (prop item "id")) eqn:Hid;
    [| rewrite (String_or_throw_throws _ Hid);
       destruct (truthy (prop item "id")) eqn:Htid;
       [destruct (truthy (prop item "equipment_name")); now eexists
       | rewrite (converts_falsy _ Htid) in Hid; discriminate]].
  cbn [andb] in Hm.
  destruct (truthy (prop item "equipment_name")); cbn [andb] in Hm |- *;
    (destruct (truthy (prop item "id")); [rewrite (String_or_throw_returns _ Hid) |]);
    (destruct (prop item "createdAt") as [c |] eqn:Hc;
     [destruct (truthy (Some c)) eqn:Htc |]);
    cbn [fst snd localStorage random_calls clock_reads];
    repeat match goal with
           | |- context [String_or_throw ?e] =>
               let H := fresh "Hconv" in
               destruct (converts e) eqn:H;
               [rewrite (String_or_throw_returns e H)
               | rewrite (String_or_throw_throws e H); now eexists]
           | |- context [normalizeEnum ?v ?f] =>
               let H := fresh "Hconv" in
               destruct (converts (v ||| str "")) eqn:H;
               [rewrite (normalizeEnum_returns_or v f H)
               | rewrite (normalizeEnum_throws_or v f H); now eexists]
           end;
    cbn [andb] in Hm; discriminate.
Qed.

(** What the mapped record holds under a key that the mapper writes. *)
Lemma mapped_lookup (item : obj) (dueDate issueDate id : string) (createdAt : value) :
  let o := mapped item dueDate issueDate id createdAt in
  o !! "id" = Some (VStr id) /\
  o !! "createdAt" = Some createdAt /\
  o !! "name" = Some (VStr (String_ (mapped_name item))) /\
  o !! "assigneeName" = Some (VStr (String_ (mapped_assignee item))) /\
  o !! "dueDate" = Some (VStr dueDate).
Proof. unfold mapped. repeat split; read_key. Qed.

Lemma truthy_createdAt (item : obj) (now : string) :
  Some (if truthy (prop item "createdAt") then default VNull (prop item "createdAt")
        else VStr now)
  = (if truthy (prop item "createdAt") then prop item "createdAt" else Some (VStr now)).
Proof.
  destruct (truthy (prop item "createdAt")) eqn:Hc; [| reflexivity].
  destruct (prop item "createdAt"); [reflexivity | discriminate].
Qed.

(** [mapItem] on a record it accepts: it returns a record, touches the store
    not at all, and gives these values to [id], [name], [assigneeName],
    [dueDate] and [createdAt]. *)
Lemma mapItem_fields (P : platform) (item : obj) (w : world) :
  mappable item = true ->
  exists (o : obj) (w' : world),
    mapItem P item w = (Ok o, w') /\
    localStorage w' = localStorage w /\
    o !! "id" = Some (VStr (if truthy (prop item "id") then String_ (prop item "id")
                            else substr 2 9 (Math_random_text P (random_calls w)))) /\
    o !! "name" = Some (VStr (String_ (mapped_name item))) /\
    o !! "assigneeName" = Some (VStr (String_ (mapped_assignee item))) /\
    (exists due, safeDate P (prop item "dueDate" ||| prop item "due_date") = Ok due /\
                 o !! "dueDate" = Some (VStr due)) /\
    o !! "createdAt" = (if truthy (prop item "createdAt") then prop item "createdAt"
                        else Some (VStr (iso_text (clock P (clock_reads w))))) /\
    random_calls w' = (if truthy (prop item "id") then random_calls w
                       else S (random_calls w)).
Proof.
  intros Hm.
  destruct (mapItem_returns P item w Hm)
    as (due & issue & w' & Hdue & _ & Hrun & Hstore & Hcalls).
  eexists; exists w'. split; [exact Hrun |]. split; [exact Hstore |].
  match goal with
  | |- context [mapped ?i ?d ?s ?n ?c] =>
      destruct (mapped_lookup i d s n c) as (Hid & Hcreated & Hname & Hassignee & Hduedate)
  end.
  split; [exact Hid |]. split; [exact Hname |]. split; [exact Hassignee |].
  split; [exists due; split; [exact Hdue | exact Hduedate] |].
  split; [| exact Hcalls]. rewrite Hcreated. apply truthy_createdAt.
Qed.

(** C5 (as amended): the mapper throws a TypeError on a record one of whose
    converted values has no primitive form, and returns on any other. The
    [id] of what it returns is always a string: an identifier drawn from the
    random generator by a fresh call when the source [id] is falsy (no [id]
    key, or 0, the empty string, false or null), and otherwise the string
    form of the source [id]: the decimal text of a safe integer, the text
    JavaScript prints for any other number. *)
Theorem mapped_id_is_a_string (P : platform) (item : obj) (w : world) :
  (mappable item = false -> exists w' : world, mapItem P item w = (Throw TypeError, w')) /\
  (mappable item = true ->
   exists (o : obj) (w' : world),
     mapItem P item w = (Ok o, w') /\
     (exists s, o !! "id" = Some (VStr s)) /\
     (truthy (prop item "id") = false ->
      o !! "id" = Some (VStr (substr 2 9 (Math_random_text P (random_calls w)))) /\
      random_calls w' = S (random_calls w)) /\
     (truthy (prop item "id") = true ->
      random_calls w' = random_calls w /\
      (safe_text (prop item "id") = true ->
       o !! "id" = Some (VStr (String_ (prop item "id")))))).
Proof.
  split.
  - intros Hm. destruct (mapItem_throws P item w Hm) as (w' & Hrun & _). now exists w'.
  - intros Hm.
    destruct (mapItem_fields P item w Hm) as (o & w' & Hrun & _ & Hid & _ & _ & _ & _ & Hcalls).
    exists o, w'. split; [exact Hrun |]. split; [eauto |].
    split; intros Htruthy; rewrite Htruthy in Hid, Hcalls; [now split |].
    split; [exact Hcalls | intros _; exact Hid].
Qed.

Lemma mapped_id_is_a_string_witness :
  (exists w' : world,
      mapItem utc_host (<["id" := no_primitive]> ∅) fresh = (Throw TypeError, w')) /\
  (exists (o : obj) (w' : world),
      mapItem utc_host drill fresh = (Ok o, w') /\ o !! "id" = Some (VStr "42")) /\
  (exists (o : obj) (w' : world),
      mapItem utc_host pump_due fresh = (Ok o, w') /\ o !! "id" = Some (VStr "a1")) /\
  (exists (o : obj) (w' : world),
      mapItem utc_host huge_id fresh = (Ok o, w') /\
      o !! "id" = Some (VStr "1e+21")).
Proof.
  split; [| split; [| split]].
  - exact (proj1 (mapped_id_is_a_string utc_host (<["id" := no_primitive]> ∅) fresh) eq_refl).
  - destruct (proj2 (mapped_id_is_a_string utc_host drill fresh) eq_refl)
      as (o & w' & Hrun & _ & _ & Htruthy).
    exists o, w'. split; [exact Hrun |]. exact (proj2 (Htruthy eq_refl) eq_refl).
  - destruct (proj2 (mapped_id_is_a_string utc_host pump_due fresh) eq_refl)
      as (o & w' & Hrun & _ & _ & Htruthy).
    exists o, w'. split; [exact Hrun |]. exact (proj2 (Htruthy eq_refl) eq_refl).
  - destruct (proj2 (mapped_id_is_a_string utc_host huge_id fresh) eq_refl)
      as (o & w' & Hrun & _ & _ & Htruthy).
    exists o, w'. split; [exact Hrun |]. exact (proj2 (Htruthy eq_refl) eq_refl).
Defined.

(** C5, the claim as stated fails: the record [{id: 0}] has an [id], whose
    string form is "0", yet its mapped [id] is a generated identifier. *)
Lemma present_id_zero_is_replaced :
  prop (<["id" := VNum 0]> ∅ : obj) "id" = Some (VNum 0) /\
  String_ (Some (VNum 0)) = "0" /\
  (match fst (mapItem utc_host (<["id" := VNum 0]> ∅) fresh) with
   | Ok o => o !! "id"
   | Throw _ => None
   end) = Some (VStr "4fzyo82mv").
Proof. repeat split; vm_compute; reflexivity. Qed.

(** C1 (as amended): the mapper throws a TypeError on a record one of whose
    converted values has no primitive form. On any other record whose
    [equipment_name] is truthy, the mapped [name] is the string form of the
    [equipment_name]; if moreover the source [name] is truthy and neither
    [assigneeName] nor [assignee_name] holds a truthy value, the mapped
    [assigneeName] is the string form of the source [name] (an integer being
    a safe one). The sample record is
    mapped to id "42", the ISO text of the instant 2024-01-01T00:00:00Z as
    [dueDate], name "Drill" and assignee "Alice", on every host. *)
Theorem equipment_name_disambiguates (P : platform) (w : world) :
  (forall item : obj,
      mappable item = false -> exists w' : world, mapItem P item w = (Throw TypeError, w')) /\
  (forall item : obj,
      mappable item = true ->
      truthy (prop item "equipment_name") = true ->
      exists (o : obj) (w' : world),
        mapItem P item w = (Ok o, w') /\
        (safe_text (prop item "equipment_name") = true ->
         o !! "name" = Some (VStr (String_ (prop item "equipment_name")))) /\
        (truthy (prop item "name") = true ->
         truthy (prop item "assigneeName") = false ->
         truthy (prop item "assignee_name") = false ->
         safe_text (prop item "name") = true ->
         o !! "assigneeName" = Some (VStr (String_ (prop item "name"))))) /\
  (exists (o : obj) (w' : world),
      mapItem P drill w = (Ok o, w') /\
      o !! "id" = Some (VStr "42") /\
      o !! "dueDate" = Some (VStr "2024-01-01T00:00:00.000Z") /\
      Date_parse P "2024-01-01T00:00:00.000Z" = Some (MakeDate (MakeDay 2024 0 1) 0) /\
      o !! "name" = Some (VStr "Drill") /\
      o !! "assigneeName" = Some (VStr "Alice")).
Proof.
  split; [| split].
  - intros item Hm. destruct (mapItem_throws P item w Hm) as (w' & Hrun & _). now exists w'.
  - intros item Hm Hequip.
    destruct (mapItem_fields P item w Hm) as (o & w' & Hrun & _ & _ & Hname & Hassignee & _).
    exists o, w'. split; [assumption |]. split.
    + intros _. rewrite Hname. unfold mapped_name. now rewrite Hequip.
    + intros Hn Ha Ha' _. rewrite Hassignee. unfold mapped_assignee, js_or.
      rewrite Hequip, Hn, Ha, Ha'. reflexivity.
  - destruct (mapItem_fields P drill w eq_refl)
      as (o & w' & Hrun & _ & Hid & Hname & Hassignee & (due & Hsafe & Hdue) & _).
    exists o, w'. split; [assumption |].
    vm_compute in Hsafe. injection Hsafe as <-.
    repeat split; try assumption.
Qed.

Lemma equipment_name_disambiguates_witness :
  exists (o : obj) (w' : world),
    mapItem utc_host drill fresh = (Ok o, w') /\
    o !! "name" = Some (VStr "Drill") /\
    o !! "assigneeName" = Some (VStr "Alice").
Proof.
  destruct (proj1 (proj2 (equipment_name_disambiguates utc_host fresh)) drill eq_refl eq_refl)
    as (o & w' & Hrun & Hname & Hassignee).
  exists o, w'. split; [exact Hrun |]. split; [exact (Hname eq_refl) |].
  exact (Hassignee eq_refl eq_refl eq_refl eq_refl).
Defined.

(** C1, the claim as stated fails: a record whose [equipment_name] key holds
    the empty string, as an export of a blank cell does, keeps its [name] as
    the mapped name and gets no assignee. *)
Lemma empty_equipment_name_is_ignored :
  let item : obj := <["equipment_name" := VStr ""]> (<["name" := VStr "Alice"]> ∅) in
  prop item "equipment_name" = Some (VStr "") /\
  prop item "assigneeName" = None /\ prop item "assignee_name" = None /\
  (match fst (mapItem utc_host item fresh) with
   | Ok o => (o !! "name", o !! "assigneeName")
   | Throw _ => (None, None)
   end) = (Some (VStr "Alice"), Some (VStr "")).
Proof. repeat split; vm_compute; reflexivity. Qed.

(* --------------------------------------------------------------------- *)
(** *** The store *)

Lemma findIndex_None {A} (p : A -> bool) (items : list A) :
  findIndex p items = None <-> (forall x, x ∈ items -> p x = false).
Proof.
  induction items as [|x items IH]; simpl.
  - split; [intros _ y Hy; inversion Hy | reflexivity].
  - destruct (p x) eqn:Hpx.
    + split; [discriminate |].
      intros H. rewrite (H x) in Hpx by constructor. discriminate.
    + destruct (findIndex p items) eqn:Hf; simpl.
      * split; [discriminate |]. intros H.
        assert (Some n = None) as Hn by (apply IH; intros y Hy; apply H; now constructor).
        discriminate.
      * split; [| reflexivity]. intros _ y Hy.
        apply elem_of_cons in Hy as [-> | Hy]; [assumption | now apply IH].
Qed.

Lemma findIndex_Some {A} (p : A -> bool) (items : list A) (i : nat) :
  findIndex p items = Some i ->
  exists x, items !! i = Some x /\ p x = true /\
            forall j y, (j < i)%nat -> items !! j = Some y -> p y = false.
Proof.
  revert i. induction items as [|x items IH]; simpl; intros i H; [discriminate |].
  destruct (p x) eqn:Hpx.
  - injection H as <-. exists x. repeat split; [assumption | lia].
  - destruct (findIndex p items) as [k|] eqn:Hf; simpl in H; [| discriminate].
    injection H as <-. destruct (IH k eq_refl) as (y & Hy & Hpy & Hfirst).
    exists y. repeat split; [assumption | assumption |].
    intros [|j] z Hj Hz; simpl in Hz.
    + now injection Hz as <-.
    + apply (Hfirst j z); [lia | assumption].
Qed.

Lemma filter_none_removed {A} (p : A -> bool) (items : list A) :
  (forall x, x ∈ items -> p x = true) -> List.filter p items = items.
Proof.
  induction items as [|x items IH]; simpl; intros H; [reflexivity |].
  rewrite (H x) by constructor. f_equal. apply IH.
  intros y Hy. apply H. now constructor.
Qed.

(** What [getAll] reads back from a store. *)
Lemma getAll_reads (w : world) (items : list obj) :
  parse_or_empty (localStorage w) = Ok items -> db.getAll w = (Ok items, w).
Proof.
  unfold db.getAll, bind, getItem, parse_or_empty. destruct w as [[[| |l]|] r c]; simpl;
    intros H; try discriminate; unfold ret, lift; simpl; congruence.
Qed.

(** C2 (as amended): for an identifier that no stored record carries,
    [update] throws 'Item not found' and leaves the store as it was, while
    [delete] reports nothing: it completes normally, and the collection read
    back afterwards is the one stored before. *)
Theorem unknown_id_update_throws_delete_completes
    (w : world) (items : list obj) (id : value) (updates : obj) :
  parse_or_empty (localStorage w) = Ok items ->
  (forall item, item ∈ items -> same_id id item = false) ->
  db.update id updates w = (Throw ItemNotFound, w) /\
  exists w', db.delete id w = (Ok tt, w') /\ db.getAll w' = (Ok items, w').
Proof.
  intros Hparse Hunknown. split.
  - unfold db.update, bind, getItem, lift. rewrite Hparse.
    apply findIndex_None in Hunknown. now rewrite Hunknown.
  - unfold db.delete, bind, getItem, lift, setItem, JSON_stringify. rewrite Hparse.
    eexists. split; [reflexivity |].
    apply getAll_reads. simpl. f_equal. apply filter_none_removed.
    intros x Hx. now rewrite (Hunknown x Hx).
Qed.

Lemma unknown_id_update_throws_delete_completes_witness :
  db.update (VStr "zz") (<["name" := VStr "Saw"]> ∅) (stored_as [pump])
    = (Throw ItemNotFound, stored_as [pump]) /\
  exists w', db.delete (VStr "zz") (stored_as [pump]) = (Ok tt, w') /\
             db.getAll w' = (Ok [pump], w').
Proof.
  apply (unknown_id_update_throws_delete_completes (stored_as [pump]) [pump]).
  - reflexivity.
  - intros item Hitem. apply list_elem_of_singleton in Hitem as ->. vm_compute. reflexivity.
Defined.

(** C2, the claim as stated fails for [delete]: deleting the unknown
    identifier "zz" from a store holding one record completes normally. *)
Lemma delete_unknown_id_is_silent :
  same_id (VStr "zz") pump = false /\
  fst (db.delete (VStr "zz") (stored_as [pump])) = Ok tt.
Proof. split; vm_compute; reflexivity. Qed.

Lemma filter_bool_Prop {A} (p : A -> bool) (Q : A -> Prop) `{forall x, Decision (Q x)}
    (items : list A) :
  (forall x, p x = true <-> Q x) -> List.filter p items = filter Q items.
Proof.
  intros Hpq. induction items as [|x items IH]; [reflexivity |].
  simpl. rewrite filter_cons. destruct (decide (Q x)) as [Hq | Hq].
  - apply Hpq in Hq. rewrite Hq. now f_equal.
  - destruct (p x) eqn:Hp; [| assumption]. apply Hpq in Hp. contradiction.
Qed.

Lemma same_id_false (id : value) (item : obj) :
  negb (same_id id item) = true <-> String_ (prop item "id") <> ToString id.
Proof.
  unfold same_id. rewrite negb_true_iff. apply String.eqb_neq.
Qed.

(** C10: [delete(id)] keeps exactly the records whose id, as a string,
    differs from the string form of [id]: every record carrying that id is
    removed, however many there are, and the others stay, unchanged and in
    their original order. *)
Theorem delete_removes_every_record_with_id
    (w : world) (items : list obj) (id : value) :
  parse_or_empty (localStorage w) = Ok items ->
  exists kept w',
    db.delete id w = (Ok tt, w') /\ db.getAll w' = (Ok kept, w') /\
    kept = filter (fun item : obj => String_ (prop item "id") <> ToString id) items /\
    (forall item : obj,
        item ∈ kept <-> item ∈ items /\ String_ (prop item "id") <> ToString id) /\
    kept `sublist_of` items.
Proof.
  intros Hparse.
  exists (filter (fun item : obj => String_ (prop item "id") <> ToString id) items).
  eexists. split; [| split; [| split; [reflexivity | split]]].
  - unfold db.delete, bind, getItem, lift, setItem, JSON_stringify. rewrite Hparse.
    rewrite (filter_bool_Prop _ (fun item : obj => String_ (prop item "id") <> ToString id));
      [reflexivity | intros x; apply same_id_false].
  - now apply getAll_reads.
  - intros item. rewrite list_elem_of_filter. tauto.
  - apply sublist_filter.
Qed.

Lemma delete_removes_every_record_with_id_witness :
  exists kept w',
    db.delete (VNum 1) (stored_as [id_one; pump; id_one]) = (Ok tt, w') /\
    db.getAll w' = (Ok kept, w') /\
    kept = filter (fun item : obj => String_ (prop item "id") <> ToString (VNum 1))
             [id_one; pump; id_one] /\
    (forall item : obj,
        item ∈ kept <->
        item ∈ [id_one; pump; id_one] /\ String_ (prop item "id") <> ToString (VNum 1)) /\
    kept `sublist_of` [id_one; pump; id_one].
Proof.
  apply (delete_removes_every_record_with_id (stored_as [id_one; pump; id_one])).
  reflexivity.
Defined.

Lemma update_keeps_other_fields (w : world) (id : value) (updates : obj) (key : string) :
  updates !! key = None ->
  (fun item : obj => prop item key) <$> records (snd (db.update id updates w))
  = (fun item : obj => prop item key) <$> records w.
Proof.
  intros Hkey. unfold db.update, bind, getItem, lift.
  destruct (parse_or_empty (localStorage w)) as [items | e] eqn:Hparse; [| reflexivity].
  destruct (findIndex (same_id id) items) as [index |] eqn:Hfind; [| reflexivity].
  apply findIndex_Some in Hfind as (item & Hitem & _).
  assert (records w = items) as ->.
  { unfold records.
    destruct w as [[[| | l] |] r c]; simpl in *; try discriminate; now injection Hparse. }
  unfold setItem, JSON_stringify, records. simpl.
  rewrite list_fmap_insert. apply list_insert_id.
  rewrite list_lookup_fmap, Hitem. simpl. f_equal.
  unfold spread, prop. now rewrite lookup_union_r.
Qed.

(** C8 (as amended): [createdAt] is written when a record is created, by
    [add] as the ISO text of the clock and by the import, for each record the
    mapper returns one for, as the source's truthy [createdAt] or else the
    ISO text of the clock; and a call [update(id, fields)] whose [fields]
    carry no [createdAt] key leaves the [createdAt] of every stored record as
    it was, whether the call succeeds or throws. *)
Theorem update_preserves_createdAt (P : platform) (w : world) :
  (forall (id : value) (updates : obj),
      updates !! "createdAt" = None ->
      (fun item : obj => prop item "createdAt") <$> records (snd (db.update id updates w))
      = (fun item : obj => prop item "createdAt") <$> records w) /\
  (forall (item : obj) (items : list obj),
      parse_or_empty (localStorage w) = Ok items ->
      exists (newItem : obj) (w' : world),
        db.add P item w = (Ok newItem, w') /\
        records w' = (items ++ [newItem])%list /\
        newItem !! "createdAt" = Some (VStr (iso_text (clock P (clock_reads w))))) /\
  (forall item : obj,
      mappable item = true ->
      exists (o : obj) (w' : world),
        mapItem P item w = (Ok o, w') /\
        o !! "createdAt" = (if truthy (prop item "createdAt") then prop item "createdAt"
                            else Some (VStr (iso_text (clock P (clock_reads w)))))) /\
  (forall item : obj,
      mappable item = false ->
      exists w' : world, mapItem P item w = (Throw TypeError, w') /\ records w' = records w).
Proof.
  split; [| split; [| split]].
  - intros id updates. apply update_keeps_other_fields.
  - intros item items Hparse. unfold db.add, bind, getItem, lift. rewrite Hparse.
    unfold generateId, now_ISOString, Date_now, toISOString, setItem, ret.
    cbn [localStorage random_calls clock_reads]. do 2 eexists.
    split; [reflexivity |]. split; [reflexivity |]. read_key.
  - intros item Hm.
    destruct (mapItem_fields P item w Hm)
      as (o & w' & Hrun & _ & _ & _ & _ & _ & Hcreated & _).
    now exists o, w'.
  - intros item Hm. destruct (mapItem_throws P item w Hm) as (w' & Hrun & Hstore).
    exists w'. split; [exact Hrun |]. unfold records. now rewrite Hstore.
Qed.

Lemma update_preserves_createdAt_witness :
  (fun item : obj => prop item "createdAt")
    <$> records (snd (db.update (VStr "a1") (<["name" := VStr "Saw"]> ∅) (stored_as [pump])))
  = (fun item : obj => prop item "createdAt") <$> records (stored_as [pump]) /\
  (exists (newItem : obj) (w' : world),
      db.add utc_host drill (stored_as [pump]) = (Ok newItem, w') /\
      records w' = [pump; newItem] /\
      newItem !! "createdAt" = Some (VStr "2024-01-01T00:00:00.000Z")) /\
  (exists (o : obj) (w' : world),
      mapItem utc_host pump (stored_as [pump]) = (Ok o, w') /\
      o !! "createdAt" = Some (VStr "2020-05-05T00:00:00.000Z")) /\
  (exists w' : world,
      mapItem utc_host (<["remarks" := no_primitive]> ∅) (stored_as [pump])
        = (Throw TypeError, w') /\
      records w' = records (stored_as [pump])).
Proof.
  destruct (update_preserves_createdAt utc_host (stored_as [pump]))
    as (Hupdate & Hadd & Hmap & Hthrow).
  split; [| split; [| split]].
  - apply (Hupdate (VStr "a1") (<["name" := VStr "Saw"]> ∅)). reflexivity.
  - apply (Hadd drill [pump]). reflexivity.
  - apply (Hmap pump). reflexivity.
  - apply (Hthrow (<["remarks" := no_primitive]> ∅)). reflexivity.
Defined.

(** C8, the claim as stated fails: an update whose fields carry a
    [createdAt] overwrites the stored one. *)
Lemma update_can_overwrite_createdAt :
  (fun item : obj => prop item "createdAt")
    <$> records (snd (db.update (VStr "a1") (<["createdAt" := VStr "later"]> ∅)
                        (stored_as [pump])))
  = [Some (VStr "later")] /\
  (fun item : obj => prop item "createdAt") <$> records (stored_as [pump])
  = [Some (VStr "2020-05-05T00:00:00.000Z")].
Proof. split; vm_compute; reflexivity. Qed.

(** C9: on a stored text that does not parse, [getAll] returns the empty
    sequence, but [update], [add], [delete] and [importBulk] throw the
    SyntaxError of [JSON.parse] and leave the text where it is. *)
Theorem garbled_store_getAll_empty_others_throw
    (P : platform) (r c : nat) (id : value) (fields item : obj) (newItems : list obj) :
  let w := {| localStorage := Some RawGarbled; random_calls := r; clock_reads := c |} in
  db.getAll w = (Ok [], w) /\
  db.update id fields w = (Throw SyntaxError, w) /\
  db.add P item w = (Throw SyntaxError, w) /\
  db.delete id w = (Throw SyntaxError, w) /\
  db.importBulk P newItems w = (Throw SyntaxError, w).
Proof. repeat split. Qed.

(* --------------------------------------------------------------------- *)
(** *** The bulk importer *)

Lemma mapM_mapItem (P : platform) (newItems : list obj) (w : world) :
  forallb mappable newItems = true ->
  exists (processed : list obj) (w' : world),
    mapM (mapItem P) newItems w = (Ok processed, w') /\
    localStorage w' = localStorage w /\
    Forall2 keeps_id newItems processed.
Proof.
  revert w. induction newItems as [| item newItems IH]; intros w Hall; simpl.
  - exists [], w. repeat split. constructor.
  - cbn [forallb] in Hall. apply andb_true_iff in Hall as [Hitem Hall].
    destruct (mapItem_fields P item w Hitem) as (o & w1 & Hrun & Hstore & Hid & _).
    destruct (IH w1 Hall) as (processed & w2 & Hrest & Hstore2 & Hkeeps).
    exists (o :: processed), w2. unfold bind. rewrite Hrun, Hrest. simpl.
    repeat split; [congruence |]. constructor; [| assumption].
    intros Htruthy. now rewrite Hid, Htruthy.
Qed.

(** One element that the mapper does not accept stops the whole batch. *)
Lemma mapM_mapItem_throws (P : platform) (newItems : list obj) (w : world) :
  forallb mappable newItems = false ->
  exists w' : world,
    mapM (mapItem P) newItems w = (Throw TypeError, w') /\
    localStorage w' = localStorage w.
Proof.
  revert w. induction newItems as [| item newItems IH]; intros w Hall; [discriminate |].
  cbn [forallb] in Hall. cbn [mapM]. unfold bind.
  destruct (mappable item) eqn:Hitem.
  - destruct (mapItem_fields P item w Hitem) as (o & w1 & Hrun & Hstore & _).
    destruct (IH w1 Hall) as (w2 & Hrest & Hstore2).
    exists w2. rewrite Hrun, Hrest. split; [reflexivity | congruence].
  - destruct (mapItem_throws P item w Hitem) as (w1 & Hrun & Hstore).
    exists w1. now rewrite Hrun.
Qed.

(** [importBulk] stores the previous records followed by the mapped batch,
    one record per element, whatever identifiers are already stored. *)
Lemma importBulk_appends (P : platform) (w : world) (items newItems : list obj) :
  parse_or_empty (localStorage w) = Ok items ->
  forallb mappable newItems = true ->
  exists (processed : list obj) (w' : world),
    db.importBulk P newItems w = (Ok tt, w') /\
    localStorage w' = Some (RawJson (items ++ processed)%list) /\
    Forall2 keeps_id newItems processed.
Proof.
  intros Hparse Hmappable.
  destruct (mapM_mapItem P newItems w Hmappable) as (processed & w1 & Hrun & Hstore & Hall).
  exists processed. eexists. unfold db.importBulk, bind, getItem, lift.
  rewrite Hparse, Hrun. unfold setItem, JSON_stringify.
  split; [reflexivity |]. split; [reflexivity | assumption].
Qed.

Lemma keeps_id_one (processed : list obj) :
  Forall2 keeps_id [id_one; id_one] processed ->
  List.length processed = 2%nat /\
  Forall (fun o : obj => o !! "id" = Some (VStr "1")) processed.
Proof.
  intros H. split; [now rewrite <- (Forall2_length _ _ _ H) |].
  apply Forall2_Forall_r with (Q := fun o : obj => o !! "id" = Some (VStr "1")) in H;
    [assumption |].
  apply Forall_forall. intros item Hitem o Hkeeps.
  assert (item = id_one) as ->.
  { apply elem_of_cons in Hitem as [-> | Hitem]; [reflexivity |].
    now apply list_elem_of_singleton in Hitem. }
  now apply Hkeeps.
Qed.

(** C6 (as amended): importing [[{id: 1}, {id: 1}]] twice into an empty
    store leaves four stored records, each with id "1" (the first import
    leaves two): a batch is appended to what the store holds, one mapped
    record per element, with no merging of equal identifiers. *)
Theorem import_twice_keeps_all_duplicates (P : platform) (w : world) :
  parse_or_empty (localStorage w) = Ok [] ->
  exists (w1 w2 : world) (once twice : list obj),
    db.importBulk P [id_one; id_one] w = (Ok tt, w1) /\
    db.getAll w1 = (Ok once, w1) /\
    db.importBulk P [id_one; id_one] w1 = (Ok tt, w2) /\
    db.getAll w2 = (Ok twice, w2) /\
    List.length once = 2%nat /\
    List.length twice = 4%nat /\
    (exists batch, twice = (once ++ batch)%list) /\
    Forall (fun o : obj => o !! "id" = Some (VStr "1")) twice.
Proof.
  intros Hempty.
  destruct (importBulk_appends P w [] [id_one; id_one] Hempty eq_refl)
    as (batch1 & w1 & Hrun1 & Hstored1 & Hids1).
  assert (parse_or_empty (localStorage w1) = Ok batch1) as Hparse1
    by now rewrite Hstored1.
  destruct (importBulk_appends P w1 batch1 [id_one; id_one] Hparse1 eq_refl)
    as (batch2 & w2 & Hrun2 & Hstored2 & Hids2).
  assert (db.getAll w1 = (Ok batch1, w1)) as Hread1 by now apply getAll_reads.
  assert (db.getAll w2 = (Ok (batch1 ++ batch2)%list, w2)) as Hread2
    by (apply getAll_reads; now rewrite Hstored2).
  apply keeps_id_one in Hids1 as [Hlen1 Hall1]. apply keeps_id_one in Hids2 as [Hlen2 Hall2].
  exists w1, w2, batch1, (batch1 ++ batch2)%list.
  repeat split; try assumption.
  - rewrite length_app. lia.
  - now exists batch2.
  - now apply Forall_app.
Qed.

Lemma import_twice_keeps_all_duplicates_witness :
  exists (w1 w2 : world) (once twice : list obj),
    db.importBulk utc_host [id_one; id_one] fresh = (Ok tt, w1) /\
    db.getAll w1 = (Ok once, w1) /\
    db.importBulk utc_host [id_one; id_one] w1 = (Ok tt, w2) /\
    db.getAll w2 = (Ok twice, w2) /\
    List.length once = 2%nat /\
    List.length twice = 4%nat /\
    (exists batch, twice = (once ++ batch)%list) /\
    Forall (fun o : obj => o !! "id" = Some (VStr "1")) twice.
Proof. apply (import_twice_keeps_all_duplicates utc_host fresh). reflexivity. Defined.

(** C6, the claim as stated fails: after the two imports the store holds
    four records, not two. *)
Lemma import_twice_stores_four :
  List.length
    (records (snd (db.importBulk utc_host [id_one; id_one]
                     (snd (db.importBulk utc_host [id_one; id_one] fresh)))))
  = 4%nat.
Proof. vm_compute. reflexivity. Qed.

(* --------------------------------------------------------------------- *)
(** *** The dashboard statistics *)

(** In local time, the calendar date of a day [n] days later is reached by
    adding [n] to the day of the month. *)
Lemma MakeDay_days_later (t n : Z) :
  MakeDay (YearFromTime t) (MonthFromTime t) (DateFromTime t + n) = Day t + n.
Proof.
  unfold YearFromTime, MonthFromTime, DateFromTime.
  pose proof (civil_from_days_valid (Day t)) as Hvalid.
  destruct (civil_from_days (Day t)) as [[y m] d]. cbn [fst snd].
  destruct Hvalid as (Hm & _ & Hback & _).
  rewrite MakeDay_of_date by assumption.
  rewrite days_from_civil_day. rewrite (days_from_civil_day y m d) in Hback. lia.
Qed.

(** [setDate(getDate() + 30)] keeps the local time of day and moves the
    local date thirty days on. *)
Lemma setDate_thirty_days (P : platform) (now : Z) :
  setDate P (Some now) (d ← getDate P (Some now); Some (d + 30))
  = TimeClip (thirty_days_later P now).
Proof.
  unfold setDate, getDate, thirty_days_later. cbn [mbind option_bind].
  rewrite MakeDay_days_later. do 2 f_equal.
  pose proof (time_of_day_split (LocalTime P now)) as Hsplit.
  unfold MakeDate, days in *. lia.
Qed.

(** Where the offset from UTC never changes, thirty calendar days are
    thirty times twenty-four hours. *)
Lemma thirty_days_later_fixed_offset (P : platform) (offset now : Z) :
  fixed_offset P offset -> thirty_days_later P now = now + days 30.
Proof.
  intros Hzone. unfold thirty_days_later, UTC, LocalTime.
  rewrite (Hzone now true), (Hzone _ false). lia.
Qed.

Lemma stats_step_expired (P : platform) (limit : Z) (item : obj)
    (acc : nat * nat * nat * gmap string nat) :
  fst (fst (fst (stats_step P (Some limit) acc item)))
  = (fst (fst (fst acc)) + (if due_by P limit item then 1 else 0))%nat.
Proof.
  destruct acc as [[[e b] m] bt]. unfold stats_step, due_by. cbn [fst].
  destruct (truthy (prop item "dueDate")); cbn [andb]; [| lia].
  destruct (new_Date P (prop item "dueDate")) as [t |]; simpl; [| lia].
  destruct (t <=? limit)%Z; lia.
Qed.

Lemma fold_stats_expired (P : platform) (limit : Z) (data : list obj)
    (acc : nat * nat * nat * gmap string nat) :
  fst (fst (fst (fold_left (stats_step P (Some limit)) data acc)))
  = (fst (fst (fst acc)) + List.length (List.filter (due_by P limit) data))%nat.
Proof.
  revert acc. induction data as [| item data IH]; intros acc.
  - simpl. lia.
  - cbn [fold_left List.filter]. rewrite IH, stats_step_expired.
    destruct (due_by P limit item); simpl; lia.
Qed.

Lemma stats_expired (P : platform) (k : nat) (data : list obj) :
  expired (stats P k data)
  = fst (fst (fst (fold_left
       (stats_step P (setDate P (Date_now P (S k))
                        (d ← getDate P (Date_now P k); Some (d + 30))))
       data (O, O, O, ∅)))).
Proof.
  unfold stats.
  destruct (fold_left _ data (O, O, O, ∅)) as [[[e b] m] bt]. reflexivity.
Qed.

(** The count of [expired] against the limit the code computes. *)
Lemma expired_counts_due_by_limit (P : platform) (k : nat) (now : Z) (data : list obj) :
  clock P k = now -> clock P (S k) = now ->
  Z.abs (thirty_days_later P now) <= maxTime ->
  expired (stats P k data)
  = List.length (List.filter (due_by P (thirty_days_later P now)) data).
Proof.
  intros Hnow Hnow' Hrange. rewrite stats_expired. unfold Date_now.
  rewrite Hnow, Hnow', setDate_thirty_days, TimeClip_in_range by assumption.
  now rewrite fold_stats_expired.
Qed.

(** C7 (as amended): with the clock standing at [now], the [expired] count is
    the number of records whose [dueDate] is truthy and parses to a valid
    instant at or before the limit that [setDate(getDate() + 30)] computes:
    the instant thirty calendar days after [now] in local time, with no bound
    on the past side. Where the offset of the local zone is fixed, that limit
    is [now] plus thirty times twenty-four hours: a record due 31 days from
    [now] is not counted, one due exactly 30 days from [now] is, and one due
    at or before [now], however long ago, is. *)
Theorem expired_counts_due_within_30_days
    (P : platform) (k : nat) (now : Z) (data : list obj) :
  clock P k = now -> clock P (S k) = now ->
  Z.abs (thirty_days_later P now) <= maxTime ->
  expired (stats P k data)
    = List.length (List.filter (due_by P (thirty_days_later P now)) data) /\
  (forall offset : Z,
      fixed_offset P offset ->
      thirty_days_later P now = now + days 30 /\
      forall (item : obj) (t : Z),
        truthy (prop item "dueDate") = true ->
        new_Date P (prop item "dueDate") = Some t ->
        (t = now + days 31 -> expired (stats P k [item]) = 0%nat) /\
        (t = now + days 30 -> expired (stats P k [item]) = 1%nat) /\
        (t <= now -> expired (stats P k [item]) = 1%nat)).
Proof.
  intros Hnow Hnow' Hrange.
  split; [now apply expired_counts_due_by_limit |].
  intros offset Hzone.
  pose proof (thirty_days_later_fixed_offset P offset now Hzone) as Hlimit.
  split; [assumption |]. intros item t Hitem Hdue.
  rewrite (expired_counts_due_by_limit P k now [item]) by assumption.
  cbn [List.filter]. unfold due_by. rewrite Hitem, Hdue, Hlimit. unfold days, msPerDay.
  cbn [andb].
  repeat split; intros Ht.
  - destruct (Z.leb_spec t (now + 30 * 86400000)); [lia | reflexivity].
  - destruct (Z.leb_spec t (now + 30 * 86400000)); [reflexivity | lia].
  - destruct (Z.leb_spec t (now + 30 * 86400000)); [reflexivity | lia].
Qed.

Lemma expired_counts_due_within_30_days_witness :
  expired (stats utc_host 0 due_dates) = 2%nat /\
  thirty_days_later utc_host 1704067200000 = 1704067200000 + days 30 /\
  expired (stats utc_host 0 [due "2024-02-01"]) = 0%nat /\
  expired (stats utc_host 0 [due "2024-01-31T00:00:00.000Z"]) = 1%nat /\
  expired (stats utc_host 0 [due "1999-12-31T23:59:59.999Z"]) = 1%nat.
Proof.
  assert (Z.abs (thirty_days_later utc_host 1704067200000) <= maxTime) as Hrange
    by (vm_compute; discriminate).
  destruct (expired_counts_due_within_30_days utc_host 0 1704067200000 due_dates
              eq_refl eq_refl Hrange) as [Hcount Hfixed].
  destruct (Hfixed 0 (fun _ _ => eq_refl)) as [Hlimit Hcases].
  split; [exact Hcount |]. split; [exact Hlimit |].
  split; [| split].
  - exact (proj1 (Hcases (due "2024-02-01") (1704067200000 + days 31) eq_refl eq_refl)
             eq_refl).
  - exact (proj1 (proj2 (Hcases (due "2024-01-31T00:00:00.000Z") (1704067200000 + days 30)
                           eq_refl eq_refl)) eq_refl).
  - apply (proj2 (proj2 (Hcases (due "1999-12-31T23:59:59.999Z") 946684799999
                           eq_refl eq_refl))).
    vm_compute. discriminate.
Defined.

(** C7, the claim as stated fails. Across a change of the zone's offset the
    limit is not thirty times twenty-four hours after [now]: here it falls
    one hour short, and a record due exactly [now + days 30] is not counted.
    And a [dueDate] of 0, which [new Date] reads as the epoch, a valid
    instant long past, is not counted either, being falsy. *)
Lemma offset_change_within_the_window :
  thirty_days_later summer_time_host 1710000000000 = 1710000000000 + days 30 - msPerHour /\
  new_Date summer_time_host (prop (due "2024-04-08T16:00:00.000Z") "dueDate")
    = Some (1710000000000 + days 30) /\
  expired (stats summer_time_host 0 [due "2024-04-08T16:00:00.000Z"]) = 0%nat /\
  new_Date utc_host (Some (VNum 0)) = Some 0 /\
  expired (stats utc_host 0 [<["dueDate" := VNum 0]> ∅]) = 0%nat.
Proof. repeat split. Qed.

(* --------------------------------------------------------------------- *)
(** *** The store: merging, appending, failing *)

Lemma parse_or_empty_records (w : world) (items : list obj) :
  parse_or_empty (localStorage w) = Ok items -> records w = items.
Proof.
  unfold records. destruct w as [[[| | l] |] r c]; simpl; intros H;
    try discriminate; now injection H.
Qed.

Lemma findIndex_first_match {A} (p : A -> bool) (before after : list A) (x : A) :
  (forall y, y ∈ before -> p y = false) -> p x = true ->
  findIndex p (before ++ x :: after) = Some (List.length before).
Proof.
  intros Hbefore Hx. induction before as [| y before IH]; simpl.
  - now rewrite Hx.
  - rewrite (Hbefore y) by constructor. rewrite IH; [reflexivity |].
    intros z Hz. apply Hbefore. now constructor.
Qed.

(** [update] on the first record that answers to the identifier. *)
Lemma update_first_match
    (w : world) (before after : list obj) (item : obj) (id : value) (updates : obj) :
  parse_or_empty (localStorage w) = Ok (before ++ item :: after)%list ->
  (forall x, x ∈ before -> same_id id x = false) ->
  same_id id item = true ->
  exists (merged : obj) (w' : world),
    db.update id updates w = (Ok merged, w') /\
    db.getAll w' = (Ok (before ++ merged :: after)%list, w') /\
    (forall key : string,
        merged !! key = match updates !! key with
                        | Some v => Some v
                        | None => item !! key
                        end).
Proof.
  intros Hparse Hbefore Hitem.
  exists (spread item updates). eexists.
  unfold db.update, bind, getItem, lift. rewrite Hparse.
  rewrite (findIndex_first_match _ before after item Hbefore Hitem).
  rewrite list_lookup_middle by reflexivity. cbn [default].
  unfold setItem, JSON_stringify, ret.
  split; [reflexivity |]. split.
  - apply getAll_reads. cbn [localStorage parse_or_empty raw_truthy JSON_parse].
    f_equal. rewrite insert_app_r_alt by lia. now rewrite Nat.sub_diag.
  - intros key. unfold spread. rewrite lookup_union.
    destruct (updates !! key), (item !! key); reflexivity.
Qed.

(** X1: [update] changes the first record whose identifier, as a string,
    equals the given one, and no other: it returns the merged record, the
    store then holds the same records in the same order with the merged
    record in the place of that one, and the merged record has every field
    of the update and, under the other keys, what the record held. A later
    record with the same identifier is left as it is. *)
Theorem update_merges_into_first_match
    (w : world) (before after : list obj) (item : obj) (id : value) (updates : obj) :
  parse_or_empty (localStorage w) = Ok (before ++ item :: after)%list ->
  (forall x, x ∈ before -> same_id id x = false) ->
  same_id id item = true ->
  exists (merged : obj) (w' : world),
    db.update id updates w = (Ok merged, w') /\
    db.getAll w' = (Ok (before ++ merged :: after)%list, w') /\
    (forall key : string,
        merged !! key = match updates !! key with
                        | Some v => Some v
                        | None => item !! key
                        end).
Proof. apply update_first_match. Qed.

Lemma update_merges_into_first_match_witness :
  exists (merged : obj) (w' : world),
    db.update (VNum 1) (<["name" := VStr "Saw"]> ∅) (stored_as [pump; id_one; id_one])
      = (Ok merged, w') /\
    db.getAll w' = (Ok [pump; merged; id_one], w') /\
    (forall key : string,
        merged !! key = match (<["name" := VStr "Saw"]> ∅ : obj) !! key with
                        | Some v => Some v
                        | None => id_one !! key
                        end).
Proof.
  apply (update_merges_into_first_match (stored_as [pump; id_one; id_one]) [pump] [id_one]
           id_one (VNum 1)).
  - reflexivity.
  - intros x Hx. apply list_elem_of_singleton in Hx as ->. reflexivity.
  - reflexivity.
Defined.

(** X2: [add] on a readable store returns the new record and stores it
    after the records already there. Its [id] is the generated identifier and
    its [createdAt] the ISO text of the clock, whatever the caller passed
    under these two keys; every other field is the caller's. It draws one
    random number and reads the clock once, and it does not compare the
    identifier with those in use. *)
Theorem add_appends_new_record (P : platform) (w : world) (items : list obj) (item : obj) :
  parse_or_empty (localStorage w) = Ok items ->
  exists (newItem : obj) (w' : world),
    db.add P item w = (Ok newItem, w') /\
    db.getAll w' = (Ok (items ++ [newItem])%list, w') /\
    newItem !! "id" = Some (VStr (substr 2 9 (Math_random_text P (random_calls w)))) /\
    newItem !! "createdAt" = Some (VStr (iso_text (clock P (clock_reads w)))) /\
    (forall key : string, key <> "id" -> key <> "createdAt" -> newItem !! key = item !! key) /\
    random_calls w' = S (random_calls w) /\ clock_reads w' = S (clock_reads w).
Proof.
  intros Hparse. unfold db.add, bind, getItem, lift. rewrite Hparse.
  unfold generateId, now_ISOString, Date_now, toISOString, setItem, ret.
  cbn [localStorage random_calls clock_reads]. do 2 eexists.
  split; [reflexivity |]. split; [now apply getAll_reads |].
  split; [read_key |]. split; [read_key |]. split; [| split; reflexivity].
  intros key Hid Hcreated. rewrite lookup_object_literal. unfold written.
  cbn [fold_left fst snd].
  destruct (String.eqb_spec "createdAt" key) as [<- | _]; [contradiction |].
  destruct (String.eqb_spec "id" key) as [<- | _]; [contradiction |]. reflexivity.
Qed.

Lemma add_appends_new_record_witness :
  exists (newItem : obj) (w' : world),
    db.add utc_host drill (stored_as [pump]) = (Ok newItem, w') /\
    db.getAll w' = (Ok [pump; newItem], w') /\
    newItem !! "id" = Some (VStr "4fzyo82mv") /\
    newItem !! "createdAt" = Some (VStr "2024-01-01T00:00:00.000Z") /\
    (forall key : string, key <> "id" -> key <> "createdAt" -> newItem !! key = drill !! key) /\
    random_calls w' = 1%nat /\ clock_reads w' = 1%nat.
Proof. apply (add_appends_new_record utc_host (stored_as [pump]) [pump] drill). reflexivity. Defined.

Lemma readable_store (w : world) :
  localStorage w <> Some RawGarbled -> parse_or_empty (localStorage w) = Ok (records w).
Proof.
  unfold records. destruct w as [[[| | l] |] r c]; simpl; intros H;
    try reflexivity. now contradiction H.
Qed.

(** X3: when the stored text is readable (nothing stored, the empty text, or
    a list of records), [getAll] returns the records, [add] and [delete]
    return normally, [update] returns the merged record or throws 'Item not
    found' and leaves the store as it was, and [importBulk] returns normally
    when the mapper accepts every element and otherwise throws the TypeError
    of the conversion and leaves the stored text as it was. *)
Theorem store_operations_on_readable_text
    (P : platform) (w : world) (id : value) (updates item : obj) (newItems : list obj) :
  localStorage w <> Some RawGarbled ->
  db.getAll w = (Ok (records w), w) /\
  (exists newItem w', db.add P item w = (Ok newItem, w')) /\
  (exists w', db.delete id w = (Ok tt, w')) /\
  (exists w',
      db.importBulk P newItems w
        = (if forallb mappable newItems then Ok tt else Throw TypeError, w') /\
      (forallb mappable newItems = false -> localStorage w' = localStorage w)) /\
  ((exists merged w', db.update id updates w = (Ok merged, w')) \/
   db.update id updates w = (Throw ItemNotFound, w)).
Proof.
  intros Hreadable. apply readable_store in Hreadable.
  split; [now apply getAll_reads |]. split; [| split; [| split]].
  - unfold db.add, bind, getItem, lift. rewrite Hreadable. do 2 eexists. reflexivity.
  - unfold db.delete, bind, getItem, lift. rewrite Hreadable. eexists. reflexivity.
  - destruct (forallb mappable newItems) eqn:Hall.
    + destruct (importBulk_appends P w (records w) newItems Hreadable Hall)
        as (l & w' & H & _).
      exists w'. split; [exact H | discriminate].
    + destruct (mapM_mapItem_throws P newItems w Hall) as (w' & Hrun & Hstore).
      exists w'. unfold db.importBulk, bind, getItem, lift. rewrite Hreadable, Hrun.
      now split.
  - unfold db.update, bind, getItem, lift. rewrite Hreadable.
    destruct (findIndex (same_id id) (records w)); [left | right; reflexivity].
    do 2 eexists. reflexivity.
Qed.

Lemma store_operations_on_readable_text_witness :
  db.getAll (stored_as [pump]) = (Ok [pump], stored_as [pump]) /\
  (exists newItem w', db.add utc_host drill (stored_as [pump]) = (Ok newItem, w')) /\
  (exists w', db.delete (VStr "zz") (stored_as [pump]) = (Ok tt, w')) /\
  (exists w',
      db.importBulk utc_host [drill; <["remarks" := no_primitive]> ∅] (stored_as [pump])
        = (Throw TypeError, w') /\
      (false = false -> localStorage w' = Some (RawJson [pump]))) /\
  ((exists merged w', db.update (VStr "zz") ∅ (stored_as [pump]) = (Ok merged, w')) \/
   db.update (VStr "zz") ∅ (stored_as [pump]) = (Throw ItemNotFound, stored_as [pump])).
Proof.
  assert (localStorage (stored_as [pump]) <> Some RawGarbled) as Hreadable by discriminate.
  exact (store_operations_on_readable_text utc_host (stored_as [pump]) (VStr "zz") ∅ drill
           [drill; <["remarks" := no_primitive]> ∅] Hreadable).
Defined.

Lemma filter_filter_same {A} (p : A -> bool) (l : list A) :
  List.filter p (List.filter p l) = List.filter p l.
Proof.
  induction l as [| x l IH]; [reflexivity |]. simpl.
  destruct (p x) eqn:Hp; simpl; [rewrite Hp; now f_equal | assumption].
Qed.

(** X4: after [delete] a second [delete] of the same identifier leaves the
    collection as it is, no record answers to the identifier any more, and
    [update] with it throws 'Item not found'. *)
Theorem delete_is_idempotent (w : world) (id : value) (updates : obj) :
  localStorage w <> Some RawGarbled ->
  let w1 := snd (db.delete id w) in
  records (snd (db.delete id w1)) = records w1 /\
  (forall item, item ∈ records w1 -> same_id id item = false) /\
  db.update id updates w1 = (Throw ItemNotFound, w1).
Proof.
  intros Hreadable. apply readable_store in Hreadable.
  unfold db.delete, bind, getItem, lift. rewrite Hreadable.
  unfold setItem, JSON_stringify. cbn [snd localStorage parse_or_empty raw_truthy JSON_parse].
  unfold records at 1 3 4. cbn [localStorage].
  assert (forall item,
             item ∈ List.filter (fun item => negb (same_id id item)) (records w) ->
             same_id id item = false) as Hgone.
  { intros item Hitem. apply list_elem_of_In, filter_In in Hitem as [_ Hitem].
    now apply negb_true_iff. }
  split; [apply filter_filter_same |]. split; [exact Hgone |].
  unfold db.update, bind, getItem, lift. cbn [localStorage parse_or_empty raw_truthy JSON_parse].
  apply findIndex_None in Hgone. now rewrite Hgone.
Qed.

Lemma delete_is_idempotent_witness :
  let w1 := snd (db.delete (VNum 1) (stored_as [id_one; pump; id_one])) in
  records (snd (db.delete (VNum 1) w1)) = records w1 /\
  (forall item, item ∈ records w1 -> same_id (VNum 1) item = false) /\
  db.update (VNum 1) ∅ w1 = (Throw ItemNotFound, w1).
Proof.
  apply (delete_is_idempotent (stored_as [id_one; pump; id_one]) (VNum 1) ∅). discriminate.
Defined.



(** X6: adding a record and deleting it by the identifier it was given
    leaves the records that were stored and do not carry that identifier, in
    their order: the collection as it was when the generated identifier was
    not in use, and without the older records carrying it otherwise, since
    [add] does not compare the generated identifier with those in use. *)
Theorem add_then_delete_restores (P : platform) (w : world) (items : list obj) (item : obj) :
  parse_or_empty (localStorage w) = Ok items ->
  exists (newItem : obj) (id : string) (w1 w2 : world),
    db.add P item w = (Ok newItem, w1) /\
    newItem !! "id" = Some (VStr id) /\
    db.delete (VStr id) w1 = (Ok tt, w2) /\
    records w2 = List.filter (fun x => negb (same_id (VStr id) x)) items /\
    ((forall x, x ∈ items -> same_id (VStr id) x = false) -> records w2 = items).
Proof.
  intros Hparse. unfold db.add, bind, getItem, lift. rewrite Hparse.
  unfold generateId, now_ISOString, Date_now, toISOString, setItem, ret, JSON_stringify.
  cbn [localStorage random_calls clock_reads].
  set (id := substr 2 9 (Math_random_text P (random_calls w))).
  set (newItem := object_literal item _).
  assert (newItem !! "id" = Some (VStr id)) as Hid by (unfold newItem; read_key).
  assert (same_id (VStr id) newItem = true) as Hsame.
  { unfold same_id, prop. rewrite Hid. cbn. apply String.eqb_refl. }
  exists newItem, id. do 2 eexists. split; [reflexivity |]. split; [exact Hid |].
  unfold db.delete, bind, getItem, lift, setItem, JSON_stringify, records.
  cbn [localStorage parse_or_empty raw_truthy JSON_parse snd].
  split; [reflexivity |]. cbn [localStorage].
  assert (List.filter (fun x => negb (same_id (VStr id) x)) (items ++ [newItem])
          = List.filter (fun x => negb (same_id (VStr id) x)) items) as ->.
  { rewrite List.filter_app. cbn [List.filter]. rewrite Hsame. cbn [negb].
    apply app_nil_r. }
  split; [reflexivity |]. intros Hfresh. apply filter_none_removed.
  intros x Hx. now rewrite (Hfresh x Hx).
Qed.

Lemma add_then_delete_restores_witness :
  exists (newItem : obj) (id : string) (w1 w2 : world),
    db.add utc_host drill (stored_as [pump; id_one]) = (Ok newItem, w1) /\
    newItem !! "id" = Some (VStr id) /\
    db.delete (VStr id) w1 = (Ok tt, w2) /\
    records w2 = List.filter (fun x => negb (same_id (VStr id) x)) [pump; id_one] /\
    ((forall x, x ∈ [pump; id_one] -> same_id (VStr id) x = false) ->
     records w2 = [pump; id_one]).
Proof. apply (add_then_delete_restores utc_host (stored_as [pump; id_one])). reflexivity. Defined.

(* --------------------------------------------------------------------- *)
(** *** Trimming and title case *)

Lemma trim_end_fixed (s : string) : ends_black s = true -> trim_end s = s.
Proof.
  induction s as [| c s IH]; [reflexivity |]. intros H.
  destruct s as [| c' s'].
  - simpl in *. now destruct (is_white c).
  - change (ends_black (String c' s') = true) in H. rewrite <- (IH H) at 2.
    change (trim_end (String c (String c' s')))
      with (match trim_end (String c' s') with
            | EmptyString => if is_white c then EmptyString else String c EmptyString
            | t => String c t
            end).
    rewrite (IH H). reflexivity.
Qed.

Lemma trim_end_ends_black (s : string) : ends_black (trim_end s) = true.
Proof.
  induction s as [| c s IH]; [reflexivity |]. simpl.
  destruct (trim_end s) as [| c' t] eqn:Ht.
  - destruct (is_white c) eqn:Hc; simpl; [reflexivity | now rewrite Hc].
  - exact IH.
Qed.

Lemma trim_start_starts_black (s : string) : starts_black (trim_start s) = true.
Proof.
  induction s as [| c s IH]; [reflexivity |]. simpl.
  destruct (is_white c) eqn:Hc; [assumption | simpl; now rewrite Hc].
Qed.

Lemma trim_start_fixed (s : string) : starts_black s = true -> trim_start s = s.
Proof. destruct s as [| c s]; [reflexivity |]. simpl. now destruct (is_white c). Qed.

Lemma trim_end_starts_black (s : string) :
  starts_black s = true -> starts_black (trim_end s) = true.
Proof.
  destruct s as [| c s]; [reflexivity |]. simpl. intros Hc.
  destruct (trim_end s); [| exact Hc].
  destruct (is_white c) eqn:Hw; [reflexivity | simpl; now rewrite Hw].
Qed.

Lemma trim_trimmed (s : string) : trimmed (trim s) = true.
Proof.
  unfold trimmed, trim. rewrite trim_end_ends_black, trim_end_starts_black;
    [reflexivity | apply trim_start_starts_black].
Qed.

Lemma trimmed_fixed (s : string) : trimmed s = true -> trim s = s.
Proof.
  unfold trimmed, trim. intros H. apply andb_true_iff in H as [Hs He].
  now rewrite (trim_start_fixed s Hs), (trim_end_fixed s He).
Qed.

Lemma same_white_trimmed (s t : string) :
  same_white s t = true -> trimmed s = trimmed t.
Proof.
  unfold trimmed. intros H. f_equal.
  - destruct s, t; try discriminate; [reflexivity |]. simpl in *.
    apply andb_true_iff in H as [H _]. apply Bool.eqb_prop in H. now rewrite H.
  - revert t H. induction s as [| c s IH]; intros [| d t] H; try discriminate; [reflexivity |].
    simpl in H. apply andb_true_iff in H as [Hc H]. apply Bool.eqb_prop in Hc.
    destruct s as [| c' s'], t as [| d' t']; try discriminate.
    + simpl. now rewrite Hc.
    + exact (IH (String d' t') H).
Qed.

Lemma upper_char_white (c : ascii) : is_white (upper_char c) = is_white c.
Proof. destruct c as [[] [] [] [] [] [] [] []]; reflexivity. Qed.

Lemma lower_char_white (c : ascii) : is_white (lower_char c) = is_white c.
Proof. destruct c as [[] [] [] [] [] [] [] []]; reflexivity. Qed.

Lemma upper_char_idem (c : ascii) : upper_char (upper_char c) = upper_char c.
Proof. destruct c as [[] [] [] [] [] [] [] []]; reflexivity. Qed.

Lemma lower_char_idem (c : ascii) : lower_char (lower_char c) = lower_char c.
Proof. destruct c as [[] [] [] [] [] [] [] []]; reflexivity. Qed.

Lemma lower_upper_char (c : ascii) : lower_char (upper_char c) = lower_char c.
Proof. destruct c as [[] [] [] [] [] [] [] []]; reflexivity. Qed.

Lemma toLowerCase_idem (s : string) : toLowerCase (toLowerCase s) = toLowerCase s.
Proof.
  unfold toLowerCase. induction s as [| c s IH]; [reflexivity |]. simpl.
  now rewrite lower_char_idem, IH.
Qed.

Lemma toLowerCase_toUpperCase (s : string) : toLowerCase (toUpperCase s) = toLowerCase s.
Proof.
  unfold toLowerCase, toUpperCase. induction s as [| c s IH]; [reflexivity |]. simpl.
  now rewrite lower_upper_char, IH.
Qed.

Lemma toLowerCase_same_white (s : string) : same_white (toLowerCase s) s = true.
Proof.
  unfold toLowerCase. induction s as [| c s IH]; [reflexivity |]. simpl.
  now rewrite lower_char_white, eqb_reflx, IH.
Qed.

Lemma title_case_cons (c : ascii) (s : string) :
  title_case (String c s) = String (upper_char c) (toLowerCase s).
Proof. reflexivity. Qed.

Lemma title_case_idem (s : string) : title_case (title_case s) = title_case s.
Proof.
  destruct s as [| c s]; [reflexivity |]. rewrite !title_case_cons.
  now rewrite upper_char_idem, toLowerCase_idem.
Qed.

Lemma title_case_trimmed (s : string) : trimmed (title_case s) = trimmed s.
Proof.
  apply same_white_trimmed. destruct s as [| c s]; [reflexivity |].
  rewrite title_case_cons. simpl.
  now rewrite upper_char_white, eqb_reflx, toLowerCase_same_white.
Qed.

Lemma normalized_unfold (v : option value) (f : string) :
  normalized v f
  = if String.eqb (trim (String_ (v ||| str ""))) EmptyString then f
    else title_case (trim (String_ (v ||| str ""))).
Proof. reflexivity. Qed.

(** A non-empty trimmed text is normalised to its title-cased form. *)
Lemma normalized_text (s f : string) :
  s <> EmptyString -> trimmed s = true -> normalized (str s) f = title_case s.
Proof.
  intros Hs Ht. rewrite normalized_unfold. unfold js_or, str.
  assert (truthy (Some (VStr s)) = true) as ->.
  { simpl. destruct (String.eqb_spec s EmptyString); [contradiction | reflexivity]. }
  cbn [String_ ToString]. rewrite (trimmed_fixed s Ht).
  destruct (String.eqb_spec s EmptyString); [contradiction | reflexivity].
Qed.

Lemma title_case_nonempty (s : string) : s <> EmptyString -> title_case s <> EmptyString.
Proof. destruct s; [contradiction | discriminate]. Qed.

Lemma normalized_again (v : option value) (f g : string) :
  normalized (str f) g = f ->
  normalized (str (normalized v f)) g = normalized v f.
Proof.
  intros Hf. rewrite (normalized_unfold v f).
  destruct (String.eqb_spec (trim (String_ (v ||| str ""))) EmptyString) as [He | Hne];
    [exact Hf |].
  rewrite normalized_text.
  - apply title_case_idem.
  - now apply title_case_nonempty.
  - rewrite title_case_trimmed. apply trim_trimmed.
Qed.

Lemma plain_text_converts (e : option value) : plain_text e = true -> converts e = true.
Proof. unfold plain_text. now destruct (converts e). Qed.

Lemma normalizeEnum_again (v : option value) (f g : string) :
  converts v = true ->
  normalizeEnum (str f) g = Ok f ->
  exists s : string, normalizeEnum v f = Ok s /\ normalizeEnum (str s) g = Ok s.
Proof.
  intros Hv Hf. exists (normalized v f). split; [now apply normalizeEnum_returns |].
  rewrite normalizeEnum_returns in Hf |- * by reflexivity. injection Hf as Hf.
  f_equal. now apply normalized_again.
Qed.

(** X7: normalising a normalised label changes nothing. For a value whose
    text is in ASCII (an integer being a safe one), and for a fallback in
    ASCII that [normalizeEnum] leaves as it is (as it does 'Available' and
    'Other'), [normalizeEnum] returns a label that it maps to itself. *)
Theorem normalizeEnum_is_idempotent (v : option value) (f g : string) :
  plain_text v = true ->
  ascii_text f = true ->
  normalizeEnum (str f) g = Ok f ->
  exists s : string, normalizeEnum v f = Ok s /\ normalizeEnum (str s) g = Ok s.
Proof.
  intros Hv _ Hf. apply normalizeEnum_again; [now apply plain_text_converts | exact Hf].
Qed.

Lemma normalizeEnum_is_idempotent_witness :
  (exists s : string,
      normalizeEnum (str " bREAKDOWN ") "Available" = Ok s /\
      normalizeEnum (str s) "Available" = Ok s) /\
  (exists s : string,
      normalizeEnum None "Other" = Ok s /\ normalizeEnum (str s) "Other" = Ok s).
Proof.
  split.
  - exact (normalizeEnum_is_idempotent (str " bREAKDOWN ") "Available" "Available"
             eq_refl eq_refl eq_refl).
  - exact (normalizeEnum_is_idempotent None "Other" "Other" eq_refl eq_refl eq_refl).
Defined.

(* --------------------------------------------------------------------- *)
(** *** The mapped record *)

Lemma normalized_title_cased (v : option value) (f : string) :
  title_cased f = true -> title_cased (normalized v f) = true.
Proof.
  intros Hf. rewrite normalized_unfold.
  destruct (String.eqb_spec (trim (String_ (v ||| str ""))) EmptyString) as [He | Hne];
    [exact Hf |].
  destruct (trim (String_ (v ||| str ""))) as [| c rest]; [contradiction |].
  rewrite title_case_cons.
  change (negb (is_lower_letter (upper_char c)) && no_upper (toLowerCase rest) = true).
  now rewrite upper_char_not_lower, toLowerCase_no_upper.
Qed.

Lemma iso_text_truthy (t : Z) : truthy (Some (VStr (iso_text t))) = true.
Proof. destruct (iso_text_nonempty t) as (c & s & ->). reflexivity. Qed.

(** X8: the record the mapper returns, when the mapper accepts the source,
    holds a string under each of the thirteen text fields of [Equipment] and
    a truthy [createdAt], and under every key outside the schema what the
    source held there; its [status] and its [type] are in title case when
    the text of the source's is in ASCII (an integer being a safe one). *)
Theorem mapped_record_fills_the_schema (P : platform) (item : obj) (w : world) :
  mappable item = true ->
  exists (o : obj) (w' : world),
    mapItem P item w = (Ok o, w') /\
    (forall key : string, key ∈ Equipment_text_keys -> exists s, o !! key = Some (VStr s)) /\
    truthy (o !! "createdAt") = true /\
    (plain_text (prop item "status") = true ->
     exists status : string, o !! "status" = Some (VStr status) /\ title_cased status = true) /\
    (plain_text (prop item "type") = true ->
     exists type : string, o !! "type" = Some (VStr type) /\ title_cased type = true) /\
    (forall key : string,
        key ∉ Equipment_text_keys -> key <> "createdAt" -> o !! key = item !! key).
Proof.
  intros Hm.
  destruct (mapItem_returns P item w Hm) as (due & issue & w' & _ & _ & Hrun & _).
  eexists; exists w'. split; [exact Hrun |]. unfold mapped.
  split; [| split; [| split; [| split]]].
  - intros key Hkey. unfold Equipment_text_keys in Hkey.
    repeat (apply elem_of_cons in Hkey as [-> | Hkey];
            [eexists; rewrite lookup_object_literal; reflexivity |]).
    inversion Hkey.
  - rewrite lookup_object_literal. cbn [written fold_left fst snd String.eqb Ascii.eqb Bool.eqb].
    destruct (truthy (prop item "createdAt")) eqn:Hc; [| apply iso_text_truthy].
    destruct (prop item "createdAt"); [exact Hc | discriminate].
  - intros _. eexists. split; [rewrite lookup_object_literal; reflexivity |].
    now apply normalized_title_cased.
  - intros _. eexists. split; [rewrite lookup_object_literal; reflexivity |].
    now apply normalized_title_cased.
  - intros key Hkey Hcreated. rewrite lookup_object_literal. unfold written.
    cbn [fold_left fst snd]. unfold Equipment_text_keys in Hkey.
    repeat match goal with
           | |- context [String.eqb ?k key] =>
               destruct (String.eqb_spec k key) as [<- | _];
               [first [contradiction | exfalso; apply Hkey; repeat constructor] |]
           end.
    reflexivity.
Qed.

Lemma mapped_record_fills_the_schema_witness :
  exists (o : obj) (w' : world),
    mapItem utc_host drill fresh = (Ok o, w') /\
    (exists s, o !! "remarks" = Some (VStr s)) /\
    (exists status : string, o !! "status" = Some (VStr status) /\ title_cased status = true) /\
    o !! "equipment_name" = Some (VStr "Drill").
Proof.
  destruct (mapped_record_fills_the_schema utc_host drill fresh eq_refl)
    as (o & w' & Hrun & Htext & _ & Hstatus & _ & Hother).
  exists o, w'. split; [exact Hrun |]. split; [| split].
  - apply Htext. unfold Equipment_text_keys. repeat constructor.
  - exact (Hstatus eq_refl).
  - rewrite Hother; [reflexivity | | discriminate].
    unfold Equipment_text_keys. intros Hin.
    repeat (apply elem_of_cons in Hin as [Hin | Hin]; [discriminate |]).
    inversion Hin.
Defined.

Lemma all_falsy_cons (item : obj) (key : string) (keys : list string) :
  all_falsy item (key :: keys) = true ->
  truthy (prop item key) = false /\ all_falsy item keys = true.
Proof.
  unfold all_falsy. simpl. intros H. apply andb_true_iff in H as [H1 H2].
  apply negb_true_iff in H1. now split.
Qed.

Ltac use_falsy H :=
  repeat (apply all_falsy_cons in H as [?Hf H]);
  unfold js_or, mapped_name, mapped_assignee, js_or;
  repeat (progress (repeat match goal with
                            | Hf : truthy _ = false |- _ => rewrite Hf
                            end; cbv iota)).

(** X9: what the mapper writes, when it accepts the source, for a field the
    source gives nothing for, that is when each key it reads for the field
    is missing or holds a falsy value: 'N/A' for the serial number, 'Unknown
    Equipment' for the name, 'Available' for the status, 'Other' for the
    type, the empty text for the dates, the employee, the assignee, the
    location, the remarks, the service and the department, a generated
    identifier, and the ISO text of the clock for [createdAt]. *)
Theorem mapped_record_defaults (P : platform) (item : obj) (w : world) :
  mappable item = true ->
  exists (o : obj) (w' : world),
    mapItem P item w = (Ok o, w') /\
    (all_falsy item ["serialNumber"; "serial_number"; "SerialNumber"] = true ->
     o !! "serialNumber" = Some (VStr "N/A")) /\
    (all_falsy item ["name"; "equipment_name"] = true ->
     o !! "name" = Some (VStr "Unknown Equipment")) /\
    (all_falsy item ["status"] = true -> o !! "status" = Some (VStr "Available")) /\
    (all_falsy item ["type"] = true -> o !! "type" = Some (VStr "Other")) /\
    (all_falsy item ["dueDate"; "due_date"] = true -> o !! "dueDate" = Some (VStr "")) /\
    (all_falsy item ["issueDate"; "issue_date"] = true -> o !! "issueDate" = Some (VStr "")) /\
    (all_falsy item ["empId"; "emp_id"; "employee_id"] = true ->
     o !! "empId" = Some (VStr "")) /\
    (all_falsy item ["assigneeName"; "assignee_name"; "equipment_name"] = true ->
     o !! "assigneeName" = Some (VStr "")) /\
    (all_falsy item ["location"] = true -> o !! "location" = Some (VStr "")) /\
    (all_falsy item ["remarks"] = true -> o !! "remarks" = Some (VStr "")) /\
    (all_falsy item ["service"; "services"] = true -> o !! "service" = Some (VStr "")) /\
    (all_falsy item ["department"] = true -> o !! "department" = Some (VStr "")) /\
    (all_falsy item ["id"] = true ->
     o !! "id" = Some (VStr (substr 2 9 (Math_random_text P (random_calls w))))) /\
    (all_falsy item ["createdAt"] = true ->
     o !! "createdAt" = Some (VStr (iso_text (clock P (clock_reads w))))).
Proof.
  intros Hm.
  destruct (mapItem_returns P item w Hm) as (due & issue & w' & Hdue & Hissue & Hrun & _).
  eexists; exists w'. split; [exact Hrun |]. unfold mapped.
  repeat split; intros H; rewrite lookup_object_literal;
    cbn [written fold_left fst snd String.eqb Ascii.eqb Bool.eqb].
  - use_falsy H. reflexivity.
  - use_falsy H. reflexivity.
  - rewrite normalized_unfold. use_falsy H. reflexivity.
  - rewrite normalized_unfold. use_falsy H. reflexivity.
  - revert Hdue. unfold safeDate. use_falsy H. cbn. congruence.
  - revert Hissue. unfold safeDate. use_falsy H. cbn. congruence.
  - use_falsy H. reflexivity.
  - use_falsy H. reflexivity.
  - use_falsy H. reflexivity.
  - use_falsy H. reflexivity.
  - use_falsy H. reflexivity.
  - use_falsy H. reflexivity.
  - use_falsy H. reflexivity.
  - use_falsy H. reflexivity.
Qed.

Lemma mapped_record_defaults_witness :
  exists (o : obj) (w' : world),
    mapItem utc_host ∅ fresh = (Ok o, w') /\
    o !! "serialNumber" = Some (VStr "N/A") /\
    o !! "name" = Some (VStr "Unknown Equipment") /\
    o !! "status" = Some (VStr "Available") /\
    o !! "type" = Some (VStr "Other") /\
    o !! "dueDate" = Some (VStr "") /\
    o !! "issueDate" = Some (VStr "") /\
    o !! "empId" = Some (VStr "") /\
    o !! "assigneeName" = Some (VStr "") /\
    o !! "location" = Some (VStr "") /\
    o !! "remarks" = Some (VStr "") /\
    o !! "service" = Some (VStr "") /\
    o !! "department" = Some (VStr "") /\
    o !! "id" = Some (VStr "4fzyo82mv") /\
    o !! "createdAt" = Some (VStr "2024-01-01T00:00:00.000Z").
Proof.
  assert (mappable (∅ : obj) = true) as Hm by reflexivity.
  destruct (mapped_record_defaults utc_host ∅ fresh Hm)
    as (o & w' & Hrun & H1 & H2 & H3 & H4 & H5 & H6 & H7 & H8 & H9 & H10 & H11 & H12 & H13 & H14).
  exists o, w'. split; [exact Hrun |].
  split; [exact (H1 eq_refl) |]. split; [exact (H2 eq_refl) |].
  split; [exact (H3 eq_refl) |]. split; [exact (H4 eq_refl) |].
  split; [exact (H5 eq_refl) |]. split; [exact (H6 eq_refl) |].
  split; [exact (H7 eq_refl) |]. split; [exact (H8 eq_refl) |].
  split; [exact (H9 eq_refl) |]. split; [exact (H10 eq_refl) |].
  split; [exact (H11 eq_refl) |]. split; [exact (H12 eq_refl) |].
  split; [exact (H13 eq_refl) | exact (H14 eq_refl)].
Defined.

Lemma safeDate_again (P : platform) (val : option value) :
  converts val = true ->
  exists s : string, safeDate P val = Ok s /\ safeDate P (str s) = Ok s.
Proof.
  intros Hval. destruct (safeDate_returns P val Hval) as (s & Hs & [-> | (t & _ & -> & Hback)]).
  - exists EmptyString. now split.
  - exists (iso_text t). split; [exact Hs |].
    unfold safeDate, new_Date_or_throw, str. rewrite iso_text_truthy. cbn [negb converts has_primitive].
    rewrite Hback. reflexivity.
Qed.

(** X10: on a value that has a primitive form [safeDate] returns a text that
    it maps to itself: the empty text stays empty, and an ISO text is read as
    the instant it prints. On any other value it throws a TypeError. *)
Theorem safeDate_is_idempotent (P : platform) (val : option value) :
  (converts val = true ->
   exists s : string, safeDate P val = Ok s /\ safeDate P (str s) = Ok s) /\
  (converts val = false -> safeDate P val = Throw TypeError).
Proof. split; [apply safeDate_again | apply safeDate_throws]. Qed.

Lemma safeDate_is_idempotent_witness :
  (exists s : string,
      safeDate utc_host (str "2024-01-01") = Ok s /\ safeDate utc_host (str s) = Ok s) /\
  safeDate utc_host (Some (VArr [no_primitive])) = Throw TypeError.
Proof.
  split.
  - exact (proj1 (safeDate_is_idempotent utc_host (str "2024-01-01")) eq_refl).
  - exact (proj2 (safeDate_is_idempotent utc_host (Some (VArr [no_primitive]))) eq_refl).
Defined.

Lemma converts_or_both (a b : option value) :
  converts a = true -> converts b = true -> converts (a ||| b) = true.
Proof. intros Ha Hb. rewrite converts_or. now destruct (truthy a). Qed.

Lemma fields_convert_lookup (item : obj) (key : string) :
  fields_convert item = true -> key ∈ mapper_keys -> converts (prop item key) = true.
Proof.
  unfold fields_convert. rewrite forallb_forall. intros H Hin.
  apply H. now apply list_elem_of_In.
Qed.

(** The mapper accepts a record all of whose fields convert. *)
Lemma fields_convert_mappable (item : obj) :
  fields_convert item = true -> mappable item = true.
Proof.
  intros H.
  assert (forall key, key ∈ mapper_keys -> converts (prop item key) = true) as Hk
    by (intros key Hin; now apply fields_convert_lookup).
  unfold mappable, coerced. cbn [forallb]. unfold mapped_name, mapped_assignee.
  repeat (apply andb_true_iff; split);
    repeat first
      [ reflexivity
      | apply converts_or_both
      | apply Hk; unfold mapper_keys; repeat constructor; fail
      | match goal with |- context [if ?b then _ else _] => destruct b end ].
Qed.

(** So do all the fields of the record the mapper returns for it. *)
Lemma fields_convert_mapped (item : obj) (dueDate issueDate id : string) (createdAt : value) :
  fields_convert item = true ->
  fields_convert (mapped item dueDate issueDate id createdAt) = true.
Proof.
  intros H.
  assert (forall key, key ∈ mapper_keys -> converts (item !! key) = true) as Hk
    by (intros key Hin; now apply fields_convert_lookup).
  unfold fields_convert, mapper_keys. cbn [forallb]. unfold prop, mapped.
  rewrite !lookup_object_literal.
  cbn [written fold_left fst snd String.eqb Ascii.eqb Bool.eqb converts has_primitive andb].
  repeat (apply andb_true_iff; split);
    first [reflexivity | apply Hk; unfold mapper_keys; repeat constructor].
Qed.

(** X11: mapping a record that the mapper produced (as importing an export
    of the store does) keeps its [createdAt], its [status] and its [type],
    and keeps its [id] unless that is the empty text, which the generator can
    produce and which is then replaced by a newly generated identifier.
    Stated for a source all of whose fields have a primitive form and whose
    [status] and [type] have a text in ASCII that prints safe integers
    only. *)
Theorem mapping_again_keeps_identity_and_labels (P : platform) (item : obj) (w : world) :
  fields_convert item = true ->
  plain_text (prop item "status") = true ->
  plain_text (prop item "type") = true ->
  exists (o o2 : obj) (w1 w2 : world),
    mapItem P item w = (Ok o, w1) /\
    mapItem P o w1 = (Ok o2, w2) /\
    o2 !! "createdAt" = o !! "createdAt" /\
    o2 !! "status" = o !! "status" /\
    o2 !! "type" = o !! "type" /\
    o2 !! "id" = (if truthy (o !! "id") then o !! "id"
                  else Some (VStr (substr 2 9 (Math_random_text P (random_calls w1))))).
Proof.
  intros Hfields _ _.
  destruct (mapItem_returns P item w (fields_convert_mappable item Hfields))
    as (due & issue & w1 & _ & _ & Hrun & _).
  set (id := if truthy (prop item "id") then _ else _) in Hrun.
  set (created := if truthy (prop item "createdAt") then _ else _) in Hrun.
  pose proof (fields_convert_mapped item due issue id created Hfields) as Hfields'.
  set (o := mapped item due issue id created) in Hrun, Hfields'.
  assert (o !! "id" = Some (VStr id)) as Hid
    by (unfold o, mapped; rewrite lookup_object_literal; reflexivity).
  assert (o !! "createdAt" = Some created) as Hcreated
    by (unfold o, mapped; rewrite lookup_object_literal; reflexivity).
  assert (o !! "status" = Some (VStr (normalized (prop item "status") "Available")))
    as Hstatus by (unfold o, mapped; rewrite lookup_object_literal; reflexivity).
  assert (o !! "type" = Some (VStr (normalized (prop item "type") "Other")))
    as Htype by (unfold o, mapped; rewrite lookup_object_literal; reflexivity).
  assert (truthy (Some created) = true) as Htruthy.
  { unfold created. destruct (truthy (prop item "createdAt")) eqn:Hc; [| apply iso_text_truthy].
    destruct (prop item "createdAt"); [exact Hc | discriminate]. }
  destruct (mapItem_returns P o w1 (fields_convert_mappable o Hfields'))
    as (due2 & issue2 & w2 & _ & _ & Hrun2 & _).
  exists o. eexists. exists w1, w2. split; [exact Hrun |]. split; [exact Hrun2 |].
  unfold mapped at 1 2 3 4. rewrite !lookup_object_literal.
  cbn [written fold_left fst snd String.eqb Ascii.eqb Bool.eqb].
  unfold prop. rewrite Hid, Hcreated, Hstatus, Htype, Htruthy. cbn [default].
  split; [reflexivity |].
  split; [do 2 f_equal; now apply normalized_again |].
  split; [do 2 f_equal; now apply normalized_again |].
  now destruct (truthy (Some (VStr id))).
Qed.

Lemma mapping_again_keeps_identity_and_labels_witness :
  exists (o o2 : obj) (w1 w2 : world),
    mapItem utc_host drill fresh = (Ok o, w1) /\
    mapItem utc_host o w1 = (Ok o2, w2) /\
    o2 !! "createdAt" = o !! "createdAt" /\
    o2 !! "status" = o !! "status" /\
    o2 !! "type" = o !! "type" /\
    o2 !! "id" = (if truthy (o !! "id") then o !! "id"
                  else Some (VStr (substr 2 9 (Math_random_text utc_host (random_calls w1))))).
Proof.
  exact (mapping_again_keeps_identity_and_labels utc_host drill fresh eq_refl eq_refl eq_refl).
Defined.

(* --------------------------------------------------------------------- *)
(** *** The dashboard counters *)

Lemma stats_step_components (P : platform) (limit : option Z) (item : obj)
    (e b m : nat) (bt : gmap string nat) :
  stats_step P limit (e, b, m, bt) item
  = (fst (fst (fst (stats_step P limit (e, b, m, bt) item))),
     (b + if String.eqb (status_label item) "breakdown" then 1 else 0)%nat,
     (m + if String.eqb (status_label item) "maintenance" then 1 else 0)%nat,
     <[bucket_of item := S (default O (bt !! bucket_of item))]> bt).
Proof.
  unfold stats_step, status_label, bucket_of, title_case, js_or. cbn [fst].
  change (toLowerCase "Breakdown") with "breakdown".
  change (toLowerCase "Maintenance") with "maintenance".
  destruct (truthy (prop item "status")); cbn [String_ ToString str];
    [| change (trim (toLowerCase "")) with ""; cbn [String.eqb];
       rewrite !Nat.add_0_r; reflexivity].
  destruct (String.eqb _ "breakdown"), (String.eqb _ "maintenance");
    rewrite ?Nat.add_0_r, ?Nat.add_1_r; reflexivity.
Qed.

Lemma count_cons (p : obj -> bool) (item : obj) (data : list obj) :
  count p (item :: data) = ((if p item then 1 else 0) + count p data)%nat.
Proof. unfold count. simpl. now destruct (p item). Qed.

Lemma fold_stats_counts (P : platform) (limit : option Z) (data : list obj)
    (e b m : nat) (bt : gmap string nat) :
  exists e' bt',
    fold_left (stats_step P limit) data (e, b, m, bt)
    = (e',
       (b + count (fun item => String.eqb (status_label item) "breakdown") data)%nat,
       (m + count (fun item => String.eqb (status_label item) "maintenance") data)%nat,
       bt') /\
    (e <= e' <= e + List.length data)%nat /\
    forall key : string,
      default O (bt' !! key)
      = (default O (bt !! key) + count (fun item => String.eqb (bucket_of item) key) data)%nat.
Proof.
  revert e b m bt. induction data as [| item data IH]; intros e b m bt.
  - exists e, bt. unfold count. simpl. rewrite !Nat.add_0_r.
    split; [reflexivity |]. split; [lia | intros; lia].
  - cbn [fold_left]. rewrite stats_step_components.
    set (e1 := fst (fst (fst (stats_step P limit (e, b, m, bt) item)))).
    assert (e <= e1 <= S e)%nat as He1.
    { unfold e1, stats_step. cbn [fst].
      destruct (truthy (prop item "dueDate")); [| lia].
      destruct (negb _ && _); lia. }
    destruct (IH e1 (b + (if String.eqb (status_label item) "breakdown" then 1 else 0))%nat
                (m + (if String.eqb (status_label item) "maintenance" then 1 else 0))%nat
                (<[bucket_of item := S (default O (bt !! bucket_of item))]> bt))
      as (e' & bt' & Hfold & He' & Hbt').
    exists e', bt'. rewrite Hfold. rewrite !count_cons.
    split; [| split].
    + rewrite !Nat.add_assoc. reflexivity.
    + simpl. lia.
    + intros key. rewrite Hbt', count_cons.
      destruct (String.eqb_spec (bucket_of item) key) as [<- | Hne].
      * rewrite lookup_insert_eq. simpl. lia.
      * rewrite lookup_insert_ne by assumption. lia.
Qed.

Lemma count_le (p : obj -> bool) (data : list obj) : (count p data <= List.length data)%nat.
Proof. unfold count. induction data as [| x data IH]; simpl; [lia |]. destruct (p x); simpl; lia. Qed.

Lemma count_disjoint (p q : obj -> bool) (data : list obj) :
  (forall x, p x = true -> q x = false) ->
  (count p data + count q data <= List.length data)%nat.
Proof.
  intros H. unfold count. induction data as [| x data IH]; simpl; [lia |].
  destruct (p x) eqn:Hp; [rewrite (H x Hp) |]; [simpl; lia |].
  destruct (q x); simpl; lia.
Qed.

(** X12: the counters of the dashboard. [breakdown] and [maintenance] are
    the numbers of records whose status, in lower case and trimmed, is
    'breakdown' and 'maintenance'; [total] is the number of records; no
    record is counted in both, so their sum is at most [total], and so is
    [expired]. *)
Theorem stats_counts_statuses (P : platform) (k : nat) (data : list obj) :
  let s := stats P k data in
  breakdown s = count (fun item => String.eqb (status_label item) "breakdown") data /\
  maintenance s = count (fun item => String.eqb (status_label item) "maintenance") data /\
  total s = List.length data /\
  (breakdown s + maintenance s <= total s)%nat /\
  (expired s <= total s)%nat.
Proof.
  unfold stats.
  destruct (fold_stats_counts P
              (setDate P (Date_now P (S k)) (d ← getDate P (Date_now P k); Some (d + 30)))
              data O O O ∅) as (e' & bt' & -> & He' & _).
  cbn [breakdown maintenance total expired].
  repeat split; try lia.
  apply count_disjoint. intros x Hx. apply String.eqb_eq in Hx. now rewrite Hx.
Qed.

(** X13: the chart of the dashboard has a bucket for a name exactly when
    some record has that name as its type (trimmed, in title case, 'Other'
    for a falsy type), and the bucket holds the number of these records. The
    name [__proto__] is left out: [byType] is a plain object, whose
    [__proto__] is no data property. *)
Theorem stats_buckets_by_type (P : platform) (k : nat) (data : list obj) (key : string) :
  key <> "__proto__" ->
  byType (stats P k data) !! key
  = (let n := count (fun item => String.eqb (bucket_of item) key) data in
     if (n =? 0)%nat then None else Some n).
Proof.
  intros _. unfold stats.
  generalize (setDate P (Date_now P (S k)) (d ← getDate P (Date_now P k); Some (d + 30))).
  intros limit. cbn zeta.
  assert (forall (data : list obj) (acc : nat * nat * nat * gmap string nat),
             (forall key n, snd acc !! key = Some n -> (0 < n)%nat) ->
             forall key n, snd (fold_left (stats_step P limit) data acc) !! key = Some n ->
                           (0 < n)%nat) as Hpositive.
  { clear. induction data as [| item data IH]; intros [[[e b] m] bt] Hacc; [exact Hacc |].
    cbn [fold_left]. rewrite stats_step_components. apply IH. cbn [snd].
    intros key n. destruct (String.eqb_spec (bucket_of item) key) as [<- | Hne].
    - rewrite lookup_insert_eq. intros [= <-]. lia.
    - rewrite lookup_insert_ne by assumption. apply (Hacc key n). }
  specialize (Hpositive data (O, O, O, ∅)).
  destruct (fold_stats_counts P limit data O O O ∅) as (e' & bt' & Hfold & _ & Hbt').
  rewrite Hfold in Hpositive |- *. cbn [byType snd] in *.
  specialize (Hbt' key). rewrite lookup_empty in Hbt'. simpl in Hbt'.
  cbv zeta. rewrite <- Hbt'.
  destruct (bt' !! key) as [n |] eqn:Hn; simpl; [| reflexivity].
  assert (0 < n)%nat as Hpos.
  { apply (Hpositive ltac:(intros ? ?; rewrite lookup_empty; discriminate) key n Hn). }
  destruct (Nat.eqb_spec n 0); [lia | reflexivity].
Qed.

Lemma stats_buckets_by_type_witness :
  byType (stats utc_host 0 [drill; <["type" := VStr " laptop"]> pump; pump]) !! "Other"
    = Some 2%nat /\
  byType (stats utc_host 0 [drill; <["type" := VStr " laptop"]> pump; pump]) !! "Laptop"
    = Some 1%nat /\
  byType (stats utc_host 0 [drill; <["type" := VStr " laptop"]> pump; pump]) !! "laptop"
    = None.
Proof.
  split; [| split].
  - rewrite (stats_buckets_by_type utc_host 0
               [drill; <["type" := VStr " laptop"]> pump; pump] "Other") by discriminate.
    reflexivity.
  - rewrite (stats_buckets_by_type utc_host 0
               [drill; <["type" := VStr " laptop"]> pump; pump] "Laptop") by discriminate.
    reflexivity.
  - rewrite (stats_buckets_by_type utc_host 0
               [drill; <["type" := VStr " laptop"]> pump; pump] "laptop") by discriminate.
    reflexivity.
Defined.

Lemma upper_lower_char (c : ascii) : upper_char (lower_char c) = upper_char c.
Proof. destruct c as [[] [] [] [] [] [] [] []]; reflexivity. Qed.

(** A label in title case is determined by its lower-case form. *)
Lemma title_case_of_lower (r l : string) :
  title_case r = r -> toLowerCase r = toLowerCase l -> r = title_case l.
Proof.
  intros Hr Hlow. destruct r as [| c rest], l as [| d lrest]; try discriminate; [reflexivity |].
  rewrite title_case_cons in *. injection Hr as Hc Hrest.
  unfold toLowerCase in Hlow. simpl in Hlow. injection Hlow as Hcd Hrests.
  fold (toLowerCase rest) in Hrests. fold (toLowerCase lrest) in Hrests.
  f_equal.
  - rewrite <- Hc at 1. now rewrite <- (upper_lower_char c), Hcd, upper_lower_char.
  - rewrite <- Hrests. now symmetry.
Qed.

Lemma normalized_normal (v : option value) (f : string) :
  title_case f = f -> trimmed f = true -> f <> EmptyString ->
  let r := normalized v f in
  title_case r = r /\ trimmed r = true /\ r <> EmptyString.
Proof.
  intros Hf Ht Hne. cbv zeta. rewrite normalized_unfold.
  destruct (String.eqb_spec (trim (String_ (v ||| str ""))) EmptyString) as [He | Hn];
    [now repeat split |].
  split; [apply title_case_idem |]. split.
  - rewrite title_case_trimmed. apply trim_trimmed.
  - now apply title_case_nonempty.
Qed.

(** The labels of a mapped record, as the dashboard reads them. *)
Lemma mapped_labels (item : obj) (dueDate issueDate id : string) (createdAt : value) :
  let o := mapped item dueDate issueDate id createdAt in
  let status := normalized (prop item "status") "Available" in
  let type := normalized (prop item "type") "Other" in
  o !! "status" = Some (VStr status) /\
  o !! "type" = Some (VStr type) /\
  bucket_of o = type /\
  String.eqb (status_label o) "breakdown" = String.eqb status "Breakdown" /\
  String.eqb (status_label o) "maintenance" = String.eqb status "Maintenance".
Proof.
  cbv zeta. unfold mapped.
  split; [rewrite lookup_object_literal; reflexivity |].
  split; [rewrite lookup_object_literal; reflexivity |].
  destruct (normalized_normal (prop item "status") "Available")
    as (Hs1 & Hs2 & Hs3); [reflexivity .. | discriminate |].
  destruct (normalized_normal (prop item "type") "Other")
    as (Ht1 & Ht2 & Ht3); [reflexivity .. | discriminate |].
  set (status := normalized (prop item "status") "Available") in *.
  set (type := normalized (prop item "type") "Other") in *.
  assert (forall s, s <> EmptyString -> truthy (Some (VStr s)) = true) as Htruthy.
  { intros s Hs. simpl. now destruct (String.eqb_spec s EmptyString). }
  unfold bucket_of, status_label, prop, js_or. rewrite !lookup_object_literal.
  cbn [written fold_left fst snd String.eqb Ascii.eqb Bool.eqb].
  rewrite (Htruthy status Hs3), (Htruthy type Ht3). cbn [String_ ToString].
  rewrite (trimmed_fixed type Ht2).
  assert (trim (toLowerCase status) = toLowerCase status) as ->.
  { apply trimmed_fixed. rewrite (same_white_trimmed _ status); [assumption |].
    apply toLowerCase_same_white. }
  split; [exact Ht1 |].
  assert (forall label, title_case label = label ->
            String.eqb (toLowerCase status) (toLowerCase label) = String.eqb status label)
    as Hlabel.
  { intros label Hl. destruct (String.eqb_spec status label) as [-> | Hne].
    - apply String.eqb_refl.
    - apply String.eqb_neq. intros Heq. apply Hne.
      rewrite <- Hl. now apply title_case_of_lower. }
  split; [exact (Hlabel "Breakdown" eq_refl) | exact (Hlabel "Maintenance" eq_refl)].
Qed.

(** The statistics of one record. *)
Lemma stats_one (P : platform) (k : nat) (o : obj) :
  byType (stats P k [o]) = <[bucket_of o := 1%nat]> ∅ /\
  breakdown (stats P k [o])
    = (if String.eqb (status_label o) "breakdown" then 1 else 0)%nat /\
  maintenance (stats P k [o])
    = (if String.eqb (status_label o) "maintenance" then 1 else 0)%nat.
Proof.
  unfold stats. cbn [fold_left]. rewrite stats_step_components.
  cbn [byType breakdown maintenance]. rewrite lookup_empty. cbn [default].
  repeat split.
Qed.

(** X14: the dashboard and the import agree on labels. For a record that the
    mapper accepts and whose [status] and [type] have a text in ASCII that
    prints safe integers only, the dashboard files the mapped record under
    its stored [type] (unless that is [__proto__], which is no data property
    of the plain object [byType]) and counts it as breakdown or maintenance
    exactly when its stored [status] is 'Breakdown' or 'Maintenance'. *)
Theorem dashboard_agrees_with_import (P : platform) (item : obj) (w : world) (k : nat) :
  mappable item = true ->
  plain_text (prop item "status") = true ->
  plain_text (prop item "type") = true ->
  exists (o : obj) (w' : world) (status type : string),
    mapItem P item w = (Ok o, w') /\
    o !! "status" = Some (VStr status) /\
    o !! "type" = Some (VStr type) /\
    (type <> "__proto__" -> byType (stats P k [o]) !! type = Some 1%nat) /\
    breakdown (stats P k [o]) = (if String.eqb status "Breakdown" then 1 else 0)%nat /\
    maintenance (stats P k [o]) = (if String.eqb status "Maintenance" then 1 else 0)%nat.
Proof.
  intros Hm _ _.
  destruct (mapItem_returns P item w Hm) as (due & issue & w' & _ & _ & Hrun & _).
  eexists; exists w'.
  exists (normalized (prop item "status") "Available"),
         (normalized (prop item "type") "Other").
  split; [exact Hrun |].
  match goal with
  | |- context [mapped ?i ?d ?s ?n ?c] =>
      destruct (mapped_labels i d s n c) as (Hstatus & Htype & Hbucket & Hbreak & Hmaint);
      destruct (stats_one P k (mapped i d s n c)) as (Hby & Hb & Hma)
  end.
  split; [exact Hstatus |]. split; [exact Htype |].
  split; [intros _; rewrite Hby, Hbucket; apply lookup_insert_eq |].
  split; [now rewrite Hb, Hbreak | now rewrite Hma, Hmaint].
Qed.

Lemma dashboard_agrees_with_import_witness :
  exists (o : obj) (w' : world) (status type : string),
    mapItem utc_host (<["status" := VStr " bREAKDOWN"]> drill) fresh = (Ok o, w') /\
    o !! "status" = Some (VStr status) /\
    o !! "type" = Some (VStr type) /\
    (type <> "__proto__" -> byType (stats utc_host 0 [o]) !! type = Some 1%nat) /\
    breakdown (stats utc_host 0 [o]) = (if String.eqb status "Breakdown" then 1 else 0)%nat /\
    maintenance (stats utc_host 0 [o])
      = (if String.eqb status "Maintenance" then 1 else 0)%nat.
Proof.
  exact (dashboard_agrees_with_import utc_host (<["status" := VStr " bREAKDOWN"]> drill)
           fresh 0 eq_refl eq_refl eq_refl).
Defined.

(* --------------------------------------------------------------------- *)
(** *** The list: filters, export and import *)

Lemma append_assoc (a b c : string) : (a ++ b) ++ c = a ++ (b ++ c).
Proof. induction a as [| x a IH]; [reflexivity |]. rewrite !append_cons. now rewrite IH. Qed.

Lemma append_empty (a : string) : a ++ EmptyString = a.
Proof. induction a as [| x a IH]; [reflexivity |]. rewrite append_cons. now rewrite IH. Qed.

(** Reading the inside of a quoted field that the export wrote. *)
Lemma csv_read_quoted (text field : string) (row : list string) (rows : list (list string))
    (rest : string) :
  csv_read Quoted field row rows (double_quotes text ++ String quote rest)
  = csv_read QuoteSeen (field ++ text) row rows rest.
Proof.
  revert field. induction text as [| c text IH]; intros field.
  - rewrite append_nil, append_empty. cbn [double_quotes csv_read].
    change (Ascii.eqb quote quote) with true. reflexivity.
  - cbn [double_quotes]. destruct (Ascii.eqb c quote) eqn:Hc.
    + apply Ascii.eqb_eq in Hc. subst c. rewrite !append_cons. cbn [csv_read].
      change (Ascii.eqb quote quote) with true. cbv iota.
      rewrite IH. now rewrite append_assoc.
    + rewrite append_cons. cbn [csv_read]. rewrite Hc.
      rewrite IH. now rewrite append_assoc.
Qed.

(** Reading one field that the export wrote. *)
Lemma csv_read_field (f : option value) (field : string) (row : list string)
    (rows : list (list string)) (rest : string) :
  csv_read FieldStart field row rows (csv_field f ++ rest)
  = csv_read QuoteSeen (column_text f) row rows rest.
Proof.
  unfold csv_field. rewrite append_cons. cbn [csv_read].
  change (Ascii.eqb quote quote) with true. cbv iota.
  rewrite append_assoc, append_cons, append_nil. rewrite csv_read_quoted.
  now rewrite append_nil.
Qed.

Lemma concat_cons (sep x : string) (l : list string) :
  l <> [] -> String.concat sep (x :: l) = x ++ sep ++ String.concat sep l.
Proof. destruct l; [contradiction | reflexivity]. Qed.

(** Reading the fields of one row, up to what follows the row. *)
Lemma csv_read_row (init : list (option value)) (final : option value) (field : string)
    (row : list string) (rows : list (list string)) (rest : string) :
  csv_read FieldStart field row rows
    (String.concat "," (List.map csv_field (init ++ [final])) ++ rest)
  = csv_read QuoteSeen (column_text final) (row ++ List.map column_text init)%list rows rest.
Proof.
  revert field row. induction init as [| f init IH]; intros field row.
  - cbn [List.map app String.concat]. rewrite app_nil_r. apply csv_read_field.
  - cbn [List.map app]. rewrite concat_cons by (destruct init; discriminate).
    rewrite append_assoc, csv_read_field, append_assoc, append_cons, append_nil.
    cbn [csv_read]. change (Ascii.eqb "," quote) with false.
    change (Ascii.eqb "," ",") with true. cbv iota.
    rewrite IH. now rewrite <- app_assoc.
Qed.

Lemma csv_read_line (i : obj) (field : string) (rows : list (list string)) (rest : string) :
  csv_read FieldStart field [] rows (csv_line i ++ rest)
  = csv_read QuoteSeen (column_text (prop i "remarks"))
      (List.removelast (csv_texts i)) rows rest.
Proof.
  unfold csv_line, csv_texts, csv_columns.
  change [prop i "type"; prop i "service"; prop i "department"; prop i "status";
          prop i "name"; prop i "serialNumber"; prop i "dueDate"; prop i "issueDate";
          prop i "empId"; prop i "assigneeName"; prop i "location"; prop i "remarks"]
    with ([prop i "type"; prop i "service"; prop i "department"; prop i "status";
           prop i "name"; prop i "serialNumber"; prop i "dueDate"; prop i "issueDate";
           prop i "empId"; prop i "assigneeName"; prop i "location"] ++ [prop i "remarks"])%list.
  rewrite csv_read_row. reflexivity.
Qed.

Lemma csv_read_lines (i : obj) (items : list obj) (field : string) (rows : list (list string)) :
  csv_read FieldStart field [] rows
    (String.concat (String newline EmptyString) (List.map csv_line (i :: items)))
  = Some (rows ++ List.map csv_texts (i :: items))%list.
Proof.
  revert i field rows. induction items as [| j items IH]; intros i field rows.
  - cbn [List.map String.concat]. rewrite <- (append_empty (csv_line i)), csv_read_line.
    reflexivity.
  - cbn [List.map]. rewrite concat_cons by discriminate.
    rewrite csv_read_line, append_cons, append_nil. cbn [csv_read].
    change (Ascii.eqb newline quote) with false. change (Ascii.eqb newline ",") with false.
    change (Ascii.eqb newline newline) with true. cbv iota.
    change (csv_line j :: List.map csv_line items) with (List.map csv_line (j :: items)).
    rewrite IH. rewrite <- app_assoc. reflexivity.
Qed.

(** X15: the export reads back. Read as comma-separated text (RFC 4180),
    [csvContent] is the header row followed by one row for each record, in
    order, whose twelve fields are the string forms of the columns of the
    record (the empty text for a falsy one), whatever commas, double quotes
    and line feeds they hold. *)
Theorem export_reads_back (items : list obj) :
  csv_read FieldStart EmptyString [] [] (csvContent items)
  = Some (csv_header :: List.map csv_texts items).
Proof.
  unfold csvContent. destruct items as [| i items]; [reflexivity |].
  change (List.map (fun i0 => String.concat "," (List.map csv_field (csv_columns i0))) (i :: items))
    with (List.map csv_line (i :: items)).
  rewrite concat_cons by discriminate.
  set (body := String.concat _ (List.map csv_line (i :: items))).
  transitivity (csv_read FieldStart EmptyString [] [csv_header] body); [reflexivity |].
  unfold body. now rewrite csv_read_lines.
Qed.

Lemma filter_sublist {A} (p : A -> bool) (l : list A) : List.filter p l `sublist_of` l.
Proof.
  induction l as [| x l IH]; [constructor |]. simpl.
  destruct (p x); now constructor.
Qed.

Lemma filteredItems_steps (items : list obj) (f : option obj) (s d : string) :
  filteredItems items f s d = by_department d (by_search s (by_status f items)).
Proof. reflexivity. Qed.

Lemma filter_mono {A} (p : A -> bool) (a b : list A) :
  a `sublist_of` b -> List.filter p a `sublist_of` List.filter p b.
Proof.
  intros Hab. induction Hab as [| x a b Hab IH | x a b Hab IH]; simpl.
  - constructor.
  - destruct (p x); [now constructor | assumption].
  - destruct (p x); [now constructor | assumption].
Qed.

Lemma by_status_sublist (f : option obj) (items : list obj) : by_status f items `sublist_of` items.
Proof.
  unfold by_status. destruct f as [g |]; [| reflexivity].
  destruct (truthy (prop g "status")); [apply filter_sublist | reflexivity].
Qed.

Lemma by_search_sublist (s : string) (items : list obj) : by_search s items `sublist_of` items.
Proof. unfold by_search. destruct (truthy (str s)); [apply filter_sublist | reflexivity]. Qed.

Lemma by_department_sublist (d : string) (items : list obj) :
  by_department d items `sublist_of` items.
Proof. unfold by_department. destruct (negb _); [apply filter_sublist | reflexivity]. Qed.

Lemma by_search_mono (s : string) (a b : list obj) :
  a `sublist_of` b -> by_search s a `sublist_of` by_search s b.
Proof. unfold by_search. destruct (truthy (str s)); [apply filter_mono | trivial]. Qed.

Lemma by_department_mono (d : string) (a b : list obj) :
  a `sublist_of` b -> by_department d a `sublist_of` by_department d b.
Proof. unfold by_department. destruct (negb _); [apply filter_mono | trivial]. Qed.

Lemma truthy_map_string (f : ascii -> ascii) (s : string) :
  truthy (str (map_string f s)) = truthy (str s).
Proof. now destruct s. Qed.

Lemma by_search_case (s : string) (items : list obj) :
  by_search (toUpperCase s) items = by_search s items /\
  by_search (toLowerCase s) items = by_search s items.
Proof.
  unfold by_search.
  rewrite (truthy_map_string upper_char s : truthy (str (toUpperCase s)) = _).
  rewrite (truthy_map_string lower_char s : truthy (str (toLowerCase s)) = _).
  now rewrite toLowerCase_toUpperCase, toLowerCase_idem.
Qed.

(** The search box ignores the case of what is typed, and every filter only
    narrows the list. *)
Lemma search_case_and_narrowing (items : list obj) (f : option obj) (s d : string) :
  filteredItems items f (toUpperCase s) d = filteredItems items f s d /\
  filteredItems items f (toLowerCase s) d = filteredItems items f s d /\
  filteredItems items f s d `sublist_of` filteredItems items f EmptyString d /\
  filteredItems items f s d `sublist_of` filteredItems items f s "All" /\
  filteredItems items f s d `sublist_of` filteredItems items None s d /\
  filteredItems items f s d `sublist_of` items.
Proof.
  rewrite !filteredItems_steps.
  destruct (by_search_case s (by_status f items)) as [-> ->].
  split; [reflexivity |]. split; [reflexivity |]. repeat split.
  - apply by_department_mono, by_search_sublist.
  - apply by_department_sublist.
  - apply by_department_mono, by_search_mono, by_status_sublist.
  - etransitivity; [apply by_department_sublist |].
    etransitivity; [apply by_search_sublist | apply by_status_sublist].
Qed.

(** X16: [filteredItems] does not depend on the case of a search text in
    ASCII, and each of its three filters only narrows it: the records it
    keeps are, in order, among those kept for an empty search text, among
    those kept for all departments, among those kept without the filter of
    the dashboard, and among the records given. *)
Theorem search_ignores_case_and_filters_narrow
    (items : list obj) (f : option obj) (s d : string) :
  (ascii_text s = true ->
   filteredItems items f (toUpperCase s) d = filteredItems items f s d /\
   filteredItems items f (toLowerCase s) d = filteredItems items f s d) /\
  filteredItems items f s d `sublist_of` filteredItems items f EmptyString d /\
  filteredItems items f s d `sublist_of` filteredItems items f s "All" /\
  filteredItems items f s d `sublist_of` filteredItems items None s d /\
  filteredItems items f s d `sublist_of` items.
Proof.
  destruct (search_case_and_narrowing items f s d) as (Hupper & Hlower & Hnarrow).
  split; [intros _; now split | exact Hnarrow].
Qed.

Lemma search_ignores_case_and_filters_narrow_witness :
  filteredItems [id_one; pump; drill] None "PUMP" "All"
    = filteredItems [id_one; pump; drill] None "PuMp" "All" /\
  filteredItems [id_one; pump; drill] None "pump" "All"
    = filteredItems [id_one; pump; drill] None "PuMp" "All" /\
  filteredItems [id_one; pump; drill] None "PuMp" "All" = [pump].
Proof.
  destruct (proj1 (search_ignores_case_and_filters_narrow [id_one; pump; drill] None
                     "PuMp" "All") eq_refl) as [Hupper Hlower].
  split; [exact Hupper |]. split; [exact Hlower | reflexivity].
Defined.

Lemma count_impl (p q : obj -> bool) (data : list obj) :
  (forall x, p x = true -> q x = true) -> (count p data <= count q data)%nat.
Proof.
  intros H. induction data as [| x data IH]; [reflexivity |]. rewrite !count_cons.
  destruct (p x) eqn:Hp; [rewrite (H x Hp); lia | destruct (q x); lia].
Qed.

Lemma count_ext (p q : obj -> bool) (data : list obj) :
  Forall (fun x => p x = q x) data -> count p data = count q data.
Proof.
  intros H. induction H as [| x data Hx _ IH]; [reflexivity |].
  now rewrite !count_cons, Hx, IH.
Qed.

(** The counters of the dashboard, read off its loop. *)
Lemma stats_counters (P : platform) (k : nat) (data : list obj) :
  breakdown (stats P k data)
    = count (fun item => String.eqb (status_label item) "breakdown") data /\
  maintenance (stats P k data)
    = count (fun item => String.eqb (status_label item) "maintenance") data /\
  total (stats P k data) = List.length data /\
  (expired (stats P k data) <= List.length data)%nat.
Proof.
  unfold stats.
  destruct (fold_stats_counts P
              (setDate P (Date_now P (S k)) (d ← getDate P (Date_now P k); Some (d + 30)))
              data O O O ∅) as (e' & bt' & -> & He' & _).
  cbn [breakdown maintenance total expired]. repeat split; lia.
Qed.

Lemma status_label_lower (i : obj) : status_label i = trim (status_lower i).
Proof. reflexivity. Qed.

Lemma shown_for_card (data : list obj) (label : string) :
  label <> EmptyString ->
  filteredItems data (Some (<["status" := VStr label]> ∅)) EmptyString "All"
  = List.filter (fun i => String.eqb (status_lower i) (toLowerCase label)) data.
Proof.
  intros Hl. rewrite filteredItems_steps. unfold by_department, by_search, by_status.
  change (String.eqb "All" "All") with true. change (truthy (str EmptyString)) with false.
  cbn [negb]. unfold prop at 1. rewrite lookup_insert_eq.
  assert (truthy (Some (VStr label)) = true) as ->.
  { simpl. now destruct (String.eqb_spec label EmptyString). }
  unfold prop at 2. rewrite lookup_insert_eq. reflexivity.
Qed.

(** The list opened from a status card against the number on the card. *)
Lemma card_list_against_counter (data : list obj) (label : string) :
  label <> EmptyString -> trimmed (toLowerCase label) = true ->
  let shown := filteredItems data (Some (<["status" := VStr label]> ∅)) EmptyString "All" in
  let counted := count (fun item => String.eqb (status_label item) (toLowerCase label)) data in
  (List.length shown <= counted)%nat /\
  (Forall (fun i => trimmed (String_ (prop i "status" ||| str "")) = true) data ->
   List.length shown = counted).
Proof.
  intros Hl Ht. cbv zeta. rewrite (shown_for_card data label Hl).
  fold (count (fun i => String.eqb (status_lower i) (toLowerCase label)) data).
  split.
  - apply count_impl. intros i Hi. apply String.eqb_eq in Hi.
    rewrite status_label_lower, Hi, (trimmed_fixed _ Ht). apply String.eqb_refl.
  - intros Hdata. apply count_ext. eapply Forall_impl; [exact Hdata |].
    intros i Hi. cbn beta in *. rewrite status_label_lower. f_equal.
    symmetry. apply trimmed_fixed. unfold status_lower.
    now rewrite (same_white_trimmed _ _ (toLowerCase_same_white _)).
Qed.

(** X17: the list opened from the Breakdown or the Maintenance card of the
    dashboard keeps ([filteredItems], before any search) at most as many
    records as the card counts, and as many when no status has white space
    around it. *)
Theorem status_card_opens_the_counted_records (P : platform) (k : nat) (data : list obj) :
  let shown label :=
    filteredItems data (Some (<["status" := VStr label]> ∅)) EmptyString "All" in
  (List.length (shown "Breakdown") <= breakdown (stats P k data))%nat /\
  (List.length (shown "Maintenance") <= maintenance (stats P k data))%nat /\
  (Forall (fun i => trimmed (String_ (prop i "status" ||| str "")) = true) data ->
   List.length (shown "Breakdown") = breakdown (stats P k data) /\
   List.length (shown "Maintenance") = maintenance (stats P k data)).
Proof.
  cbv zeta. destruct (stats_counters P k data) as (-> & -> & _).
  destruct (card_list_against_counter data "Breakdown") as [Hb Hb']; [discriminate | reflexivity |].
  destruct (card_list_against_counter data "Maintenance") as [Hm Hm']; [discriminate | reflexivity |].
  split; [exact Hb |]. split; [exact Hm |]. intros Hdata. split; [now apply Hb' | now apply Hm'].
Qed.

Lemma status_card_opens_the_counted_records_witness :
  let data := [<["status" := VStr "BREAKDOWN"]> ∅; <["status" := VStr "Maintenance"]> ∅; pump] in
  let shown label :=
    filteredItems data (Some (<["status" := VStr label]> ∅)) EmptyString "All" in
  List.length (shown "Breakdown") = breakdown (stats utc_host 0 data) /\
  List.length (shown "Maintenance") = maintenance (stats utc_host 0 data).
Proof.
  cbv zeta.
  apply (status_card_opens_the_counted_records utc_host 0
           [<["status" := VStr "BREAKDOWN"]> ∅; <["status" := VStr "Maintenance"]> ∅; pump]).
  repeat constructor.
Defined.

(** The card can count more than the list shows: a status with white space
    around it is counted and not listed. *)
Remark card_counts_padded_status :
  breakdown (stats utc_host 0 [padded_breakdown]) = 1%nat /\
  filteredItems [padded_breakdown] (Some (<["status" := VStr "Breakdown"]> ∅))
    EmptyString "All" = [].
Proof. split; reflexivity. Qed.



(* --------------------------------------------------------------------- *)
(** *** The form of the modal *)

Lemma before_T_app (a rest : string) :
  no_T a = true -> before_T (a ++ String "T" rest) = a.
Proof.
  induction a as [| c a IH]; intros H.
  - reflexivity.
  - simpl in H. apply andb_true_iff in H as [Hc Ha]. rewrite append_cons. simpl.
    apply negb_true_iff in Hc. rewrite Hc. now rewrite IH.
Qed.

Lemma no_T_app (a b : string) : no_T (a ++ b) = no_T a && no_T b.
Proof.
  induction a as [| c a IH]; [reflexivity |]. rewrite append_cons. simpl.
  now rewrite IH, andb_assoc.
Qed.

Lemma digit_char_not_T (d : Z) : 0 <= d < 10 -> Ascii.eqb (digit_char d) "T" = false.
Proof.
  intros H.
  assert (d = 0 \/ d = 1 \/ d = 2 \/ d = 3 \/ d = 4 \/ d = 5 \/ d = 6 \/ d = 7 \/
          d = 8 \/ d = 9) as Hd by lia.
  repeat destruct Hd as [-> | Hd]; try subst d; reflexivity.
Qed.

Lemma no_T_pad (w : nat) (n : Z) : no_T (pad w n) = true.
Proof.
  induction w as [| w IH]; [reflexivity |]. cbn [pad no_T].
  rewrite digit_char_not_T by (apply Z.mod_pos_bound; lia). exact IH.
Qed.

Lemma no_T_year_text (y : Z) : no_T (year_text y) = true.
Proof.
  unfold year_text. destruct (_ && _); [apply no_T_pad |].
  destruct (y <? 0)%Z; cbn [no_T]; now rewrite no_T_pad.
Qed.

Lemma iso_text_date_text (t : Z) :
  iso_text t = date_text t ++ String "T" (pad 2 (HourFromTime t) ++ ":" ++
                 pad 2 (MinFromTime t) ++ ":" ++ pad 2 (SecFromTime t) ++ "." ++
                 pad 3 (msFromTime t) ++ "Z").
Proof.
  unfold iso_text, date_text. rewrite !append_assoc. reflexivity.
Qed.

Lemma before_T_iso_text (t : Z) : before_T (iso_text t) = date_text t.
Proof.
  rewrite iso_text_date_text. apply before_T_app. unfold date_text.
  rewrite !no_T_app, no_T_year_text, !no_T_pad. reflexivity.
Qed.

Lemma start_of_day_in_range (t : Z) : Z.abs t <= maxTime -> Z.abs (start_of_day t) <= maxTime.
Proof.
  unfold start_of_day, Day, msPerDay, maxTime. intros H. Z.div_mod_to_equations. lia.
Qed.

Lemma iso_format_date_text (t : Z) :
  Z.abs t <= maxTime -> iso_format (date_text t) = Some (start_of_day t).
Proof.
  intros Ht. unfold date_text, YearFromTime, MonthFromTime, DateFromTime.
  pose proof (civil_from_days_valid (Day t)) as Hvalid.
  assert (-100000000 <= Day t <= 100000000) as Hday
    by (unfold Day, msPerDay, maxTime in *; Z.div_mod_to_equations; lia).
  destruct (civil_from_days (Day t)) as [[y m] d]. cbn [fst snd].
  destruct Hvalid as (Hm & Hd & Hback & Hy).
  assert (-999999 <= y <= 999999) as Hyear by (Z.div_mod_to_equations; lia).
  assert (DaysInMonth y m <= 31) as Hdim
    by (unfold DaysInMonth;
        repeat match goal with |- context [if ?b then _ else _] => destruct b end; lia).
  unfold iso_format. rewrite read_year_text by assumption. cbn [mbind option_bind].
  replace (m - 1 + 1) with m by lia.
  do 3 parse_step.
  rewrite <- (append_empty (pad 2 d)). parse_step.
  destruct (Z.leb_spec 1 m); [| lia]. destruct (Z.leb_spec m 12); [| lia].
  destruct (Z.leb_spec 1 d); [| lia]. destruct (Z.leb_spec d (DaysInMonth y m)); [| lia].
  cbn [andb]. rewrite MakeDay_of_date, Hback by assumption.
  unfold MakeDate, start_of_day. f_equal. lia.
Qed.

Lemma date_text_nonempty (t : Z) : exists c s, date_text t = String c s.
Proof.
  unfold date_text, year_text.
  destruct ((0 <=? YearFromTime t) && (YearFromTime t <=? 9999))%Z;
    [| destruct (YearFromTime t <? 0)%Z]; cbn [pad]; rewrite append_cons; eauto.
Qed.

(** The date part of an ISO text is read as midnight UTC of that day. *)
Lemma Date_parse_date_text (P : platform) (t : Z) :
  Z.abs t <= maxTime -> Date_parse P (date_text t) = Some (start_of_day t).
Proof.
  intros Ht. unfold Date_parse.
  destruct (date_text_nonempty t) as (c & s & Htext).
  pose proof (iso_format_date_text t Ht) as Hparse.
  rewrite Htext in Hparse |- *. rewrite Hparse.
  apply TimeClip_in_range. now apply start_of_day_in_range.
Qed.

Lemma safeDateToInput_cases (P : platform) (dateStr : option value) :
  (safeDateToInput P dateStr = Ok EmptyString /\
   (truthy dateStr = false \/ new_Date P dateStr = None)) \/
  (exists t, truthy dateStr = true /\ new_Date P dateStr = Some t /\
             safeDateToInput P dateStr = Ok (date_text t)).
Proof.
  unfold safeDateToInput. destruct (truthy dateStr); cbn [negb]; [| left; auto].
  destruct (new_Date P dateStr) as [t |] eqn:Hdate; cbn [isNaN_getTime]; [| left; auto].
  right. exists t. cbn [toISOString try_catch]. now rewrite before_T_iso_text.
Qed.

(** X19: the date the form shows for a stored date is the calendar day of
    its instant in UTC, as YYYY-MM-DD, and reading that text as a date gives
    midnight UTC of that day; the form shows the empty text for a falsy value
    and for one that is no date. *)
Theorem form_date_is_the_utc_day (P : platform) (dateStr : option value) :
  exists s : string,
    safeDateToInput P dateStr = Ok s /\
    match new_Date P dateStr with
    | Some t =>
        if truthy dateStr
        then s = date_text t /\ new_Date P (str s) = Some (start_of_day t)
        else s = EmptyString
    | None => s = EmptyString
    end.
Proof.
  destruct (safeDateToInput_cases P dateStr) as [[Hs [Hf | Hn]] | (t & Htr & Hd & Hs)].
  - exists EmptyString. split; [assumption |]. rewrite Hf. now destruct (new_Date P dateStr).
  - exists EmptyString. split; [assumption |]. now rewrite Hn.
  - exists (date_text t). split; [assumption |]. rewrite Hd, Htr. split; [reflexivity |].
    apply Date_parse_date_text. now apply (new_Date_in_range P dateStr).
Qed.

Lemma lookup_with_key (k k' : string) (v : option value) (o : obj) :
  with_key k v o !! k'
  = if String.eqb k k' then match v with Some x => Some x | None => o !! k' end
    else o !! k'.
Proof.
  unfold with_key. destruct (String.eqb_spec k k') as [<- | Hne], v as [x |];
    try reflexivity; [apply lookup_insert_eq | now apply lookup_insert_ne].
Qed.

Lemma form_of_lookup (e : obj) (si sd : string) (key : string) :
  form_of e si sd !! key
  = if String.eqb "dueDate" key then Some (VStr sd)
    else if String.eqb "issueDate" key then Some (VStr si)
    else if existsb (fun k => String.eqb k key)
              ["name"; "remarks"; "location"; "assigneeName"; "empId"; "status"]
         then e !! key else None.
Proof.
  unfold form_of. rewrite !lookup_with_key, lookup_empty. cbn [existsb]. unfold prop.
  repeat match goal with
         | |- context [String.eqb ?k key] =>
             destruct (String.eqb_spec k key) as [<- | ?]; cbn [orb];
             try (now destruct (e !! _)); try discriminate
         end;
  reflexivity.
Qed.

Lemma initial_formData_form (P : platform) (e : obj) :
  exists si sd,
    safeDateToInput P (prop e "issueDate") = Ok si /\
    safeDateToInput P (prop e "dueDate") = Ok sd /\
    initial_formData P e = Ok (form_of e si sd).
Proof.
  unfold initial_formData.
  destruct (safeDateToInput_cases P (prop e "issueDate")) as [[Hi _] | (ti & _ & _ & Hi)];
    destruct (safeDateToInput_cases P (prop e "dueDate")) as [[Hd _] | (td & _ & _ & Hd)];
    rewrite Hi, Hd; do 2 eexists; repeat split; reflexivity.
Qed.

(** What [handleSubmit] makes of a date that was not edited. *)
Lemma iso_if_valid_unedited (P : platform) (key : string) (stored : option value)
    (updates : obj) (shown : string) :
  safeDateToInput P stored = Ok shown ->
  updates !! key = Some (VStr shown) ->
  exists updates',
    iso_if_valid P key updates = Ok updates' /\
    updates' !! key = Some (VStr (saved_date P stored)) /\
    forall k, k <> key -> updates' !! k = updates !! k.
Proof.
  intros Hshown Hkey. unfold iso_if_valid, prop, saved_date. rewrite Hkey.
  destruct (safeDateToInput_cases P stored) as [[Hs Hwhy] | (t & Htr & Hd & Hs)];
    rewrite Hs in Hshown; injection Hshown as <-.
  - change (truthy (Some (VStr EmptyString))) with false. cbv iota.
    exists updates. split; [reflexivity |]. split; [| reflexivity].
    rewrite Hkey. destruct Hwhy as [-> | Hn]; [reflexivity |].
    rewrite Hn. now destruct (truthy stored).
  - destruct (date_text_nonempty t) as (c & s & Htext).
    assert (truthy (Some (VStr (date_text t))) = true) as -> by now rewrite Htext.
    cbn [new_Date]. rewrite Date_parse_date_text by now apply (new_Date_in_range P stored).
    cbn [isNaN_getTime negb toISOString]. eexists. split; [reflexivity |].
    rewrite Htr, Hd. split; [apply lookup_insert_eq |].
    intros k Hk. apply lookup_insert_ne. congruence.
Qed.

Lemma same_id_self (e : obj) : same_id (VStr (String_ (prop e "id"))) e = true.
Proof. unfold same_id. cbn [ToString]. apply String.eqb_refl. Qed.

(** Saving the form of a stored record with none of its inputs edited. *)
Lemma submit_unedited (P : platform) (mode : modal_mode) (w : world)
    (before after : list obj) (e : obj) :
  parse_or_empty (localStorage w) = Ok (before ++ e :: after)%list ->
  (forall x, x ∈ before -> same_id (VStr (String_ (prop e "id"))) x = false) ->
  exists (form merged : obj) (w' : world),
    initial_formData P e = Ok form /\
    handleSubmit P mode form e w = (Ok tt, w') /\
    db.getAll w' = (Ok (before ++ merged :: after)%list, w') /\
    merged !! "dueDate" = Some (VStr (saved_date P (prop e "dueDate"))) /\
    merged !! "issueDate" = Some (VStr (saved_date P (prop e "issueDate"))) /\
    merged !! "status" = match mode with
                         | Issue => Some (VStr "Assigned")
                         | Edit => e !! "status"
                         end /\
    (forall key : string,
        key <> "dueDate" -> key <> "issueDate" -> key <> "status" ->
        merged !! key = e !! key).
Proof.
  intros Hparse Hbefore.
  destruct (initial_formData_form P e) as (si & sd & Hsi & Hsd & Hform).
  exists (form_of e si sd).
  set (updates0 := match mode with
                   | Issue => <["status" := VStr "Assigned"]> (form_of e si sd)
                   | Edit => form_of e si sd
                   end).
  assert (forall key, key <> "status" -> updates0 !! key = form_of e si sd !! key) as Hframe0.
  { intros key Hkey. unfold updates0. destruct mode; [| reflexivity].
    apply lookup_insert_ne. congruence. }
  destruct (iso_if_valid_unedited P "issueDate" (prop e "issueDate") updates0 si Hsi)
    as (updates1 & Hrun1 & Hissue1 & Hframe1).
  { rewrite Hframe0 by discriminate. now rewrite form_of_lookup. }
  destruct (iso_if_valid_unedited P "dueDate" (prop e "dueDate") updates1 sd Hsd)
    as (updates2 & Hrun2 & Hdue2 & Hframe2).
  { rewrite Hframe1, Hframe0 by discriminate. now rewrite form_of_lookup. }
  destruct (update_first_match w before after e (VStr (String_ (prop e "id"))) updates2
              Hparse Hbefore (same_id_self e)) as (merged & w' & Hupdate & Hread & Hmerged).
  exists merged, w'. split; [assumption |]. split.
  { unfold handleSubmit, bind, lift. fold updates0. rewrite Hrun1, Hrun2, Hupdate. reflexivity. }
  split; [assumption |].
  split; [now rewrite Hmerged, Hdue2 |].
  split; [rewrite Hmerged, Hframe2, Hissue1 by discriminate; reflexivity |].
  split.
  - rewrite Hmerged, Hframe2, Hframe1 by discriminate. unfold updates0.
    destruct mode; [now rewrite lookup_insert_eq |].
    rewrite form_of_lookup. cbn. now destruct (e !! "status").
  - intros key Hd Hi Hs. rewrite Hmerged, Hframe2, Hframe1, Hframe0 by assumption.
    rewrite form_of_lookup.
    destruct (String.eqb_spec "dueDate" key); [congruence |].
    destruct (String.eqb_spec "issueDate" key); [congruence |].
    destruct (existsb _ _); [now destruct (e !! key) | reflexivity].
Qed.

Lemma start_of_day_idem (t : Z) : start_of_day (start_of_day t) = start_of_day t.
Proof. unfold start_of_day, Day, msPerDay. Z.div_mod_to_equations. lia. Qed.

Lemma saved_date_idem (P : platform) (stored : option value) :
  saved_date P (str (saved_date P stored)) = saved_date P stored.
Proof.
  unfold saved_date at 2 3.
  destruct (truthy stored); [| reflexivity].
  destruct (new_Date P stored) as [t |] eqn:Hdate; [| reflexivity].
  unfold saved_date, str. rewrite iso_text_truthy. cbn [new_Date].
  rewrite Date_parse_iso_text
    by (apply start_of_day_in_range; now apply (new_Date_in_range P stored)).
  now rewrite start_of_day_idem.
Qed.

(** X20: saving the form of a stored record with nothing edited succeeds and
    changes that record alone: its dates become midnight UTC of their day
    (the empty text if they were no dates), after which saving again changes
    nothing more; its status becomes 'Assigned' when issuing and is kept when
    editing; every other field is kept. *)
Theorem saving_an_unedited_form (P : platform) (mode : modal_mode) (w : world)
    (before after : list obj) (e : obj) :
  parse_or_empty (localStorage w) = Ok (before ++ e :: after)%list ->
  (forall x, x ∈ before -> same_id (VStr (String_ (prop e "id"))) x = false) ->
  exists (form merged : obj) (w' : world),
    initial_formData P e = Ok form /\
    handleSubmit P mode form e w = (Ok tt, w') /\
    db.getAll w' = (Ok (before ++ merged :: after)%list, w') /\
    merged !! "dueDate" = Some (VStr (saved_date P (prop e "dueDate"))) /\
    merged !! "issueDate" = Some (VStr (saved_date P (prop e "issueDate"))) /\
    saved_date P (merged !! "dueDate") = saved_date P (prop e "dueDate") /\
    saved_date P (merged !! "issueDate") = saved_date P (prop e "issueDate") /\
    merged !! "status" = match mode with
                         | Issue => Some (VStr "Assigned")
                         | Edit => e !! "status"
                         end /\
    (forall key : string,
        key <> "dueDate" -> key <> "issueDate" -> key <> "status" ->
        merged !! key = e !! key).
Proof.
  intros Hparse Hbefore.
  destruct (submit_unedited P mode w before after e Hparse Hbefore)
    as (form & merged & w' & Hform & Hrun & Hread & Hdue & Hissue & Hstatus & Hframe).
  exists form, merged, w'. repeat (split; [assumption |]).
  split; [rewrite Hdue; apply saved_date_idem |].
  split; [rewrite Hissue; apply saved_date_idem |]. split; assumption.
Qed.

Lemma saving_an_unedited_form_witness :
  exists (form merged : obj) (w' : world),
    initial_formData utc_host pump_due = Ok form /\
    handleSubmit utc_host Edit form pump_due (stored_as [id_one; pump_due]) = (Ok tt, w') /\
    db.getAll w' = (Ok [id_one; merged], w') /\
    merged !! "dueDate" = Some (VStr "2024-01-31T00:00:00.000Z") /\
    merged !! "issueDate" = Some (VStr "") /\
    merged !! "status" = None /\
    merged !! "name" = Some (VStr "Pump").
Proof.
  destruct (saving_an_unedited_form utc_host Edit (stored_as [id_one; pump_due])
              [id_one] [] pump_due eq_refl)
    as (form & merged & w' & Hform & Hrun & Hread & Hdue & Hissue & _ & _ & Hstatus & Hframe).
  { intros x Hx. apply list_elem_of_singleton in Hx as ->. reflexivity. }
  exists form, merged, w'.
  split; [exact Hform |]. split; [exact Hrun |]. split; [exact Hread |].
  split; [exact Hdue |]. split; [exact Hissue |]. split; [exact Hstatus |].
  rewrite Hframe by discriminate. reflexivity.
Defined.

(* --------------------------------------------------------------------- *)
(** *** A day picked in the form *)

Lemma date_text_start_of_day (t : Z) : date_text (start_of_day t) = date_text t.
Proof.
  unfold date_text, YearFromTime, MonthFromTime, DateFromTime.
  replace (Day (start_of_day t)) with (Day t); [reflexivity |].
  unfold start_of_day, Day, msPerDay. Z.div_mod_to_equations. lia.
Qed.

(** [handleSubmit] leaves the other keys of the form as they are. *)
Lemma iso_if_valid_runs (P : platform) (key : string) (updates : obj) :
  exists updates',
    iso_if_valid P key updates = Ok updates' /\
    forall k, k <> key -> updates' !! k = updates !! k.
Proof.
  unfold iso_if_valid. destruct (truthy (prop updates key)); [| now exists updates].
  destruct (new_Date P (prop updates key)) as [t |]; cbn [isNaN_getTime negb toISOString];
    [| now exists updates].
  eexists. split; [reflexivity |]. intros k Hk. apply lookup_insert_ne. congruence.
Qed.

(** What [handleSubmit] makes of a day picked in a date input. *)
Lemma iso_if_valid_picked (P : platform) (key : string) (updates : obj) (t : Z) :
  Z.abs t <= maxTime ->
  updates !! key = Some (VStr (date_text t)) ->
  exists updates',
    iso_if_valid P key updates = Ok updates' /\
    updates' !! key = Some (VStr (iso_text (start_of_day t))).
Proof.
  intros Ht Hkey. unfold iso_if_valid, prop. rewrite Hkey.
  destruct (date_text_nonempty t) as (c & s & Htext).
  assert (truthy (Some (VStr (date_text t))) = true) as -> by now rewrite Htext.
  cbn [new_Date]. rewrite Date_parse_date_text by assumption.
  cbn [isNaN_getTime negb toISOString]. eexists. split; [reflexivity |].
  apply lookup_insert_eq.
Qed.

(** X21: a day picked in the form is stored as midnight UTC of that day on
    every host, whatever its time zone, and the form shows that day again:
    after the due date input is set to the text YYYY-MM-DD of a day and the
    form is saved, the stored [dueDate] is the ISO text of midnight UTC of
    that day, and the form opened on the saved record shows the same text. *)
Theorem picked_day_is_stored_as_utc_midnight (P : platform) (mode : modal_mode) (w : world)
    (before after : list obj) (e formData : obj) (t : Z) :
  Z.abs t <= maxTime ->
  parse_or_empty (localStorage w) = Ok (before ++ e :: after)%list ->
  (forall x, x ∈ before -> same_id (VStr (String_ (prop e "id"))) x = false) ->
  exists (merged : obj) (w' : world),
    handleSubmit P mode (handleChange "dueDate" (date_text t) formData) e w = (Ok tt, w') /\
    db.getAll w' = (Ok (before ++ merged :: after)%list, w') /\
    merged !! "dueDate" = Some (VStr (iso_text (start_of_day t))) /\
    safeDateToInput P (merged !! "dueDate") = Ok (date_text t).
Proof.
  intros Ht Hparse Hbefore.
  set (updates0 := match mode with
                   | Issue => <["status" := VStr "Assigned"]>
                                (handleChange "dueDate" (date_text t) formData)
                   | Edit => handleChange "dueDate" (date_text t) formData
                   end).
  assert (updates0 !! "dueDate" = Some (VStr (date_text t))) as Hdue0.
  { unfold updates0, handleChange. destruct mode.
    - rewrite lookup_insert_ne by discriminate. apply lookup_insert_eq.
    - apply lookup_insert_eq. }
  destruct (iso_if_valid_runs P "issueDate" updates0) as (updates1 & Hrun1 & Hframe1).
  destruct (iso_if_valid_picked P "dueDate" updates1 t Ht) as (updates2 & Hrun2 & Hdue2).
  { now rewrite Hframe1 by discriminate. }
  destruct (update_first_match w before after e (VStr (String_ (prop e "id"))) updates2
              Hparse Hbefore (same_id_self e)) as (merged & w' & Hupdate & Hread & Hmerged).
  exists merged, w'. split.
  { unfold handleSubmit, bind, lift. fold updates0. rewrite Hrun1, Hrun2, Hupdate. reflexivity. }
  split; [assumption |].
  assert (merged !! "dueDate" = Some (VStr (iso_text (start_of_day t)))) as Hstored
    by now rewrite Hmerged, Hdue2.
  split; [assumption |]. rewrite Hstored.
  destruct (safeDateToInput_cases P (Some (VStr (iso_text (start_of_day t)))))
    as [[_ [Hfalsy | Hnone]] | (t' & _ & Hdate & ->)].
  - now rewrite iso_text_truthy in Hfalsy.
  - cbn [new_Date] in Hnone.
    rewrite Date_parse_iso_text in Hnone by now apply start_of_day_in_range. discriminate.
  - cbn [new_Date] in Hdate.
    rewrite Date_parse_iso_text in Hdate by now apply start_of_day_in_range.
    injection Hdate as <-. now rewrite date_text_start_of_day.
Qed.

Lemma picked_day_is_stored_as_utc_midnight_witness :
  exists (merged : obj) (w' : world),
    handleSubmit summer_time_host Issue (handleChange "dueDate" "2024-03-09" ∅) pump
      (stored_as [id_one; pump]) = (Ok tt, w') /\
    db.getAll w' = (Ok [id_one; merged], w') /\
    merged !! "dueDate" = Some (VStr "2024-03-09T00:00:00.000Z") /\
    safeDateToInput summer_time_host (merged !! "dueDate") = Ok "2024-03-09".
Proof.
  apply (picked_day_is_stored_as_utc_midnight summer_time_host Issue (stored_as [id_one; pump])
           [id_one] [] pump ∅ 1710000000000).
  - vm_compute. discriminate.
  - reflexivity.
  - intros x Hx. apply list_elem_of_singleton in Hx as ->. reflexivity.
Defined.
